(** * Robocop: disablers, rule registry, configuration, scan loop and reports

    A shallow embedding of
      - robocop/utils/disablers.py  (DisablersInFile, DisablersFinder),
      - robocop/reports/reports.py  (RulesByIdReport, RulesBySeverityReport),
      - robocop/run.py              (Robocop: register_checker,
                                     configure_checkers_or_reports, run_checks,
                                     run_checks_on_files_with_type_changed, report),
    followed by the properties established for them.

    Conventions.  Text is [string] over the ASCII range; line numbers are [Z]
    (the parser starts from the sentinel -1); a Python [dict] whose iteration
    order is observable is an association list in insertion order, the rule
    registry of [Robocop], which is only looked up, is a [gmap]; a Python
    [set] is a [gset].  Methods that mutate [self] are computations in a small
    state monad; methods that raise return a [result]. *)

From Stdlib Require Import ZArith Lia String Ascii List DecimalString.
From Stdlib Require Sorted.
From stdpp Require Import base gmap sets list strings.
Import ListNotations.
Open Scope string_scope.
Open Scope Z_scope.

(* ===================================================================== *)
(** ** Python string primitives used by the sources *)
(* ===================================================================== *)

Module Py.

(** [c in s] for a one-character [c]. *)
Fixpoint contains (c : ascii) (s : string) : bool :=
  match s with
  | EmptyString => false
  | String a s' => if Ascii.eqb a c then true else contains c s'
  end.

(** [s.count(c)] for a one-character [c]. *)
Fixpoint count (c : ascii) (s : string) : nat :=
  match s with
  | EmptyString => O
  | String a s' => if Ascii.eqb a c then S (count c s') else count c s'
  end.

(** [s.split(c)]: every occurrence of [c] separates two fields, empty fields
    are kept, so the result has [count c s + 1] fields. *)
Fixpoint split (c : ascii) (s : string) : list string :=
  match s with
  | EmptyString => [EmptyString]
  | String a s' =>
      if Ascii.eqb a c then EmptyString :: split c s'
      else match split c s' with
           | [] => [String a EmptyString]
           | f :: fs => String a f :: fs
           end
  end.

(** [s.split(c, maxsplit=1)]: cut at the first [c] only. *)
Fixpoint split1 (c : ascii) (s : string) : list string :=
  match s with
  | EmptyString => [EmptyString]
  | String a s' =>
      if Ascii.eqb a c then [EmptyString; s']
      else match split1 c s' with
           | [] => [String a EmptyString]
           | f :: fs => String a f :: fs
           end
  end.

(** [s.startswith(p)], returning what follows the prefix. *)
Fixpoint strip_prefix (p s : string) : option string :=
  match p with
  | EmptyString => Some s
  | String a p' =>
      match s with
      | EmptyString => None
      | String b s' => if Ascii.eqb a b then strip_prefix p' s' else None
      end
  end.

(** The longest prefix of [s] made of characters accepted by [f]. *)
Fixpoint take_while (f : ascii -> bool) (s : string) : string :=
  match s with
  | EmptyString => EmptyString
  | String a s' => if f a then String a (take_while f s') else EmptyString
  end.

(** [str(n)] for a non-negative integer. *)
Definition str_of_nat (n : nat) : string :=
  NilZero.string_of_uint (Nat.to_uint n).

(** [' ' * n]. *)
Fixpoint spaces (n : nat) : string :=
  match n with
  | O => EmptyString
  | S n' => String " "%char (spaces n')
  end.

(** [format(s, str(width))] for a string: left-aligned, padded with spaces up
    to [width], never truncated. *)
Definition ljust (s : string) (width : nat) : string :=
  s +:+ spaces (width - String.length s).

(** ['\n'.join(l)] and friends. *)
Fixpoint join (sep : string) (l : list string) : string :=
  match l with
  | [] => EmptyString
  | [x] => x
  | x :: l' => x +:+ sep +:+ join sep l'
  end.

(** [p in s] for a string [p]. *)
Fixpoint is_infix (p s : string) : bool :=
  match strip_prefix p s with
  | Some _ => true
  | None =>
      match s with
      | EmptyString => false
      | String _ s' => is_infix p s'
      end
  end.

(** [s.lower()] on ASCII text. *)
Definition lower_char (c : ascii) : ascii :=
  let n := nat_of_ascii c in
  if ((65 <=? n) && (n <=? 90))%nat then ascii_of_nat (n + 32) else c.

Fixpoint lower (s : string) : string :=
  match s with
  | EmptyString => EmptyString
  | String a s' => String (lower_char a) (lower s')
  end.

(** The regular-expression class [\w] on ASCII text: letters, digits and the
    underscore. *)
Definition is_word (c : ascii) : bool :=
  let n := nat_of_ascii c in
  ((48 <=? n) && (n <=? 57) || (65 <=? n) && (n <=? 90)
   || (97 <=? n) && (n <=? 122) || (n =? 95))%nat.

End Py.

(* ===================================================================== *)
(** ** robocop/utils/disablers.py *)
(* ===================================================================== *)

Module Disablers.

(** A finding as the disabler reads it: [msg.msg_id], [msg.name], [msg.line]. *)
Record Msg := mkMsg { msg_id : string; name : string; line : Z }.

(** *** The store of mutable containers

    [DisablersInFile.__init__] creates one [set] and one [list]; an instance
    holds references to them.  [copy(self)] is a shallow copy, so the copy
    holds the same two references. *)

Definition loc := nat.

Record Heap := mkHeap {
  set_objs : list (gset Z);
  list_objs : list (list (Z * Z))
}.

Definition empty_heap : Heap := mkHeap [] [].

Definition set_at (l : loc) (h : Heap) : gset Z := set_objs h !!! l.
Definition list_at (l : loc) (h : Heap) : list (Z * Z) := list_objs h !!! l.

(** [s.add(x)] on the set stored at [l]. *)
Definition set_add (l : loc) (x : Z) (h : Heap) : Heap :=
  mkHeap (<[l := {[x]} ∪ set_at l h]> (set_objs h)) (list_objs h).

(** [b.append(x)] on the list stored at [l]. *)
Definition list_append (l : loc) (x : Z * Z) (h : Heap) : Heap :=
  mkHeap (set_objs h) (<[l := (list_at l h ++ [x])%list]> (list_objs h)).

Record DisablersInFile := mkDisablersInFile {
  lastblock : Z;
  lines : loc;
  blocks : loc
}.

(** [DisablersInFile()]. *)
Definition DisablersInFile_init (h : Heap) : DisablersInFile * Heap :=
  (mkDisablersInFile (-1) (length (set_objs h)) (length (list_objs h)),
   mkHeap (set_objs h ++ [∅])%list (list_objs h ++ [[]])%list).

(** [DisablersInFile.copy]: [copy(self)], attribute by attribute. *)
Definition DisablersInFile_copy (d : DisablersInFile) : DisablersInFile :=
  mkDisablersInFile (lastblock d) (lines d) (blocks d).

(** *** DisablersFinder

    [rules] is [defaultdict(DisablersInFile().copy)]: [default_factory] is the
    one instance whose bound [copy] makes the value of every new key.  The
    attributes [linter] and [disabler_pattern] are never written after
    [__init__] and carry no state. *)

Record DisablersFinder := mkDisablersFinder {
  file_disabled : bool;
  any_disabler : bool;
  default_factory : DisablersInFile;
  rules : list (string * DisablersInFile);
  heap : Heap
}.

(** The state monad of the methods of [DisablersFinder]. *)
Definition M (A : Type) : Type := DisablersFinder -> A * DisablersFinder.
Definition ret {A} (a : A) : M A := fun self => (a, self).
Definition bind {A B} (m : M A) (k : A -> M B) : M B :=
  fun self => let (a, self') := m self in k a self'.

Notation "x <- m ;; k" := (bind m (fun x => k))
  (at level 100, m at next level, right associativity).
Notation "m ;;; k" := (bind m (fun _ => k))
  (at level 100, k at level 200, right associativity).

Definition exec {A} (m : M A) (self : DisablersFinder) : DisablersFinder :=
  snd (m self).
Definition eval {A} (m : M A) (self : DisablersFinder) : A := fst (m self).

(** [for x in xs: body(x)]. *)
Fixpoint for_each {A} (xs : list A) (body : A -> M unit) : M unit :=
  match xs with
  | [] => ret tt
  | x :: xs' => body x ;;; for_each xs' body
  end.

(** Dictionary lookup in insertion order. *)
Fixpoint assoc (rule : string) (d : list (string * DisablersInFile))
  : option DisablersInFile :=
  match d with
  | [] => None
  | (k, v) :: d' => if String.eqb k rule then Some v else assoc rule d'
  end.

(** Replace the value of an existing key, keeping its position. *)
Fixpoint assoc_set (rule : string) (v : DisablersInFile)
  (d : list (string * DisablersInFile)) : list (string * DisablersInFile) :=
  match d with
  | [] => []
  | (k, w) :: d' =>
      if String.eqb k rule then (k, v) :: d' else (k, w) :: assoc_set rule v d'
  end.

(** [rule in self.rules]. *)
Definition rules_contains (rule : string) : M bool :=
  fun self => (match assoc rule (rules self) with Some _ => true | None => false end,
               self).

(** [self.rules[rule]]: a missing key is created from the factory. *)
Definition rules_getitem (rule : string) : M DisablersInFile :=
  fun self =>
    match assoc rule (rules self) with
    | Some d => (d, self)
    | None =>
        let d := DisablersInFile_copy (default_factory self) in
        (d, mkDisablersFinder (file_disabled self) (any_disabler self)
              (default_factory self) (rules self ++ [(rule, d)])%list (heap self))
    end.

(** [self.rules[rule].lastblock = v]. *)
Definition set_lastblock (rule : string) (v : Z) : M unit :=
  d <- rules_getitem rule ;;
  fun self =>
    (tt, mkDisablersFinder (file_disabled self) (any_disabler self)
           (default_factory self)
           (assoc_set rule (mkDisablersInFile v (lines d) (blocks d)) (rules self))
           (heap self)).

(** [self.rules[rule].lines.add(lineno)]. *)
Definition lines_add (rule : string) (lineno : Z) : M unit :=
  d <- rules_getitem rule ;;
  fun self =>
    (tt, mkDisablersFinder (file_disabled self) (any_disabler self)
           (default_factory self) (rules self)
           (set_add (lines d) lineno (heap self))).

(** [self.rules[rule].blocks.append(block)]. *)
Definition blocks_append (rule : string) (block : Z * Z) : M unit :=
  d <- rules_getitem rule ;;
  fun self =>
    (tt, mkDisablersFinder (file_disabled self) (any_disabler self)
           (default_factory self) (rules self)
           (list_append (blocks d) block (heap self))).

Definition set_file_disabled (b : bool) : M unit :=
  fun self =>
    (tt, mkDisablersFinder b (any_disabler self) (default_factory self)
           (rules self) (heap self)).

Definition set_any_disabler (b : bool) : M unit :=
  fun self =>
    (tt, mkDisablersFinder (file_disabled self) b (default_factory self)
           (rules self) (heap self)).

(** *** The directive pattern

    [disabler_pattern]: the literal text "robocop: ", then the group
    [disabler], one of [disable] and [enable], then an optional [=], then the
    group [rules], any number of word characters, hyphens and commas. *)

Inductive keyword := disable | enable.

Record Match := mkMatch { group_disabler : keyword; group_rules : string }.

Definition is_rules_char (c : ascii) : bool :=
  Py.is_word c || Ascii.eqb c "-" || Ascii.eqb c ",".

(** What follows the keyword: an optional [=], then the longest run of rule
    characters.  Both parts may be empty, so a match never backtracks. *)
Definition match_rules (s : string) : string :=
  match s with
  | String "="%char s' => Py.take_while is_rules_char s'
  | _ => Py.take_while is_rules_char s
  end.

(** A match of the pattern that starts at the first character of [s]. *)
Definition match_here (s : string) : option Match :=
  match Py.strip_prefix "robocop: " s with
  | None => None
  | Some r =>
      match Py.strip_prefix "disable" r with
      | Some r' => Some (mkMatch disable (match_rules r'))
      | None =>
          match Py.strip_prefix "enable" r with
          | Some r' => Some (mkMatch enable (match_rules r'))
          | None => None
          end
      end
  end.

(** [disabler_pattern.search(comment)]: the leftmost match. *)
Fixpoint search (comment : string) : option Match :=
  match match_here comment with
  | Some m => Some m
  | None =>
      match comment with
      | EmptyString => None
      | String _ comment' => search comment'
      end
  end.

(** *** Transitions *)

(** [_add_inline_disabler]. *)
Definition _add_inline_disabler (rule : string) (lineno : Z) : M unit :=
  lines_add rule lineno.

(** [_start_block]. *)
Definition _start_block (rule : string) (lineno : Z) : M unit :=
  d <- rules_getitem rule ;;
  if lastblock d =? -1 then set_lastblock rule lineno else ret tt.

(** The body of [_end_block], with the call to [_end_all_blocks] left open:
    the two methods call each other. *)
Definition _end_block_body (end_all_blocks : Z -> M unit)
  (rule : string) (lineno : Z) : M unit :=
  present <- rules_contains rule ;;
  if negb present then ret tt
  else
    d <- rules_getitem rule ;;
    (if negb (lastblock d =? -1) then
       d' <- rules_getitem rule ;;
       let block := (lastblock d', lineno) in
       set_lastblock rule (-1) ;;;
       blocks_append rule block
     else ret tt) ;;;
    if String.eqb rule "all" then end_all_blocks lineno else ret tt.

(** [_end_all_blocks]: every key but ["all"] is ended.  The nested
    [_end_block] is never entered with ["all"], so its own call to
    [_end_all_blocks] is never reached and is closed with a no-op. *)
Definition _end_all_blocks (lineno : Z) : M unit :=
  fun self =>
    for_each (map fst (rules self))
      (fun rule =>
         if String.eqb rule "all" then ret tt
         else _end_block_body (fun _ => ret tt) rule lineno)
      self.

(** [_end_block]. *)
Definition _end_block (rule : string) (lineno : Z) : M unit :=
  _end_block_body _end_all_blocks rule lineno.

(** The first half of [_parse_line]: the statement before the first [#], the
    pattern searched in the comment after it, the rule list and the block
    flag ([not statement]).  [None] when the pattern does not match.
    [_parse_line] is only called on lines that hold a [#]; the unpacking of
    [line.split('#', maxsplit=1)] cannot fail there. *)
Definition directive (line : string) : option (keyword * list string * bool) :=
  match Py.split1 "#" line with
  | [statement; comment] =>
      match search comment with
      | None => None
      | Some disabler =>
          let rules :=
            if String.eqb (group_rules disabler) "" then ["all"]
            else Py.split "," (group_rules disabler) in
          let block := String.eqb statement "" in
          Some (group_disabler disabler, rules, block)
      end
  | _ => None
  end.

(** [_parse_line]. *)
Definition _parse_line (line : string) (lineno : Z) : M unit :=
  match directive line with
  | None => ret tt
  | Some (disable, rules, block) =>
      for_each rules
        (fun rule =>
           if block then _start_block rule lineno
           else _add_inline_disabler rule lineno)
  | Some (enable, rules, block) =>
      if block then for_each rules (fun rule => _end_block rule lineno)
      else ret tt
  end.

(** [_is_file_disabled]. *)
Definition _is_file_disabled (last_line : Z) : M bool :=
  present <- rules_contains "all" ;;
  if negb present then ret false
  else
    d <- rules_getitem "all" ;;
    fun self =>
      match list_at (blocks d) (heap self) with
      | [b] => (bool_decide (b = (0, last_line)), self)
      | _ => (false, self)
      end.

(** What reading [source] as text gives: all its lines; the lines delivered
    before an [OSError] (none when [open] itself fails); or the lines
    delivered before a [UnicodeDecodeError], when the bytes of the file are
    not text in the encoding [open] uses. *)
Inductive Source :=
| Readable (file : list string)
| Unreadable (read_before_error : list string)
| Undecodable (read_before_error : list string).

(** The exception that can leave [_parse_file]: it is a [ValueError], and
    [except OSError] does not catch it. *)
Inductive Exception := UnicodeDecodeError.

(** [for lineno, line in enumerate(file, start=1)], returning the last value
    of [lineno] ([next] is the number of the first line of [file]). *)
Fixpoint parse_lines (file : list string) (next : Z) (lineno : Z) : M Z :=
  match file with
  | [] => ret lineno
  | line :: file' =>
      (if Py.contains "#" line then _parse_line line next else ret tt) ;;;
      parse_lines file' (next + 1) next
  end.

(** [_parse_file]: the state it leaves [self] in, and the exception that
    leaves it, if any ([None] when it returns). *)
Definition _parse_file (source : Source) : M (option Exception) :=
  match source with
  | Undecodable read_before_error =>
      _ <- parse_lines read_before_error 1 (-1) ;;
      ret (Some UnicodeDecodeError)
  | Unreadable read_before_error =>
      _ <- parse_lines read_before_error 1 (-1) ;; ret None
  | Readable file =>
      lineno <- parse_lines file 1 (-1) ;;
      _end_block "all" lineno ;;;
      fd <- _is_file_disabled lineno ;;
      set_file_disabled fd ;;;
      (fun self => set_any_disabler (negb (length (rules self) =? 0)%nat) self)
      ;;;
      ret None
  end.

(** [DisablersFinder.__init__], as a change of [self]: the object when
    [__init__] is left, by a return or by an exception. *)
Definition DisablersFinder_init (source : Source) : DisablersFinder :=
  let (proto, h) := DisablersInFile_init empty_heap in
  exec (_parse_file source) (mkDisablersFinder false false proto [] h).

(** [DisablersFinder(source, linter)], the call: the new object, or the
    exception that left [__init__]. *)
Inductive Constructed :=
| Built (self : DisablersFinder)
| Raised (e : Exception).

Definition DisablersFinder_new (source : Source) : Constructed :=
  let (proto, h) := DisablersInFile_init empty_heap in
  match _parse_file source (mkDisablersFinder false false proto [] h) with
  | (None, self) => Built self
  | (Some e, _) => Raised e
  end.

(** [is_line_disabled]. *)
Definition is_line_disabled (line : Z) (rule : string) : M bool :=
  d <- rules_getitem rule ;;
  fun self =>
    if bool_decide (line ∈ set_at (lines d) (heap self)) then (true, self)
    else (existsb (fun block => (fst block <=? line) && (line <=? snd block))
            (list_at (blocks d) (heap self)), self).

(** One of the three guarded look-ups of [is_msg_disabled]. *)
Definition check_key (key : string) (line : Z) : M bool :=
  present <- rules_contains key ;;
  if present then is_line_disabled line key else ret false.

(** [is_msg_disabled]. *)
Definition is_msg_disabled (msg : Msg) : M bool :=
  fun self =>
    if negb (any_disabler self) then (false, self)
    else
      (disabled <- check_key "all" (line msg) ;;
       if disabled then ret true
       else
         disabled <- check_key (msg_id msg) (line msg) ;;
         if disabled then ret true
         else
           disabled <- check_key (name msg) (line msg) ;;
           if disabled then ret true else ret false) self.

(** A client that asks one query after the other. *)
Fixpoint queries (msgs : list Msg) : M (list bool) :=
  match msgs with
  | [] => ret []
  | msg :: msgs' =>
      disabled <- is_msg_disabled msg ;;
      answers <- queries msgs' ;;
      ret (disabled :: answers)
  end.

(** The instance behind the factory and the state [__init__] hands to
    [_parse_file], written out. *)
Definition proto : DisablersInFile := mkDisablersInFile (-1) 0%nat 0%nat.
Definition fresh : DisablersFinder :=
  mkDisablersFinder false false proto [] (mkHeap [∅] [[]]).

(** *** Files used in the statements *)

(** [disable=ruleA] alone on line 1, [enable=all] alone on line 10. *)
Definition cascade_file : list string :=
  ["# robocop: disable=ruleA";
   "*** Test Cases ***";
   "First";
   "    Log  1";
   "    Log  2";
   "Second";
   "    Log  3";
   "    Log  4";
   "    Log  5";
   "# robocop: enable=all";
   "Third";
   "    Log  6"].

(** A block [disable=ruleA] that no [enable] follows. *)
Definition dangling_file : list string :=
  ["*** Test Cases ***";
   "# robocop: disable=ruleA";
   "First";
   "    Log  1"].

(** A block [disable] for all rules on the first line, no [enable] after. *)
Definition disabled_file : list string :=
  ["# robocop: disable";
   "*** Test Cases ***";
   "First";
   "    Log  1"].

(** Two inline directives, for two rules, on two lines. *)
Definition two_inline_file : list string :=
  ["*** Test Cases ***";
   "    Log  1  # robocop: disable=ruleA";
   "    Log  2  # robocop: disable=ruleB"].

(** No directive at all: a comment that is not one, and a statement. *)
Definition plain_file : list string :=
  ["*** Test Cases ***  # the tests";
   "    Log  1"].

(** *** Predicates used in the statements *)

(** A computation that writes neither [file_disabled] nor [any_disabler]. *)
Definition keeps_flags {A} (m : M A) : Prop :=
  forall self,
    file_disabled (snd (m self)) = file_disabled self /\
    any_disabler (snd (m self)) = any_disabler self.

(** Pre- and postconditions of a computation. *)
Definition hoare {A} (P : DisablersFinder -> Prop) (m : M A)
  (Q : A -> DisablersFinder -> Prop) : Prop :=
  forall self, P self -> Q (fst (m self)) (snd (m self)).

(** An open-block marker is the sentinel or the number of a line. *)
Definition marker_ok (v : Z) : Prop := v = -1 \/ 1 <= v.

(** Every recorded block and every open block starts on a line of the
    file, whose lines are numbered from 1. *)
Definition starts_ok (self : DisablersFinder) : Prop :=
  (forall l, Forall (fun block => 1 <= fst block) (list_at l (heap self))) /\
  Forall (fun item => marker_ok (lastblock (snd item))) (rules self) /\
  lastblock (default_factory self) = -1.

(** *** More predicates and tests used in the statements *)

(** [rule in self.rules], as a test on a state. *)
Definition has_key (rule : string) (self : DisablersFinder) : bool :=
  match assoc rule (rules self) with
  | Some _ => true
  | None => false
  end.

(** The test [is_line_disabled] makes, on the containers of the instance
    behind the factory. *)
Definition covered (line : Z) (self : DisablersFinder) : bool :=
  bool_decide (line ∈ set_at (lines (default_factory self)) (heap self))
  || existsb (fun block => (fst block <=? line) && (line <=? snd block))
       (list_at (blocks (default_factory self)) (heap self)).

(** Every value of [rules] refers to the set and to the list of the
    instance behind the factory. *)
Definition shares_containers (self : DisablersFinder) : Prop :=
  Forall (fun item =>
            lines (snd item) = lines (default_factory self) /\
            blocks (snd item) = blocks (default_factory self))
    (rules self).

(** The state while the one key [key] has the marker [marker] and the
    blocks [bs] are recorded, before the flags are set. *)
Definition one_key (key : string) (marker : Z) (bs : list (Z * Z))
  : DisablersFinder :=
  mkDisablersFinder false false proto
    [(key, mkDisablersInFile marker 0%nat 0%nat)] (mkHeap [∅] [bs]).

(** A line that carries a [disable] directive, block or inline. *)
Definition is_disable_line (line : string) : bool :=
  match directive line with
  | Some (disable, _, _) => true
  | _ => false
  end.

(** Blocks and open-block markers within the first [n] lines: a block
    starts on a line, ends on a line that is not before its start, and
    neither is after line [n]. *)
Definition within (n : Z) (self : DisablersFinder) : Prop :=
  (forall l,
     Forall (fun block => 1 <= fst block /\ fst block <= snd block /\
                          snd block <= n)
       (list_at l (heap self))) /\
  Forall (fun item => lastblock (snd item) = -1 \/
                      (1 <= lastblock (snd item) /\ lastblock (snd item) <= n))
    (rules self) /\
  lastblock (default_factory self) = -1.

(** The open-block marker of a key is cleared (or the key is absent). *)
Definition closed (rule : string) (self : DisablersFinder) : Prop :=
  forall d, assoc rule (rules self) = Some d -> lastblock d = -1.

(** The disabler of a file with one block, for [key] (a rule or ["all"]),
    that opens on line [first] and is closed on line [last]. *)
Definition key_block (key : string) (first last : Z) : DisablersFinder :=
  mkDisablersFinder false true proto [(key, proto)]
    (mkHeap [∅] [[(first, last)]]).

End Disablers.

(* ===================================================================== *)
(** ** robocop/reports/reports.py *)
(* ===================================================================== *)

Module Reports.

Definition nl : string := String (ascii_of_nat 10) EmptyString.

(** The severity of a finding, an enumeration member read through [name]
    (here) and [value] (by the output line). *)
Record Severity := mkSeverity { name : string; value : string }.

#[global] Instance Severity_eq_dec : EqDecision Severity.
Proof. solve_decision. Defined.

(** What a report reads of a finding: [message.get_fullname()] and
    [message.severity]. *)
Record Message := mkMessage { get_fullname : string; severity : Severity }.

(** [defaultdict(int)]: [counter[key] += 1].  A new key goes last. *)
Fixpoint increment {K} `{EqDecision K} (key : K) (counter : list (K * nat))
  : list (K * nat) :=
  match counter with
  | [] => [(key, 1%nat)]
  | (k, n) :: counter' =>
      if decide (k = key) then (k, S n) :: counter'
      else (k, n) :: increment key counter'
  end.

(** *** RulesByIdReport *)
Module RulesByIdReport.

Record t := mk { message_counter : list (string * nat) }.

Definition name (self : t) : string := "rules_by_id".

Definition init : t := mk [].

Definition add_message (message : Message) (self : t) : t :=
  mk (increment (get_fullname message) (message_counter self)).

(** [sorted(items, key=itemgetter(1), reverse=True)]: descending counts,
    equal counts keep their order. *)
Fixpoint insert_desc (x : string * nat) (l : list (string * nat))
  : list (string * nat) :=
  match l with
  | [] => [x]
  | y :: l' =>
      if (snd y <=? snd x)%nat then x :: y :: l' else y :: insert_desc x l'
  end.

Definition sorted_desc (l : list (string * nat)) : list (string * nat) :=
  foldr insert_desc [] l.

(** [max(l, key=itemgetter(0))] on a non-empty list [best :: l]: the first
    item whose message is greatest in the order of strings. *)
Fixpoint max_by_message (best : string * nat) (l : list (string * nat))
  : string * nat :=
  match l with
  | [] => best
  | x :: l' =>
      max_by_message (if String.ltb (fst best) (fst x) then x else best) l'
  end.

(** One rendered line: the message padded to [width], [" : "], the count. *)
Definition render_line (width : nat) (item : string * nat) : string :=
  Py.ljust (fst item) width +:+ " : " +:+ Py.str_of_nat (snd item).

Definition get_report (self : t) : string :=
  let message_counter_ordered := sorted_desc (message_counter self) in
  let report := nl +:+ "Issues by ids:" +:+ nl in
  match message_counter_ordered with
  | [] => report +:+ "No issues found" +:+ nl
  | first :: others =>
      let longest_name :=
        String.length (fst (max_by_message first others)) in
      report +:+
      Py.join nl (map (render_line longest_name) message_counter_ordered)
  end.

End RulesByIdReport.

(** *** RulesBySeverityReport *)
Module RulesBySeverityReport.

Record t := mk { severity_counter : list (Severity * nat) }.

Definition name (self : t) : string := "rules_by_error_type".

Definition init : t := mk [].

Definition add_message (message : Message) (self : t) : t :=
  mk (increment (severity message) (severity_counter self)).

Definition get_report (self : t) : string :=
  let issues_count := foldr Nat.add O (map snd (severity_counter self)) in
  if (issues_count =? 0)%nat then "Found 0 issues"
  else
    nl +:+ "Found " +:+ Py.str_of_nat issues_count +:+ " issues: " +:+
    Py.join ", "
      (map (fun item =>
              Py.str_of_nat (snd item) +:+ " " +:+ Reports.name (fst item) +:+ "(s)")
         (severity_counter self)) +:+
    ".".

End RulesBySeverityReport.

(** Six findings of three rules, in the order they are accepted. *)
Definition six_findings : list Message :=
  let e := mkSeverity "ERROR" "E" in
  let w := mkSeverity "WARNING" "W" in
  let i := mkSeverity "INFO" "I" in
  [mkMessage "W0508 (line-too-long)" w;
   mkMessage "E0801 (duplicated-test-case)" e;
   mkMessage "I0201 (missing-doc)" i;
   mkMessage "E0801 (duplicated-test-case)" e;
   mkMessage "W0508 (line-too-long)" w;
   mkMessage "E0801 (duplicated-test-case)" e].

(** The report objects of this module, as the linter holds them. *)
Inductive Report :=
| ById (r : RulesByIdReport.t)
| BySeverity (r : RulesBySeverityReport.t).

Definition report_name (r : Report) : string :=
  match r with
  | ById r => RulesByIdReport.name r
  | BySeverity r => RulesBySeverityReport.name r
  end.

Definition class_name (r : Report) : string :=
  match r with
  | ById _ => "RulesByIdReport"
  | BySeverity _ => "RulesBySeverityReport"
  end.

Definition add_message (message : Message) (r : Report) : Report :=
  match r with
  | ById r => ById (RulesByIdReport.add_message message r)
  | BySeverity r => BySeverity (RulesBySeverityReport.add_message message r)
  end.

Definition get_report (r : Report) : string :=
  match r with
  | ById r => RulesByIdReport.get_report r
  | BySeverity r => RulesBySeverityReport.get_report r
  end.

(** *** Readings of the counters used in the statements *)

(** What a counter holds for a key, 0 when the key is not in it. *)
Fixpoint count_of {K} `{EqDecision K} (key : K) (counter : list (K * nat))
  : nat :=
  match counter with
  | [] => O
  | (k, n) :: counter' =>
      if decide (k = key) then n else count_of key counter'
  end.

(** [sum(counter.values())]. *)
Definition total {K} (counter : list (K * nat)) : nat :=
  foldr Nat.add O (map snd counter).

(** The two reports after a list of accepted findings, each passed to
    [add_message] in turn. *)
Definition by_id_after (messages : list Message) : RulesByIdReport.t :=
  foldl (fun r m => RulesByIdReport.add_message m r) RulesByIdReport.init
    messages.

Definition by_severity_after (messages : list Message)
  : RulesBySeverityReport.t :=
  foldl (fun r m => RulesBySeverityReport.add_message m r)
    RulesBySeverityReport.init messages.

End Reports.

(* ===================================================================== *)
(** ** robocop/run.py *)
(* ===================================================================== *)

Module Run.

(** [robocop.utils.FileType]. *)
Inductive FileType := GENERAL | RESOURCE | INIT.

#[global] Instance FileType_eq_dec : EqDecision FileType.
Proof. solve_decision. Defined.

(** A [pathlib.Path] with the attributes the linter reads. *)
Module Path.
Record t := mk { full : string; name : string; suffix : string }.
End Path.

#[global] Instance Path_eq_dec : EqDecision Path.t.
Proof. solve_decision. Defined.

(** [robocop.utils.RobotFile]: no type is assigned before classification. *)
Module RobotFile.
Record t := mk {
  source : Path.t;
  type : option FileType;
  scanned_with_type : option FileType
}.
Definition init (source : Path.t) : t := mk source None None.
End RobotFile.

(** A value handed to a checker's configuration hook. *)
Inductive Value := VInt (z : Z) | VStr (s : string).

(** A rule, with the attributes and methods [run.py] uses. *)
Module Rule.
Record t := mk {
  rule_id : string;
  severity : string;
  enabled : bool;
  configurable : list (string * string * (string -> Value))
}.

(** Modelled from the spec: the method [change_severity] of the rule class,
    which is not part of these sources.  It rewrites the rule's severity. *)
Definition change_severity (value : string) (self : t) : t :=
  mk (rule_id self) value (enabled self) (configurable self).

(** Modelled from the spec: the method [get_configurable] of the rule class,
    which is not part of these sources.  It returns the declared
    configurable parameter called [param] as (name, checker attribute,
    parsing function), or [None] when the rule declares none of that name. *)
Definition get_configurable (param : string) (self : t)
  : option (string * string * (string -> Value)) :=
  List.find (fun c => String.eqb (fst (fst c)) param) (configurable self).

Definition set_enabled (b : bool) (self : t) : t :=
  mk (rule_id self) (severity self) b (configurable self).
End Rule.

(** A finding ([rule_msg]) with the attributes [report] reads;
    [get_fullname] is what the method of that name returns. *)
Module RuleMsg.
Record t := mk {
  enabled : bool;
  source : Path.t;
  line : Z;
  col : Z;
  severity : Reports.Severity;
  rule_id : string;
  desc : string;
  name : string;
  get_fullname : string
}.
End RuleMsg.

(** What a parser returns for a file: the grammar is chosen by the file
    type, the parser itself is an external collaborator. *)
Definition Model : Type := option FileType * Path.t.

(** A checker object. [scan_file] stands for the checker's visitor: the
    findings it emits for a parsed model, given its attributes [source] and
    [parse_only_section_not_allowed]. *)
Module Checker.
Record t := mk {
  class_name : string;
  is_ParsingErrorChecker : bool;
  disabled : bool;
  rules_map : list (string * Rule.t);
  source : option Path.t;
  parse_only_section_not_allowed : bool;
  attributes : list (string * Value);
  scan_file : option Path.t -> bool -> Model -> list RuleMsg.t
}.

Definition set_disabled (b : bool) (self : t) : t :=
  mk (class_name self) (is_ParsingErrorChecker self) b (rules_map self)
     (source self) (parse_only_section_not_allowed self) (attributes self)
     (scan_file self).

Definition set_rules_map (m : list (string * Rule.t)) (self : t) : t :=
  mk (class_name self) (is_ParsingErrorChecker self) (disabled self) m
     (source self) (parse_only_section_not_allowed self) (attributes self)
     (scan_file self).

Definition set_source (p : Path.t) (self : t) : t :=
  mk (class_name self) (is_ParsingErrorChecker self) (disabled self)
     (rules_map self) (Some p) (parse_only_section_not_allowed self)
     (attributes self) (scan_file self).

Definition set_parse_only_section_not_allowed (b : bool) (self : t) : t :=
  mk (class_name self) (is_ParsingErrorChecker self) (disabled self)
     (rules_map self) (source self) b (attributes self) (scan_file self).

(** Modelled from the spec: the checker's configuration hook
    [configure(param, value)], which is not part of these sources.  It
    records the value under the attribute name. *)
Definition configure (param : string) (value : Value) (self : t) : t :=
  mk (class_name self) (is_ParsingErrorChecker self) (disabled self)
     (rules_map self) (source self) (parse_only_section_not_allowed self)
     ((param, value) :: attributes self) (scan_file self).
End Checker.

(** [robocop.config.Config], with the options these methods read;
    [is_rule_enabled] is its method of that name. *)
Module Config.
Record t := mk {
  paths : list string;
  reports : list string;
  configure : list string;
  is_rule_enabled : Rule.t -> bool
}.
End Config.

(** A reference to a checker object. *)
Definition ref := nat.

(** The exceptions these methods end with. *)
Inductive exn :=
| ConfigGeneralError (msg : string)
| DuplicatedRuleError (rule_type rule : string) (checker checker_prev : ref)
| AttributeError (obj attr : string)
| ValueError (msg : string)
| UnicodeDecodeError
| SystemExit.

Inductive result (A : Type) :=
| Ok (a : A)
| Raise (e : exn).
Arguments Ok {A} a.
Arguments Raise {A} e.

(** A line written to the output: a finding rendered by the configured
    format, or a report. *)
Inductive OutLine :=
| Logged (rule_msg : RuleMsg.t)
| Text (s : string).

(** The linter.  [objs] holds the checker objects; [checkers] and the
    values of [rules] refer to them. *)
Record Robocop := mkRobocop {
  checkers : list ref;
  objs : list Checker.t;
  rules : gmap string (Rule.t * ref);
  reports : list Reports.Report;
  disabler : option Disablers.DisablersFinder;
  config : Config.t;
  out : list OutLine
}.

Definition init (config : Config.t) : Robocop :=
  mkRobocop [] [] ∅ [] None config [].

Definition with_checkers (v : list ref) (self : Robocop) : Robocop :=
  mkRobocop v (objs self) (rules self) (reports self) (disabler self)
    (config self) (out self).
Definition with_objs (v : list Checker.t) (self : Robocop) : Robocop :=
  mkRobocop (checkers self) v (rules self) (reports self) (disabler self)
    (config self) (out self).
Definition with_rules (v : gmap string (Rule.t * ref)) (self : Robocop)
  : Robocop :=
  mkRobocop (checkers self) (objs self) v (reports self) (disabler self)
    (config self) (out self).
Definition with_reports (v : list Reports.Report) (self : Robocop) : Robocop :=
  mkRobocop (checkers self) (objs self) (rules self) v (disabler self)
    (config self) (out self).
Definition with_disabler (v : option Disablers.DisablersFinder)
  (self : Robocop) : Robocop :=
  mkRobocop (checkers self) (objs self) (rules self) (reports self) v
    (config self) (out self).
Definition with_out (v : list OutLine) (self : Robocop) : Robocop :=
  mkRobocop (checkers self) (objs self) (rules self) (reports self)
    (disabler self) (config self) v.

(** The monad of the methods of [Robocop]: state and exceptions. *)
Definition R (A : Type) : Type := Robocop -> result (A * Robocop).
Definition ret {A} (a : A) : R A := fun self => Ok (a, self).
Definition raise {A} (e : exn) : R A := fun _ => Raise e.
Definition bind {A B} (m : R A) (k : A -> R B) : R B :=
  fun self =>
    match m self with
    | Ok (a, self') => k a self'
    | Raise e => Raise e
    end.
Definition get : R Robocop := fun self => Ok (self, self).
Definition modify (f : Robocop -> Robocop) : R unit :=
  fun self => Ok (tt, f self).

Notation "x <~ m ;; k" := (bind m (fun x => k))
  (at level 100, m at next level, right associativity).
Notation "m ;;> k" := (bind m (fun _ => k))
  (at level 100, k at level 200, right associativity).

Fixpoint for_each {A} (xs : list A) (body : A -> R unit) : R unit :=
  match xs with
  | [] => ret tt
  | x :: xs' => body x ;;> for_each xs' body
  end.

(** The state a run ends in, when it ends without an exception. *)
Definition final {A} (r : result (A * Robocop)) : option Robocop :=
  match r with
  | Ok (_, self) => Some self
  | Raise _ => None
  end.

(** *** Registry *)

(** [any_rule_enabled], on the checker object: every rule gets its
    [enabled] flag from the configuration. *)
Definition any_rule_enabled (config : Config.t) (checker : Checker.t)
  : bool * Checker.t :=
  let rules_map :=
    map (fun item : string * Rule.t =>
           (fst item,
            Rule.set_enabled (Config.is_rule_enabled config (snd item))
              (snd item)))
      (Checker.rules_map checker) in
  (existsb (fun item => Rule.enabled (snd item)) rules_map,
   Checker.set_rules_map rules_map checker).

(** One turn of the loop of [register_checker]. *)
Definition register_rule (checker : ref) (item : string * Rule.t) : R unit :=
  let rule_name := fst item in
  let rule := snd item in
  self <~ get ;;
  match rules self !! rule_name with
  | Some (_, checker_prev) =>
      raise (DuplicatedRuleError "name" rule_name checker checker_prev)
  | None =>
      match rules self !! Rule.rule_id rule with
      | Some (_, checker_prev) =>
          raise (DuplicatedRuleError "id" (Rule.rule_id rule) checker
                   checker_prev)
      | None =>
          modify (with_rules
                    (<[Rule.rule_id rule := (rule, checker)]>
                       (<[rule_name := (rule, checker)]> (rules self))))
      end
  end.

(** [register_checker].  The checker object is placed in the store under
    a fresh reference; that reference is what the registry and the list of
    checkers hold. *)
Definition register_checker (checker : Checker.t) : R unit :=
  self <~ get ;;
  let this : ref := length (objs self) in
  let (any, checker) := any_rule_enabled (config self) checker in
  let checker :=
    if negb any then Checker.set_disabled true checker else checker in
  modify (with_objs (objs self ++ [checker])%list) ;;>
  for_each (Checker.rules_map checker) (register_rule this) ;;>
  modify (fun self => with_checkers (checkers self ++ [this])%list self).

(** The checker object as [register_checker] leaves it in the store: its
    rules carry their [enabled] flags, and it is [disabled] when none of
    them is enabled. *)
Definition registered (config : Config.t) (checker : Checker.t) : Checker.t :=
  let (any, checker) := any_rule_enabled config checker in
  if negb any then Checker.set_disabled true checker else checker.

(** [register_report]. *)
Definition register_report (report : Reports.Report) : R unit :=
  self <~ get ;;
  if existsb (String.eqb (Reports.report_name report))
       (Config.reports (config self))
  then modify (with_reports (reports self ++ [report])%list)
  else ret tt.

(** [load_reports]: [reports.register(self)]. *)
Definition load_reports : R unit :=
  register_report (Reports.ById Reports.RulesByIdReport.init) ;;>
  register_report (Reports.BySeverity Reports.RulesBySeverityReport.init).

(** *** Configuration directives *)

(** [report.configure(param, value, *values)]: neither report class defines
    [configure], the attribute lookup fails. *)
Definition report_configure (report : Reports.Report) (param value : string)
  (values : list string) : R unit :=
  raise (AttributeError (Reports.class_name report) "configure").

(** The body of the loop of [configure_checkers_or_reports], for one
    directive. *)
Definition configure_directive (config : string) : R unit :=
  if (Py.count ":" config <? 2)%nat then
    raise (ConfigGeneralError
             ("Provided invalid config: '" +:+ config +:+
              "' (general pattern: <rule>:<param>:<value>)"))
  else
    match Py.split ":" config with
    | rule_or_report :: param :: value :: values =>
        self <~ get ;;
        match rules self !! rule_or_report with
        | Some (msg, checker) =>
            if String.eqb param "severity" then
              modify (with_rules
                        (<[rule_or_report :=
                             (Rule.change_severity value msg, checker)]>
                           (rules self)))
            else
              match Rule.get_configurable param msg with
              | None =>
                  raise (ConfigGeneralError
                           ("Provided param '" +:+ param +:+ "' for rule '"
                            +:+ rule_or_report +:+ "' does not exists"))
              | Some configurable =>
                  modify (with_objs
                            (alter (Checker.configure (snd (fst configurable))
                                      (snd configurable value))
                               checker (objs self)))
              end
        | None =>
            if existsb
                 (fun report =>
                    String.eqb rule_or_report (Reports.report_name report))
                 (reports self)
            then
              for_each (reports self)
                (fun report =>
                   if String.eqb (Reports.report_name report) rule_or_report
                   then report_configure report param value values
                   else ret tt)
            else
              raise (ConfigGeneralError
                       ("Provided rule or report '" +:+ rule_or_report +:+
                        "' does not exists"))
        end
    | _ => raise (ValueError "not enough values to unpack")
    end.

(** [configure_checkers_or_reports]. *)
Definition configure_checkers_or_reports : R unit :=
  self <~ get ;;
  for_each (Config.configure (config self)) configure_directive.

(** *** Reporting a finding *)

(** The finding as [DisablersFinder] reads it; its [msg_id] is the
    [rule_id] of the finding. *)
Definition as_msg (rule_msg : RuleMsg.t) : Disablers.Msg :=
  Disablers.mkMsg (RuleMsg.rule_id rule_msg) (RuleMsg.name rule_msg)
    (RuleMsg.line rule_msg).

(** [self.disabler.<attr>(rule_msg)] for the name of a suppression query.
    [DisablersFinder] defines that query as [is_msg_disabled]; any other
    name is not an attribute of the object. *)
Definition disabler_call (attr : string) (rule_msg : RuleMsg.t) : R bool :=
  self <~ get ;;
  match disabler self with
  | None => raise (AttributeError "NoneType" attr)
  | Some d =>
      if String.eqb attr "is_msg_disabled" then
        let (disabled, d') := Disablers.is_msg_disabled (as_msg rule_msg) d in
        modify (with_disabler (Some d')) ;;> ret disabled
      else raise (AttributeError "DisablersFinder" attr)
  end.

(** [log_message]. *)
Definition log_message (rule_msg : RuleMsg.t) : R unit :=
  modify (fun self => with_out (out self ++ [Logged rule_msg])%list self).

(** The body of [report], with the name of the query it calls on the
    disabler left open. *)
Definition report_via (query : string) (rule_msg : RuleMsg.t) : R unit :=
  if negb (RuleMsg.enabled rule_msg) then ret tt
  else
    disabled <~ disabler_call query rule_msg ;;
    if disabled then ret tt
    else
      modify (fun self =>
                with_reports
                  (map (Reports.add_message
                          (Reports.mkMessage (RuleMsg.get_fullname rule_msg)
                             (RuleMsg.severity rule_msg)))
                     (reports self)) self) ;;>
      log_message rule_msg.

(** [report]: the query is called under the name [is_rule_disabled]. *)
Definition report : RuleMsg.t -> R unit := report_via "is_rule_disabled".

(** *** The scan loop *)

(** The collaborators of a run: what reading a file gives, the files its
    import statements name, and the paths [get_files] yields. *)
Record World := mkWorld {
  read : Path.t -> Disablers.Source;
  imports : Path.t -> list Path.t;
  get_files : list Path.t
}.

(** [register_disablers]: the new object is assigned when the constructor
    returns; the exception that leaves the constructor leaves this method
    too. *)
Definition register_disablers (w : World) (file : Path.t) : R unit :=
  match Disablers.DisablersFinder_new (read w file) with
  | Disablers.Built d => modify (with_disabler (Some d))
  | Disablers.Raised Disablers.UnicodeDecodeError => raise UnicodeDecodeError
  end.

(** The dictionary [files], keyed by source. *)
Definition set_type (source : Path.t) (type : FileType)
  (files : list RobotFile.t) : list RobotFile.t :=
  map (fun f =>
         if decide (RobotFile.source f = source)
         then RobotFile.mk source (Some type) (RobotFile.scanned_with_type f)
         else f) files.

Definition set_scanned (source : Path.t) (files : list RobotFile.t)
  : list RobotFile.t :=
  map (fun f =>
         if decide (RobotFile.source f = source)
         then RobotFile.mk source (RobotFile.type f) (RobotFile.type f)
         else f) files.

Definition file_of (source : Path.t) (files : list RobotFile.t)
  : option RobotFile.t :=
  List.find (fun f => bool_decide (RobotFile.source f = source)) files.

Definition type_of (source : Path.t) (files : list RobotFile.t)
  : option FileType :=
  match file_of source files with
  | Some f => RobotFile.type f
  | None => None
  end.

Definition scanned_with_type_of (source : Path.t) (files : list RobotFile.t)
  : option FileType :=
  match file_of source files with
  | Some f => RobotFile.scanned_with_type f
  | None => None
  end.

(** Modelled from the spec: the visit of [FileTypeChecker], which is not
    part of these sources.  Every file referenced by an import of the
    visited file has its type set to the resource type. *)
Definition FileTypeChecker_visit (w : World) (source : Path.t)
  (files : list RobotFile.t) : list RobotFile.t :=
  foldl (fun files imported => set_type imported RESOURCE files) files
    (imports w source).

(** [recognize_file_type]. *)
Definition recognize_file_type (w : World) (source : Path.t)
  (files : list RobotFile.t) : list RobotFile.t :=
  let type :=
    if Py.is_infix "__init__" (Path.name source) then INIT
    else if String.eqb (Py.lower (Path.suffix source)) ".resource"
         then RESOURCE
         else GENERAL in
  FileTypeChecker_visit w source (set_type source type files).

(** Modelled from the spec: the scan operation of a checker, which is not
    part of these sources.  Each finding it emits for the model is passed
    to the report filter of the linter, [report]. *)
Definition scan (report : RuleMsg.t -> R unit) (checker : ref)
  (model : Model) : R unit :=
  self <~ get ;;
  match objs self !! checker with
  | Some c =>
      for_each
        (Checker.scan_file c (Checker.source c)
           (Checker.parse_only_section_not_allowed c) model)
        report
  | None => ret tt
  end.

(** The inner loop of [run_checks], for one checker. *)
Definition run_checker (report : RuleMsg.t -> R unit) (file : Path.t)
  (model : Model) (checker : ref) : R unit :=
  self <~ get ;;
  match objs self !! checker with
  | Some c =>
      if Checker.disabled c then ret tt
      else
        modify (with_objs (alter (Checker.set_source file) checker (objs self)))
        ;;> scan report checker model
  | None => ret tt
  end.

(** The outer loop of [run_checks]; it returns [files] and the keys of
    [parsed_files], whose values are the objects of [files]. *)
Fixpoint run_checks_loop (w : World) (report : RuleMsg.t -> R unit)
  (todo : list Path.t) (files : list RobotFile.t) (parsed_files : list Path.t)
  : R (list RobotFile.t * list Path.t) :=
  match todo with
  | [] => ret (files, parsed_files)
  | file :: todo' =>
      register_disablers w file ;;>
      self <~ get ;;
      if match disabler self with
         | Some d => Disablers.file_disabled d
         | None => false
         end
      then run_checks_loop w report todo' files parsed_files
      else
        let files := recognize_file_type w file files in
        let files := set_scanned file files in
        let parsed_files := (parsed_files ++ [file])%list in
        let model := (type_of file files, file) in
        for_each (checkers self) (run_checker report file model) ;;>
        run_checks_loop w report todo' files parsed_files
  end.

(** The inner loop of [run_checks_on_files_with_type_changed]. *)
Definition rescan_file (report : RuleMsg.t -> R unit) (checker : ref)
  (files : list RobotFile.t) (file : Path.t) : R unit :=
  if decide (scanned_with_type_of file files = type_of file files) then ret tt
  else
    let model := (type_of file files, file) in
    modify (fun self =>
              with_objs
                (alter (fun c =>
                          Checker.set_source file
                            (Checker.set_parse_only_section_not_allowed true c))
                   checker (objs self)) self) ;;>
    scan report checker model.

(** [run_checks_on_files_with_type_changed]: the first parsing-error
    checker re-scans, then the loop over the checkers is left. *)
Fixpoint rescan_loop (report : RuleMsg.t -> R unit) (todo : list ref)
  (files : list RobotFile.t) (parsed_files : list Path.t) : R unit :=
  match todo with
  | [] => ret tt
  | checker :: todo' =>
      self <~ get ;;
      if match objs self !! checker with
         | Some c => Checker.is_ParsingErrorChecker c
         | None => false
         end
      then for_each parsed_files (rescan_file report checker files)
      else rescan_loop report todo' files parsed_files
  end.

Definition run_checks_on_files_with_type_changed
  (report : RuleMsg.t -> R unit) (files : list RobotFile.t)
  (parsed_files : list Path.t) : R unit :=
  self <~ get ;;
  rescan_loop report (checkers self) files parsed_files.

(** The keys of [{file: RobotFile(file) for file in ...}], in the order of
    the dictionary: a path yielded more than once keeps the place of its
    first occurrence ([seen] holds the keys inserted so far). *)
Fixpoint dict_keys (seen : list Path.t) (files : list Path.t) : list Path.t :=
  match files with
  | [] => []
  | file :: files' =>
      if bool_decide (file ∈ seen) then dict_keys seen files'
      else file :: dict_keys (file :: seen) files'
  end.

(** [run_checks], for the report filter the checkers call back. *)
Definition run_checks_with (report : RuleMsg.t -> R unit) (w : World)
  : R unit :=
  self <~ get ;;
  match Config.paths (config self) with
  | [] => raise SystemExit
  | _ =>
      let sources := dict_keys [] (get_files w) in
      let files := map RobotFile.init sources in
      r <~ run_checks_loop w report sources files [] ;;
      run_checks_on_files_with_type_changed report (fst r) (snd r)
  end.

(** [run_checks]. *)
Definition run_checks : World -> R unit := run_checks_with report.

(** *** A project used in the statements *)

(** [a.robot] opens with a block [disable] for all rules; [b.robot] holds
    no directive and imports [a.robot]. *)
Definition a_robot : Path.t := Path.mk "/project/a.robot" "a.robot" ".robot".
Definition b_robot : Path.t := Path.mk "/project/b.robot" "b.robot" ".robot".

Definition project : World :=
  mkWorld
    (fun p =>
       if decide (p = a_robot) then
         Disablers.Readable
           ["# robocop: disable"; "*** Keywords ***"; "Open  Log  1"]
       else
         Disablers.Readable ["*** Settings ***"; "Resource  a.robot"])
    (fun p => if decide (p = b_robot) then [a_robot] else [])
    [a_robot; b_robot].


(** The finding the parsing-error checker emits for [a.robot] once it is
    parsed as a resource file. *)
Definition parsing_error : RuleMsg.t :=
  RuleMsg.mk true a_robot 2 0 (Reports.mkSeverity "ERROR" "E") "0401"
    "Section is not allowed in resource file" "parsing-error"
    "E0401 (parsing-error)".

Definition ParsingErrorChecker : Checker.t :=
  Checker.mk "ParsingErrorChecker" true false
    [("parsing-error", Rule.mk "0401" "E" true [])] None false []
    (fun source parse_only_section_not_allowed model =>
       match model with
       | (Some RESOURCE, p) =>
           if decide (p = a_robot) then [parsing_error] else []
       | _ => []
       end).

(** Two checkers that both declare a rule named [line-too-long]. *)
Definition LengthChecker : Checker.t :=
  Checker.mk "LengthChecker" false false
    [("line-too-long",
      Rule.mk "0508" "W" true
        [("line_length", "max_line_length",
          fun value => VStr value)])]
    None false [] (fun _ _ _ => []).

Definition OtherLengthChecker : Checker.t :=
  Checker.mk "OtherLengthChecker" false false
    [("too-many-arguments", Rule.mk "0507" "W" true []);
     ("line-too-long", Rule.mk "0599" "W" true [])]
    None false [] (fun _ _ _ => []).

Definition all_enabled (reports configure : list string) : Config.t :=
  Config.mk ["/project"] reports configure (fun _ => true).

(** *** Discovery *)

Module Discovery.

(** What the file system shows at a path: nothing ([exists()] is false; a
    directory can still list such a path, as a dangling link), a regular
    file, a directory with the entries [iterdir()] yields, or something
    else that exists. *)
#[warnings="-register-all"] Inductive Node :=
| Missing (path : Path.t)
| File (path : Path.t)
| Dir (path : Path.t) (entries : list Node)
| Other (path : Path.t).

Definition is_dir (node : Node) : bool :=
  match node with
  | Dir _ _ => true
  | _ => false
  end.

(** What consuming a generator of paths ends with: the paths it yielded,
    or the [FileError] it raised. *)
Inductive Yielded :=
| Found (paths : list Path.t)
| FileError (path : Path.t).

(** Two generators consumed one after the other. *)
Definition yield_then (first rest : Yielded) : Yielded :=
  match first with
  | FileError path => FileError path
  | Found paths =>
      match rest with
      | FileError path => FileError path
      | Found paths' => Found (paths ++ paths')%list
      end
  end.

Section Walk.

(** [self.config.filetypes], [path.absolute()] and the argument
    [recursive]. *)
Variable filetypes : list string.
Variable absolute : Path.t -> Path.t.
Variable recursive : bool.

(** [should_parse]. *)
Definition should_parse (file : Path.t) : bool :=
  match Path.suffix file with
  | EmptyString => false
  | suffix => existsb (String.eqb (Py.lower suffix)) filetypes
  end.

(** [get_absolute_path]. *)
Fixpoint get_absolute_path (path : Node) : Yielded :=
  match path with
  | Missing path => FileError path
  | File path => if should_parse path then Found [absolute path] else Found []
  | Dir _ entries =>
      (fix iterdir (entries : list Node) : Yielded :=
         match entries with
         | [] => Found []
         | file :: entries' =>
             if is_dir file && negb recursive then iterdir entries'
             else yield_then (get_absolute_path file) (iterdir entries')
         end) entries
  | Other _ => Found []
  end.

(** [get_files]. *)
Fixpoint get_files (files_or_dirs : list Node) : Yielded :=
  match files_or_dirs with
  | [] => Found []
  | file :: files_or_dirs' =>
      yield_then (get_absolute_path file) (get_files files_or_dirs')
  end.

End Walk.

(** The regular files of a tree and the paths in it that do not exist, in
    the order of the listing. *)
Fixpoint files_of (node : Node) : list Path.t :=
  match node with
  | File path => [path]
  | Dir _ entries => flat_map files_of entries
  | _ => []
  end.

Fixpoint missing_of (node : Node) : list Path.t :=
  match node with
  | Missing path => [path]
  | Dir _ entries => flat_map missing_of entries
  | _ => []
  end.

(** The same for what stands directly at a path. *)
Definition file_at (node : Node) : list Path.t :=
  match node with
  | File path => [path]
  | _ => []
  end.

Definition missing_at (node : Node) : list Path.t :=
  match node with
  | Missing path => [path]
  | _ => []
  end.

(** What a recursive walk ends with, stated of its result. *)
Definition walked (filetypes : list string) (absolute : Path.t -> Path.t)
  (files missing : list Path.t) (y : Yielded) : Prop :=
  match y with
  | Found paths =>
      missing = [] /\
      paths = map absolute (List.filter (should_parse filetypes) files)
  | FileError path => head missing = Some path
  end.

(** A small project: two suites, a text file, a package with one more
    suite. *)
Definition path_of (full name suffix : string) : Path.t :=
  Path.mk full name suffix.

Definition tree : Node :=
  Dir (path_of "proj" "proj" EmptyString)
    [File (path_of "proj/a.robot" "a.robot" ".robot");
     File (path_of "proj/notes.txt" "notes.txt" ".txt");
     Dir (path_of "proj/pkg" "pkg" EmptyString)
       [File (path_of "proj/pkg/c.ROBOT" "c.ROBOT" ".ROBOT")];
     File (path_of "proj/b.resource" "b.resource" ".resource")].

End Discovery.

(** *** The registry and the checkers agree *)

(** Every rule of every checker object is registered under its name and
    under its id, for that checker; and every key of the registry is the
    name or the id of a rule of the checker it is registered for. *)
Definition registry_ok (self : Robocop) : Prop :=
  (forall c checker name rule,
     objs self !! c = Some checker ->
     In (name, rule) (Checker.rules_map checker) ->
     rules self !! name = Some (rule, c) /\
     rules self !! Rule.rule_id rule = Some (rule, c)) /\
  (forall key rule c,
     rules self !! key = Some (rule, c) ->
     exists checker name,
       objs self !! c = Some checker /\
       In (name, rule) (Checker.rules_map checker) /\
       (key = name \/ key = Rule.rule_id rule)).

(** Whether the object behind a reference is a parsing-error checker. *)
Definition is_parsing_error_checker (self : Robocop) (checker : ref) : bool :=
  match objs self !! checker with
  | Some c => Checker.is_ParsingErrorChecker c
  | None => false
  end.

(** *** What configuration leaves alone *)

(** Two states of the linter with the same registry keys, each for the
    same checker, the same list of checkers, as many checker objects and
    the same configuration. *)
Definition same_registry (self self' : Robocop) : Prop :=
  (forall key,
     option_map snd (rules self' !! key) = option_map snd (rules self !! key)) /\
  checkers self' = checkers self /\
  length (objs self') = length (objs self) /\
  config self' = config self.

(** The linter with one checker loaded and a directive for its rule. *)
Definition configured_linter : Robocop :=
  match register_checker LengthChecker
          (init (all_enabled [] ["line-too-long:line_length:140";
                                 "0508:severity:E"]))
  with
  | Ok (_, self) => self
  | Raise _ => init (all_enabled [] [])
  end.

End Run.

(* ===================================================================== *)
(** ** Properties of the disabler *)
(* ===================================================================== *)

Module DisablersFacts.
Import Disablers.

Lemma eqb_refl_true (s : string) : String.eqb s s = true.
Proof. apply String.eqb_refl. Qed.

Lemma eqb_false_of_ne (a b : string) : a <> b -> String.eqb a b = false.
Proof. intros H. apply String.eqb_neq. exact H. Qed.

(** A line without [#] is cut into a single field. *)
Lemma split1_without (c : ascii) (s : string) :
  Py.contains c s = false -> Py.split1 c s = [s].
Proof.
  induction s as [|a s IH]; simpl; [reflexivity|].
  destruct (Ascii.eqb a c); [discriminate|].
  intros H. rewrite (IH H). reflexivity.
Qed.

Lemma directive_without_hash (line : string) :
  Py.contains "#" line = false -> directive line = None.
Proof.
  intros H. unfold directive. rewrite (split1_without _ _ H). reflexivity.
Qed.

(** A line that carries no directive leaves the state as it is. *)
Lemma parse_line_no_directive (line : string) (n : Z) (self : DisablersFinder) :
  directive line = None ->
  (if Py.contains "#" line then _parse_line line n else ret tt) self = (tt, self).
Proof.
  intros H. destruct (Py.contains "#" line); [|reflexivity].
  unfold _parse_line. rewrite H. reflexivity.
Qed.

Lemma parse_lines_cons (line : string) (file : list string) (next lineno : Z)
  (self : DisablersFinder) :
  parse_lines (line :: file) next lineno self =
  parse_lines file (next + 1) next
    (exec (if Py.contains "#" line then _parse_line line next else ret tt) self).
Proof.
  simpl. unfold bind, exec.
  destruct ((if Py.contains "#" line then _parse_line line next else ret tt) self).
  reflexivity.
Qed.

(** Lines without directives are skipped: only the line counter moves. *)
Lemma parse_lines_skip (before rest : list string) (next lineno : Z)
  (self : DisablersFinder) :
  Forall (fun x => directive x = None) before ->
  exists lineno',
    parse_lines (before ++ rest)%list next lineno self =
    parse_lines rest (next + Z.of_nat (length before)) lineno' self.
Proof.
  intros H. revert next lineno.
  induction H as [|x before Hx Hb IH]; intros next lineno.
  - exists lineno. simpl. rewrite Nat2Z.inj_0, Z.add_0_r. reflexivity.
  - destruct (IH (next + 1) next) as [l' Hl'].
    exists l'. change ((x :: before) ++ rest)%list with (x :: (before ++ rest))%list.
    rewrite parse_lines_cons. unfold exec.
    rewrite (parse_line_no_directive x next self Hx). simpl snd.
    rewrite Hl'. f_equal. rewrite length_cons, Nat2Z.inj_succ. lia.
Qed.

Lemma parse_lines_all_skipped (file : list string) (next lineno : Z)
  (self : DisablersFinder) :
  Forall (fun x => directive x = None) file ->
  exists lineno', parse_lines file next lineno self = (lineno', self).
Proof.
  intros H. destruct (parse_lines_skip file [] next lineno self H) as [l' Hl'].
  exists l'. rewrite app_nil_r in Hl'. exact Hl'.
Qed.

(** *** Queries do not write *)

Lemma rules_getitem_present (rule : string) (self : DisablersFinder)
  (d : DisablersInFile) :
  assoc rule (rules self) = Some d -> rules_getitem rule self = (d, self).
Proof. intros H. unfold rules_getitem. rewrite H. reflexivity. Qed.

Lemma check_key_state (key : string) (n : Z) (self : DisablersFinder) :
  snd (check_key key n self) = self.
Proof.
  unfold check_key, bind, rules_contains.
  destruct (assoc key (rules self)) as [d|] eqn:E; [|reflexivity].
  unfold is_line_disabled, bind. rewrite (rules_getitem_present _ _ _ E).
  destruct (bool_decide _); reflexivity.
Qed.

Lemma is_msg_disabled_state (msg : Msg) (self : DisablersFinder) :
  snd (is_msg_disabled msg self) = self.
Proof.
  unfold is_msg_disabled.
  destruct (negb (any_disabler self)); [reflexivity|].
  unfold bind.
  pose proof (check_key_state "all" (line msg) self) as H1.
  destruct (check_key "all" (line msg) self) as [b1 s1]. simpl in H1. subst s1.
  destruct b1; [reflexivity|].
  pose proof (check_key_state (msg_id msg) (line msg) self) as H2.
  destruct (check_key (msg_id msg) (line msg) self) as [b2 s2].
  simpl in H2. subst s2.
  destruct b2; [reflexivity|].
  pose proof (check_key_state (name msg) (line msg) self) as H3.
  destruct (check_key (name msg) (line msg) self) as [b3 s3].
  simpl in H3. subst s3.
  destruct b3; reflexivity.
Qed.

(** C10.  Suppression queries never write the disabler state: after any
    sequence of [is_msg_disabled] queries, over arbitrary findings, the
    state (the rule keys, every rule's open-block marker, the disabled
    lines and the block lists in the store, and the two flags) is the
    state from before. *)
Theorem queries_leave_state_unchanged (msgs : list Msg)
  (self : DisablersFinder) :
  exec (queries msgs) self = self.
Proof.
  unfold exec. induction msgs as [|msg msgs IH]; [reflexivity|].
  simpl. unfold bind.
  pose proof (is_msg_disabled_state msg self) as H.
  destruct (is_msg_disabled msg self) as [b s]. simpl in H. subst s.
  destruct (queries msgs self) as [bs s]. simpl in IH. subst s.
  reflexivity.
Qed.

(** *** The two flags are written by [_parse_file] only *)

Lemma keeps_flags_ret {A} (a : A) : keeps_flags (ret a).
Proof. intros self. split; reflexivity. Qed.

Lemma keeps_flags_bind {A B} (m : M A) (k : A -> M B) :
  keeps_flags m -> (forall a, keeps_flags (k a)) -> keeps_flags (bind m k).
Proof.
  intros Hm Hk self. unfold bind.
  specialize (Hm self). destruct (m self) as [a s]. simpl in Hm.
  destruct (Hk a s) as [H1 H2]. destruct Hm as [H3 H4].
  split; congruence.
Qed.

Lemma keeps_flags_for_each {A} (xs : list A) (body : A -> M unit) :
  (forall x, keeps_flags (body x)) -> keeps_flags (for_each xs body).
Proof.
  intros H. induction xs as [|x xs IH]; simpl.
  - apply keeps_flags_ret.
  - apply keeps_flags_bind; [apply H | intros _; exact IH].
Qed.

Lemma keeps_flags_rules_contains (rule : string) :
  keeps_flags (rules_contains rule).
Proof. intros self. split; reflexivity. Qed.

Lemma keeps_flags_rules_getitem (rule : string) :
  keeps_flags (rules_getitem rule).
Proof.
  intros self. unfold rules_getitem.
  destruct (assoc rule (rules self)); split; reflexivity.
Qed.

Lemma keeps_flags_set_lastblock (rule : string) (v : Z) :
  keeps_flags (set_lastblock rule v).
Proof.
  apply keeps_flags_bind; [apply keeps_flags_rules_getitem|].
  intros d self. split; reflexivity.
Qed.

Lemma keeps_flags_lines_add (rule : string) (n : Z) :
  keeps_flags (lines_add rule n).
Proof.
  apply keeps_flags_bind; [apply keeps_flags_rules_getitem|].
  intros d self. split; reflexivity.
Qed.

Lemma keeps_flags_blocks_append (rule : string) (b : Z * Z) :
  keeps_flags (blocks_append rule b).
Proof.
  apply keeps_flags_bind; [apply keeps_flags_rules_getitem|].
  intros d self. split; reflexivity.
Qed.

Lemma keeps_flags_start_block (rule : string) (n : Z) :
  keeps_flags (_start_block rule n).
Proof.
  apply keeps_flags_bind; [apply keeps_flags_rules_getitem|].
  intros d. destruct (lastblock d =? -1).
  - apply keeps_flags_set_lastblock.
  - apply keeps_flags_ret.
Qed.

Lemma keeps_flags_end_block_body (end_all : Z -> M unit) (rule : string)
  (n : Z) :
  (forall k, keeps_flags (end_all k)) ->
  keeps_flags (_end_block_body end_all rule n).
Proof.
  intros H. unfold _end_block_body.
  apply keeps_flags_bind; [apply keeps_flags_rules_contains|].
  intros present. destruct (negb present); [apply keeps_flags_ret|].
  apply keeps_flags_bind; [apply keeps_flags_rules_getitem|].
  intros d. apply keeps_flags_bind.
  - destruct (negb (lastblock d =? -1)); [|apply keeps_flags_ret].
    apply keeps_flags_bind; [apply keeps_flags_rules_getitem|].
    intros d'. apply keeps_flags_bind; [apply keeps_flags_set_lastblock|].
    intros _. apply keeps_flags_blocks_append.
  - intros _. destruct (String.eqb rule "all"); [apply H|apply keeps_flags_ret].
Qed.

Lemma keeps_flags_end_all_blocks (n : Z) : keeps_flags (_end_all_blocks n).
Proof.
  intros self. unfold _end_all_blocks.
  apply keeps_flags_for_each. intros rule.
  destruct (String.eqb rule "all"); [apply keeps_flags_ret|].
  apply keeps_flags_end_block_body. intros k. apply keeps_flags_ret.
Qed.

Lemma keeps_flags_end_block (rule : string) (n : Z) :
  keeps_flags (_end_block rule n).
Proof.
  apply keeps_flags_end_block_body. apply keeps_flags_end_all_blocks.
Qed.

Lemma keeps_flags_parse_line (line : string) (n : Z) :
  keeps_flags (_parse_line line n).
Proof.
  unfold _parse_line.
  destruct (directive line) as [[[[|] rs] block]|]; [| |apply keeps_flags_ret].
  - apply keeps_flags_for_each. intros rule. destruct block.
    + apply keeps_flags_start_block.
    + apply keeps_flags_lines_add.
  - destruct block; [|apply keeps_flags_ret].
    apply keeps_flags_for_each. intros rule. apply keeps_flags_end_block.
Qed.

Lemma keeps_flags_parse_lines (file : list string) (next lineno : Z) :
  keeps_flags (parse_lines file next lineno).
Proof.
  revert next lineno. induction file as [|x file IH]; intros next lineno; simpl.
  - apply keeps_flags_ret.
  - apply keeps_flags_bind; [|intros _; apply IH].
    destruct (Py.contains "#" x);
      [apply keeps_flags_parse_line | apply keeps_flags_ret].
Qed.

Lemma interrupted_flags (read_before_error : list string)
  (e : option Exception) :
  let d := exec (_ <- parse_lines read_before_error 1 (-1) ;; ret e) fresh in
  file_disabled d = false /\ any_disabler d = false.
Proof.
  assert (K : keeps_flags
                (_ <- parse_lines read_before_error 1 (-1) ;; ret e)).
  { apply keeps_flags_bind; [apply keeps_flags_parse_lines|].
    intros a. apply keeps_flags_ret. }
  apply K.
Qed.

Lemma unreadable_flags (read_before_error : list string) :
  let d := DisablersFinder_init (Unreadable read_before_error) in
  file_disabled d = false /\ any_disabler d = false.
Proof. exact (interrupted_flags read_before_error None). Qed.

Lemma undecodable_flags (read_before_error : list string) :
  let d := DisablersFinder_init (Undecodable read_before_error) in
  file_disabled d = false /\ any_disabler d = false.
Proof.
  exact (interrupted_flags read_before_error (Some UnicodeDecodeError)).
Qed.


(** *** A single inline directive *)

Lemma directive_some_hash (line : string) x :
  directive line = Some x -> Py.contains "#" line = true.
Proof.
  intros H. destruct (Py.contains "#" line) eqn:E; [reflexivity|].
  rewrite (directive_without_hash _ E) in H. discriminate.
Qed.

Lemma DisablersFinder_init_unfold (source : Source) :
  DisablersFinder_init source = exec (_parse_file source) fresh.
Proof. reflexivity. Qed.

(** For a file that is read to its end, the object [__init__] leaves. *)
Lemma DisablersFinder_init_Readable (file : list string) :
  DisablersFinder_init (Readable file) =
  exec (lineno <- parse_lines file 1 (-1) ;;
        _end_block "all" lineno ;;;
        fd <- _is_file_disabled lineno ;;
        set_file_disabled fd ;;;
        fun self =>
          set_any_disabler (negb (length (rules self) =? 0)%nat) self)
    fresh.
Proof.
  rewrite DisablersFinder_init_unfold. unfold exec, _parse_file, bind.
  destruct (parse_lines file 1 (-1) fresh) as [lineno s1].
  destruct (_end_block "all" lineno s1) as [[] s2].
  destruct (_is_file_disabled lineno s2) as [fd s3].
  reflexivity.
Qed.

(** The disabler built for a file whose only directive is an inline
    [disable=key]. *)
Lemma inline_only_state (before after : list string) (l key : string) :
  Forall (fun x => directive x = None) before ->
  Forall (fun x => directive x = None) after ->
  directive l = Some (disable, [key], false) ->
  key <> "all" ->
  DisablersFinder_init (Readable (before ++ l :: after)) =
  mkDisablersFinder false true proto [(key, proto)]
    (mkHeap [{[Z.of_nat (length before) + 1]} ∪ ∅] [[]]).
Proof.
  intros Hb Ha Hl Hk.
  rewrite DisablersFinder_init_Readable. unfold exec.
  unfold bind at 1.
  destruct (parse_lines_skip before (l :: after) 1 (-1) fresh Hb) as [n1 E1].
  rewrite E1. rewrite parse_lines_cons.
  rewrite (directive_some_hash _ _ Hl).
  unfold _parse_line at 1. rewrite Hl.
  set (n := 1 + Z.of_nat (length before)).
  assert (Hs : exec (for_each [key] (fun rule => _add_inline_disabler rule n))
                 fresh
               = mkDisablersFinder false false proto [(key, proto)]
                   (mkHeap [{[n]} ∪ ∅] [[]])) by reflexivity.
  rewrite Hs.
  destruct (parse_lines_all_skipped after (n + 1) n
              (mkDisablersFinder false false proto [(key, proto)]
                 (mkHeap [{[n]} ∪ ∅] [[]])) Ha) as [n2 E2].
  rewrite E2.
  unfold _end_block, _end_block_body, _is_file_disabled, bind, rules_contains.
  simpl. repeat (rewrite (eqb_false_of_ne _ _ Hk); simpl).
  unfold n. replace (1 + Z.of_nat (length before))
    with (Z.of_nat (length before) + 1) by lia.
  reflexivity.
Qed.

Lemma mem_singleton_union_empty (n L : Z) :
  bool_decide (n ∈ ({[L]} ∪ ∅ : gset Z)) = bool_decide (n = L).
Proof.
  apply bool_decide_ext. rewrite elem_of_union, elem_of_singleton.
  split; [intros [H|H] | intros H; left]; try exact H.
  exfalso. exact (not_elem_of_empty (C := gset Z) n H).
Qed.

Lemma check_key_inline_state (key k : string) (L n : Z) :
  check_key k n
    (mkDisablersFinder false true proto [(key, proto)]
       (mkHeap [{[L]} ∪ ∅] [[]])) =
  (String.eqb key k && bool_decide (n = L),
   mkDisablersFinder false true proto [(key, proto)]
     (mkHeap [{[L]} ∪ ∅] [[]])).
Proof.
  unfold check_key, bind, rules_contains. simpl.
  destruct (String.eqb key k) eqn:E; simpl; [|reflexivity].
  unfold is_line_disabled, bind, rules_getitem. simpl. rewrite E.
  unfold set_at, list_at. simpl.
  change (bool_decide (n ∈ [{[L]} ∪ ∅] !!! 0%nat))
    with (bool_decide (n ∈ ({[L]} ∪ ∅ : gset Z))).
  rewrite mem_singleton_union_empty.
  destruct (bool_decide (n = L)); reflexivity.
Qed.

Lemma query_inline_state (key : string) (L : Z) (msg : Msg) :
  key <> "all" ->
  eval (is_msg_disabled msg)
    (mkDisablersFinder false true proto [(key, proto)]
       (mkHeap [{[L]} ∪ ∅] [[]])) =
  (String.eqb key (msg_id msg) || String.eqb key (name msg))
  && bool_decide (line msg = L).
Proof.
  intros Hk.
  unfold eval, is_msg_disabled, bind. simpl negb. cbv iota.
  rewrite check_key_inline_state, (eqb_false_of_ne _ _ Hk). simpl.
  rewrite check_key_inline_state.
  destruct (String.eqb key (msg_id msg)), (bool_decide (line msg = L)) eqn:E;
    simpl; try reflexivity;
    rewrite check_key_inline_state, ?E;
    destruct (String.eqb key (name msg)); reflexivity.
Qed.

(** C8.  In a file whose only directive is an inline [disable=key] on line
    [L], a finding of the rule that [key] names (by id or by name) is
    suppressed exactly when its line is [L], and a finding of any other
    rule is not suppressed, on [L] or anywhere else. *)
Theorem inline_disable_suppresses_only_its_line
  (before after : list string) (l key : string) (msg : Msg) :
  Forall (fun x => directive x = None) before ->
  Forall (fun x => directive x = None) after ->
  directive l = Some (disable, [key], false) ->
  key <> "all" ->
  let d := DisablersFinder_init (Readable (before ++ l :: after)) in
  let L := Z.of_nat (length before) + 1 in
  (msg_id msg = key \/ name msg = key ->
   eval (is_msg_disabled msg) d = bool_decide (line msg = L)) /\
  (msg_id msg <> key -> name msg <> key ->
   eval (is_msg_disabled msg) d = false).
Proof.
  intros Hb Ha Hl Hk d L. unfold d.
  rewrite (inline_only_state before after l key Hb Ha Hl Hk). fold L.
  rewrite (query_inline_state key L msg Hk).
  split.
  - intros [H|H]; rewrite <- H, eqb_refl_true; [reflexivity|].
    rewrite orb_true_r. reflexivity.
  - intros H1 H2.
    rewrite (eqb_false_of_ne key (msg_id msg)) by congruence.
    rewrite (eqb_false_of_ne key (name msg)) by congruence. reflexivity.
Qed.

(** The file: a statement, a statement with an inline directive for the
    rule [line-too-long], a statement with a comment that is no directive. *)
Lemma inline_disable_suppresses_only_its_line_witness :
  let file := ["*** Test Cases ***";
               "    Log  some very long text  # robocop: disable=line-too-long";
               "    Log  short  # a plain comment"] in
  let d := DisablersFinder_init (Readable file) in
  eval (is_msg_disabled (mkMsg "0508" "line-too-long" 2)) d = true /\
  eval (is_msg_disabled (mkMsg "0508" "line-too-long" 3)) d = false /\
  eval (is_msg_disabled (mkMsg "0301" "not-allowed-char" 2)) d = false.
Proof.
  pose proof (fun msg =>
    inline_disable_suppresses_only_its_line
      ["*** Test Cases ***"] ["    Log  short  # a plain comment"]
      "    Log  some very long text  # robocop: disable=line-too-long"
      "line-too-long" msg
      ltac:(repeat constructor) ltac:(repeat constructor)
      ltac:(reflexivity) ltac:(discriminate)) as H.
  cbv zeta in H. cbv zeta.
  split; [|split].
  - exact (eq_trans
             (proj1 (H (mkMsg "0508" "line-too-long" 2))
                (or_intror eq_refl)) eq_refl).
  - exact (eq_trans
             (proj1 (H (mkMsg "0508" "line-too-long" 3))
                (or_intror eq_refl)) eq_refl).
  - apply (proj2 (H (mkMsg "0301" "not-allowed-char" 2))); discriminate.
Defined.

(** *** The containers of the rule keys *)

(** The call [_end_block] makes from [_end_all_blocks] never reaches its
    own cascade: for a key other than ["all"] the body does not depend on
    what the cascade is. *)
Lemma end_block_body_cascade_unused (end_all end_all' : Z -> M unit)
  (rule : string) (n : Z) :
  rule <> "all" ->
  _end_block_body end_all rule n = _end_block_body end_all' rule n.
Proof.
  intros H. unfold _end_block_body.
  rewrite (eqb_false_of_ne _ _ H). reflexivity.
Qed.

(** Every key holds the set and the list of the one instance behind the
    factory: a line disabled for [ruleA] is disabled for [ruleB] as soon as
    [ruleB] is a key. *)
Lemma containers_are_shared_between_keys :
  let d := DisablersFinder_init (Readable two_inline_file) in
  map (fun item => (fst item, lines (snd item), blocks (snd item))) (rules d)
    = [("ruleA", 0%nat, 0%nat); ("ruleB", 0%nat, 0%nat)] /\
  eval (is_msg_disabled (mkMsg "ruleB" "rule-b" 2)) d = true /\
  eval (is_msg_disabled (mkMsg "ruleB" "rule-b" 3)) d = true /\
  eval (is_msg_disabled (mkMsg "ruleC" "rule-c" 2)) d = false.
Proof. vm_compute. repeat split. Qed.

(** A file without directives has no disabler: nothing is suppressed. *)
Lemma no_directive_no_disabler (file : list string) (msg : Msg) :
  Forall (fun x => directive x = None) file ->
  let d := DisablersFinder_init (Readable file) in
  any_disabler d = false /\ file_disabled d = false /\
  eval (is_msg_disabled msg) d = false.
Proof.
  intros H d.
  assert (E : d = fresh).
  { unfold d. rewrite DisablersFinder_init_Readable. unfold exec.
    unfold bind at 1.
    destruct (parse_lines_all_skipped file 1 (-1) fresh H) as [n E].
    rewrite E. reflexivity. }
  rewrite E. repeat split.
Qed.

Lemma no_directive_no_disabler_witness :
  let d := DisablersFinder_init (Readable plain_file) in
  any_disabler d = false /\ file_disabled d = false /\
  eval (is_msg_disabled (mkMsg "0508" "line-too-long" 1)) d = false.
Proof.
  exact (no_directive_no_disabler plain_file (mkMsg "0508" "line-too-long" 1)
           ltac:(repeat constructor)).
Defined.

(** *** Blocks that are never closed *)

Lemma not_in_empty_cell (n : Z) :
  bool_decide (n ∈ ([∅] : list (gset Z)) !!! 0%nat) = false.
Proof.
  apply bool_decide_eq_false.
  exact (not_elem_of_empty (C := gset Z) n).
Qed.

(** While no directive has created the key ["all"], ending the block of
    ["all"] does nothing: the cascade is behind the membership test. *)
Lemma end_block_all_absent (n : Z) (self : DisablersFinder) :
  assoc "all" (rules self) = None -> _end_block "all" n self = (tt, self).
Proof.
  intros H. unfold _end_block, _end_block_body, bind, rules_contains.
  rewrite H. reflexivity.
Qed.

(** The disabler built for a file with a block [disable=key], a later
    block [enable=all] and no other directive: the block of [key] is
    still open, on the line of its directive, and no block is recorded. *)
Lemma open_block_state (before between after : list string)
  (l1 l2 key : string) :
  Forall (fun x => directive x = None) before ->
  Forall (fun x => directive x = None) between ->
  Forall (fun x => directive x = None) after ->
  directive l1 = Some (disable, [key], true) ->
  directive l2 = Some (enable, ["all"], true) ->
  key <> "all" ->
  DisablersFinder_init
    (Readable (before ++ l1 :: between ++ l2 :: after)) =
  mkDisablersFinder false true proto
    [(key, mkDisablersInFile (Z.of_nat (length before) + 1) 0%nat 0%nat)]
    (mkHeap [∅] [[]]).
Proof.
  intros Hb Hm Ha Hl1 Hl2 Hk.
  rewrite DisablersFinder_init_Readable. unfold exec.
  unfold bind at 1.
  destruct (parse_lines_skip before (l1 :: between ++ l2 :: after) 1 (-1)
              fresh Hb) as [n1 E1].
  rewrite E1. rewrite parse_lines_cons.
  rewrite (directive_some_hash _ _ Hl1).
  unfold _parse_line at 1. rewrite Hl1.
  set (n := 1 + Z.of_nat (length before)).
  set (s1 := mkDisablersFinder false false proto
               [(key, mkDisablersInFile n 0%nat 0%nat)] (mkHeap [∅] [[]])).
  assert (Hs : exec (for_each [key] (fun rule => _start_block rule n)) fresh
               = s1).
  { unfold exec, for_each, _start_block, set_lastblock, bind, rules_getitem.
    simpl. rewrite !eqb_refl_true. simpl. rewrite ?eqb_refl_true.
    reflexivity. }
  rewrite Hs.
  destruct (parse_lines_skip between (l2 :: after) (n + 1) n s1 Hm)
    as [n2 E2].
  rewrite E2. rewrite parse_lines_cons.
  rewrite (directive_some_hash _ _ Hl2).
  unfold _parse_line at 1. rewrite Hl2.
  assert (Hall : assoc "all" (rules s1) = None).
  { simpl. rewrite (eqb_false_of_ne _ _ Hk). reflexivity. }
  assert (Hs2 : forall k,
             exec (for_each ["all"] (fun rule => _end_block rule k)) s1 = s1).
  { intros k. unfold exec. simpl. unfold bind.
    rewrite (end_block_all_absent k s1 Hall). reflexivity. }
  rewrite Hs2.
  destruct (parse_lines_all_skipped after
              (n + 1 + Z.of_nat (length between) + 1)
              (n + 1 + Z.of_nat (length between)) s1 Ha) as [n3 E3].
  rewrite E3.
  unfold bind at 1. rewrite (end_block_all_absent n3 s1 Hall).
  unfold _is_file_disabled, bind, rules_contains. rewrite Hall. simpl.
  unfold n. replace (1 + Z.of_nat (length before))
    with (Z.of_nat (length before) + 1) by lia.
  reflexivity.
Qed.

(** With a block [disable=key], a later block [enable=all] and no other
    directive, no finding is suppressed, on any line and for any rule. *)
Lemma enable_all_alone_suppresses_nothing (before between after : list string)
  (l1 l2 key : string) (msg : Msg) :
  Forall (fun x => directive x = None) before ->
  Forall (fun x => directive x = None) between ->
  Forall (fun x => directive x = None) after ->
  directive l1 = Some (disable, [key], true) ->
  directive l2 = Some (enable, ["all"], true) ->
  key <> "all" ->
  eval (is_msg_disabled msg)
    (DisablersFinder_init
       (Readable (before ++ l1 :: between ++ l2 :: after))) = false.
Proof.
  intros Hb Hm Ha Hl1 Hl2 Hk.
  rewrite (open_block_state before between after l1 l2 key Hb Hm Ha Hl1 Hl2 Hk).
  unfold eval, is_msg_disabled, bind, check_key, bind, rules_contains,
    is_line_disabled, bind, rules_getitem, set_at, list_at.
  simpl. rewrite (eqb_false_of_ne _ _ Hk). simpl.
  destruct (String.eqb key (msg_id msg)) eqn:E1; simpl.
  - rewrite E1. simpl. rewrite not_in_empty_cell. simpl.
    destruct (String.eqb key (name msg)) eqn:E2; simpl; [|reflexivity].
    rewrite E2. simpl. rewrite not_in_empty_cell. reflexivity.
  - destruct (String.eqb key (name msg)) eqn:E2; simpl; [|reflexivity].
    rewrite E2. simpl. rewrite not_in_empty_cell. reflexivity.
Qed.

Lemma enable_all_alone_suppresses_nothing_witness :
  eval (is_msg_disabled (mkMsg "ruleA" "rule-a" 5))
    (DisablersFinder_init (Readable cascade_file)) = false.
Proof.
  exact (enable_all_alone_suppresses_nothing []
           ["*** Test Cases ***"; "First"; "    Log  1"; "    Log  2";
            "Second"; "    Log  3"; "    Log  4"; "    Log  5"]
           ["Third"; "    Log  6"]
           "# robocop: disable=ruleA" "# robocop: enable=all" "ruleA"
           (mkMsg "ruleA" "rule-a" 5)
           ltac:(repeat constructor) ltac:(repeat constructor)
           ltac:(repeat constructor) ltac:(reflexivity) ltac:(reflexivity)
           ltac:(discriminate)).
Defined.

(** C1, on the code.  With [disable=ruleA] alone on line 1 and [enable=all]
    alone on line 10, the key ["all"] is not in [rules] when the [enable]
    is parsed: [_end_block] returns before the cascade, also at the end of
    the file.  The block of [ruleA] stays open, no block is recorded, and
    no finding of [ruleA] is suppressed on any line. *)
Theorem enable_all_without_all_key_closes_nothing :
  let d := DisablersFinder_init (Readable cascade_file) in
  assoc "ruleA" (rules d) = Some (mkDisablersInFile 1 0%nat 0%nat) /\
  assoc "all" (rules d) = None /\
  list_at 0%nat (heap d) = [] /\
  forall n, eval (is_msg_disabled (mkMsg "ruleA" "rule-a" n)) d = false.
Proof.
  assert (E : DisablersFinder_init (Readable cascade_file) =
              mkDisablersFinder false true proto
                [("ruleA", mkDisablersInFile 1 0%nat 0%nat)] (mkHeap [∅] [[]]))
    by (vm_compute; reflexivity).
  cbv zeta. rewrite E.
  split; [reflexivity|]. split; [reflexivity|]. split; [reflexivity|].
  intros n. unfold eval, is_msg_disabled, bind, check_key, bind,
    rules_contains, is_line_disabled, bind, rules_getitem, set_at, list_at.
  simpl. rewrite not_in_empty_cell. reflexivity.
Qed.

(** C2, on the code.  A block [disable=ruleA] that is never closed is
    still open after construction: the key ["all"] is not in [rules] at the
    end of the file, so nothing is force-closed.  The open-block marker of
    [ruleA] keeps the line of the directive and no block is recorded. *)
Theorem unclosed_block_stays_open :
  let d := DisablersFinder_init (Readable dangling_file) in
  assoc "ruleA" (rules d) = Some (mkDisablersInFile 2 0%nat 0%nat) /\
  list_at 0%nat (heap d) = [] /\
  eval (is_msg_disabled (mkMsg "ruleA" "rule-a" 3)) d = false.
Proof. vm_compute. repeat split. Qed.

(** C3, on the code.  A file that opens with a block [disable] for all
    rules and never enables them again has one closed block for ["all"],
    from line 1 to the last line, and is not classified as disabled: the
    block is compared with [(0, last_line)]. *)
Theorem first_line_disable_is_not_file_disabled :
  let d := DisablersFinder_init (Readable disabled_file) in
  list_at 0%nat (heap d) = [(1, 4)] /\
  file_disabled d = false.
Proof. vm_compute. repeat split. Qed.

(** *** No file is classified as disabled *)

Lemma hoare_ret {A} (P : DisablersFinder -> Prop) (a : A) :
  hoare P (ret a) (fun _ self => P self).
Proof. intros self H. exact H. Qed.

Lemma hoare_bind {A B} (P : DisablersFinder -> Prop) (m : M A)
  (Q : A -> DisablersFinder -> Prop) (k : A -> M B)
  (R : B -> DisablersFinder -> Prop) :
  hoare P m Q -> (forall a, hoare (Q a) (k a) R) -> hoare P (bind m k) R.
Proof.
  intros Hm Hk self HP. unfold bind.
  specialize (Hm self HP). destruct (m self) as [a s]. simpl in Hm.
  exact (Hk a s Hm).
Qed.

Lemma hoare_weaken {A} (P : DisablersFinder -> Prop) (m : M A)
  (Q Q' : A -> DisablersFinder -> Prop) :
  hoare P m Q -> (forall a self, Q a self -> Q' a self) -> hoare P m Q'.
Proof. intros H HQ self HP. apply HQ, H, HP. Qed.

Lemma hoare_for_each {A} (P : DisablersFinder -> Prop) (xs : list A)
  (body : A -> M unit) :
  (forall x, hoare P (body x) (fun _ self => P self)) ->
  hoare P (for_each xs body) (fun _ self => P self).
Proof.
  intros H. induction xs as [|x xs IH]; simpl.
  - apply hoare_ret.
  - eapply hoare_bind; [apply H | intros ?; exact IH].
Qed.

Lemma assoc_Forall (P : DisablersInFile -> Prop) (rule : string)
  (d : DisablersInFile) (l : list (string * DisablersInFile)) :
  Forall (fun item => P (snd item)) l -> assoc rule l = Some d -> P d.
Proof.
  induction 1 as [|[k v] l Hv Hl IH]; simpl; [discriminate|].
  destruct (String.eqb k rule); [|exact IH].
  intros H. injection H as <-. exact Hv.
Qed.

Lemma assoc_set_Forall (P : DisablersInFile -> Prop) (rule : string)
  (d : DisablersInFile) (l : list (string * DisablersInFile)) :
  P d -> Forall (fun item => P (snd item)) l ->
  Forall (fun item => P (snd item)) (assoc_set rule d l).
Proof.
  intros Hd. induction 1 as [|[k v] l Hv Hl IH]; simpl; [constructor|].
  destruct (String.eqb k rule); constructor; assumption.
Qed.

Lemma hoare_pure {A} (P : DisablersFinder -> Prop) (phi : Prop) (m : M A)
  (Q : A -> DisablersFinder -> Prop) :
  (phi -> hoare P m Q) -> hoare (fun self => P self /\ phi) m Q.
Proof. intros H self [HP Hphi]. exact (H Hphi self HP). Qed.

Lemma assoc_app_new (rule : string) (d : DisablersInFile)
  (l : list (string * DisablersInFile)) :
  assoc rule l = None -> assoc rule (l ++ [(rule, d)])%list = Some d.
Proof.
  induction l as [|[k v] l IH]; simpl.
  - intros ?. rewrite eqb_refl_true. reflexivity.
  - destruct (String.eqb k rule); [discriminate | exact IH].
Qed.

(** [self.rules[rule]] keeps the invariant; the value it returns is the
    one the dictionary now holds, and its marker is well formed. *)
Lemma starts_ok_getitem (rule : string) :
  hoare starts_ok (rules_getitem rule)
    (fun d self =>
       (starts_ok self /\ assoc rule (rules self) = Some d) /\
       marker_ok (lastblock d)).
Proof.
  intros self (Hb & Hr & Hf). unfold rules_getitem.
  destruct (assoc rule (rules self)) as [d|] eqn:E; simpl.
  - split; [split; [repeat split; assumption | exact E]|].
    exact (assoc_Forall (fun d => marker_ok (lastblock d)) rule d _ Hr E).
  - split; [|left; exact Hf].
    split; [|apply assoc_app_new; exact E].
    split; [exact Hb|]. split; [|exact Hf].
    apply Forall_app. split; [exact Hr|].
    constructor; [left; exact Hf | constructor].
Qed.

Lemma starts_ok_getitem_weak (rule : string) :
  hoare starts_ok (rules_getitem rule) (fun _ self => starts_ok self).
Proof.
  eapply hoare_weaken; [apply starts_ok_getitem|].
  intros d self [[H _] _]. exact H.
Qed.

Lemma starts_ok_set_lastblock (rule : string) (v : Z) :
  marker_ok v ->
  hoare starts_ok (set_lastblock rule v) (fun _ self => starts_ok self).
Proof.
  intros Hv. eapply hoare_bind; [apply starts_ok_getitem_weak|].
  intros d self (Hb & Hr & Hf). simpl.
  split; [exact Hb|]. split; [|exact Hf].
  apply (assoc_set_Forall (fun d => marker_ok (lastblock d)));
    [exact Hv | exact Hr].
Qed.

Lemma starts_ok_lines_add (rule : string) (n : Z) :
  hoare starts_ok (lines_add rule n) (fun _ self => starts_ok self).
Proof.
  eapply hoare_bind; [apply starts_ok_getitem_weak|].
  intros d self (Hb & Hr & Hf). simpl.
  split; [exact Hb|]. split; [exact Hr | exact Hf].
Qed.

Lemma starts_ok_blocks_append (rule : string) (block : Z * Z) :
  1 <= fst block ->
  hoare starts_ok (blocks_append rule block) (fun _ self => starts_ok self).
Proof.
  intros Hblock. eapply hoare_bind; [apply starts_ok_getitem_weak|].
  intros d self (Hb & Hr & Hf). simpl.
  split; [|split; [exact Hr | exact Hf]].
  intros l. unfold list_at, list_append. simpl.
  rewrite list_lookup_total_insert. case_decide.
  - apply Forall_app. split; [apply Hb|].
    constructor; [exact Hblock|constructor].
  - apply Hb.
Qed.

Lemma starts_ok_start_block (rule : string) (n : Z) :
  1 <= n ->
  hoare starts_ok (_start_block rule n) (fun _ self => starts_ok self).
Proof.
  intros Hn. eapply hoare_bind; [apply starts_ok_getitem_weak|].
  intros d. destruct (lastblock d =? -1).
  - apply starts_ok_set_lastblock. right. exact Hn.
  - apply hoare_ret.
Qed.

Lemma starts_ok_end_block_body (end_all : Z -> M unit) (rule : string)
  (n : Z) :
  (forall k, hoare starts_ok (end_all k) (fun _ self => starts_ok self)) ->
  hoare starts_ok (_end_block_body end_all rule n)
    (fun _ self => starts_ok self).
Proof.
  intros Hall. unfold _end_block_body.
  eapply hoare_bind with (Q := fun _ self => starts_ok self).
  { intros self H. exact H. }
  intros present. destruct (negb present); [apply hoare_ret|].
  eapply hoare_bind; [apply starts_ok_getitem|].
  intros d. eapply hoare_bind with (Q := fun _ self => starts_ok self).
  - apply hoare_pure. intros Hd.
    destruct (negb (lastblock d =? -1)) eqn:E.
    + assert (Hstart : 1 <= lastblock d).
      { destruct Hd as [Hd|Hd]; [|exact Hd].
        rewrite Hd in E. discriminate. }
      eapply hoare_bind with (Q := fun d' self => starts_ok self /\ d' = d).
      * intros self [H Ha]. rewrite (rules_getitem_present _ _ _ Ha).
        simpl. split; [exact H | reflexivity].
      * intros d'. apply hoare_pure. intros ->.
        eapply hoare_bind;
          [apply starts_ok_set_lastblock; left; reflexivity|].
        intros ?. apply starts_ok_blocks_append. exact Hstart.
    + intros self [H _]. exact H.
  - intros ?. destruct (String.eqb rule "all"); [apply Hall | apply hoare_ret].
Qed.

Lemma starts_ok_end_all_blocks (n : Z) :
  hoare starts_ok (_end_all_blocks n) (fun _ self => starts_ok self).
Proof.
  intros self. unfold _end_all_blocks.
  apply hoare_for_each. intros rule.
  destruct (String.eqb rule "all"); [apply hoare_ret|].
  apply starts_ok_end_block_body. intros k. apply hoare_ret.
Qed.

Lemma starts_ok_end_block (rule : string) (n : Z) :
  hoare starts_ok (_end_block rule n) (fun _ self => starts_ok self).
Proof.
  apply starts_ok_end_block_body. apply starts_ok_end_all_blocks.
Qed.

Lemma starts_ok_parse_line (line : string) (n : Z) :
  1 <= n ->
  hoare starts_ok (_parse_line line n) (fun _ self => starts_ok self).
Proof.
  intros Hn. unfold _parse_line.
  destruct (directive line) as [[[[|] rs] block]|]; [| |apply hoare_ret].
  - apply hoare_for_each. intros rule. destruct block.
    + apply starts_ok_start_block. exact Hn.
    + apply starts_ok_lines_add.
  - destruct block; [|apply hoare_ret].
    apply hoare_for_each. intros rule. apply starts_ok_end_block.
Qed.

Lemma starts_ok_parse_lines (file : list string) (next lineno : Z) :
  1 <= next ->
  hoare starts_ok (parse_lines file next lineno) (fun _ self => starts_ok self).
Proof.
  revert next lineno.
  induction file as [|x file IH]; intros next lineno Hn; simpl.
  - apply hoare_ret.
  - eapply hoare_bind with (Q := fun _ self => starts_ok self).
    + destruct (Py.contains "#" x);
        [apply starts_ok_parse_line; exact Hn | apply hoare_ret].
    + intros ?. apply IH. lia.
Qed.

(** [_is_file_disabled] answers [False] in every state the parser can
    reach: the block it finds starts on line 1 or later, never on 0. *)
Lemma is_file_disabled_false (last_line : Z) :
  hoare starts_ok (_is_file_disabled last_line)
    (fun answer self => answer = false).
Proof.
  intros self (Hb & _ & _). unfold _is_file_disabled, bind, rules_contains.
  destruct (assoc "all" (rules self)) as [d|] eqn:E; simpl; [|reflexivity].
  rewrite (rules_getitem_present _ _ _ E).
  specialize (Hb (blocks d)).
  destruct (list_at (blocks d) (heap self)) as [|b [|b' l]]; try reflexivity.
  simpl. apply bool_decide_eq_false. intros ->.
  apply Forall_cons in Hb. destruct Hb as [Hb _]. simpl in Hb. lia.
Qed.

Lemma starts_ok_fresh : starts_ok fresh.
Proof.
  split; [|split; [constructor | reflexivity]].
  intros [|[|l]]; constructor.
Qed.

(** The constructor raises exactly when the text cannot be decoded;
    otherwise it returns the object [__init__] worked on. *)
Lemma DisablersFinder_new_unfold (source : Source) :
  DisablersFinder_new source =
  match source with
  | Undecodable _ => Raised UnicodeDecodeError
  | _ => Built (DisablersFinder_init source)
  end.
Proof.
  unfold DisablersFinder_new, DisablersFinder_init, exec. simpl.
  destruct source as [file|read_before_error|read_before_error];
    unfold _parse_file, bind.
  - destruct (parse_lines file 1 (-1) _) as [lineno s1].
    destruct (_end_block "all" lineno s1) as [[] s2].
    destruct (_is_file_disabled lineno s2) as [fd s3].
    reflexivity.
  - destruct (parse_lines read_before_error 1 (-1) _) as [lineno s1].
    reflexivity.
  - destruct (parse_lines read_before_error 1 (-1) _) as [lineno s1].
    reflexivity.
Qed.

Lemma init_file_disabled (source : Source) :
  file_disabled (DisablersFinder_init source) = false.
Proof.
  destruct source as [file|read_before_error|read_before_error].
  - rewrite DisablersFinder_init_Readable. unfold exec.
    unfold bind at 1.
    pose proof (starts_ok_parse_lines file 1 (-1) ltac:(lia) fresh
                  starts_ok_fresh) as H1.
    destruct (parse_lines file 1 (-1) fresh) as [lineno s1]. simpl in H1.
    unfold bind at 1.
    pose proof (starts_ok_end_block "all" lineno s1 H1) as H2.
    destruct (_end_block "all" lineno s1) as [[] s2]. simpl in H2.
    unfold bind at 1.
    pose proof (is_file_disabled_false lineno s2 H2) as H3.
    destruct (_is_file_disabled lineno s2) as [answer s3]. simpl in H3.
    subst answer. reflexivity.
  - exact (proj1 (unreadable_flags read_before_error)).
  - exact (proj1 (undecodable_flags read_before_error)).
Qed.

(** The whole-file classification never fires: for every source,
    readable or not, the disabler built for it has [file_disabled] false. *)
Theorem file_disabled_is_always_false (source : Source) :
  file_disabled (DisablersFinder_init source) = false.
Proof. exact (init_file_disabled source). Qed.

(** *** Invariants of the parser, in general *)

Section Invariant.

Variable I : DisablersFinder -> Prop.

Hypothesis I_getitem :
  forall rule, hoare I (rules_getitem rule) (fun _ self => I self).
Hypothesis I_set_lastblock :
  forall rule v, hoare I (set_lastblock rule v) (fun _ self => I self).
Hypothesis I_lines_add :
  forall rule n, hoare I (lines_add rule n) (fun _ self => I self).
Hypothesis I_blocks_append :
  forall rule block, hoare I (blocks_append rule block) (fun _ self => I self).
Hypothesis I_flags :
  forall self fd ad,
    I self ->
    I (mkDisablersFinder fd ad (default_factory self) (rules self) (heap self)).

Lemma inv_contains (rule : string) :
  hoare I (rules_contains rule) (fun _ self => I self).
Proof. intros self H. exact H. Qed.

Lemma inv_start_block (rule : string) (n : Z) :
  hoare I (_start_block rule n) (fun _ self => I self).
Proof.
  eapply hoare_bind; [apply I_getitem|].
  intros d. destruct (lastblock d =? -1);
    [apply I_set_lastblock | apply hoare_ret].
Qed.

Lemma inv_end_block_body (end_all : Z -> M unit) (rule : string) (n : Z) :
  (forall k, hoare I (end_all k) (fun _ self => I self)) ->
  hoare I (_end_block_body end_all rule n) (fun _ self => I self).
Proof.
  intros Hall. unfold _end_block_body.
  eapply hoare_bind; [apply inv_contains|].
  intros present. destruct (negb present); [apply hoare_ret|].
  eapply hoare_bind; [apply I_getitem|].
  intros d. eapply hoare_bind with (Q := fun _ self => I self).
  - destruct (negb (lastblock d =? -1)); [|apply hoare_ret].
    eapply hoare_bind; [apply I_getitem|].
    intros d'. eapply hoare_bind; [apply I_set_lastblock|].
    intros ?. apply I_blocks_append.
  - intros ?. destruct (String.eqb rule "all"); [apply Hall | apply hoare_ret].
Qed.

Lemma inv_end_all_blocks (n : Z) :
  hoare I (_end_all_blocks n) (fun _ self => I self).
Proof.
  intros self. unfold _end_all_blocks.
  apply hoare_for_each. intros rule.
  destruct (String.eqb rule "all"); [apply hoare_ret|].
  apply inv_end_block_body. intros k. apply hoare_ret.
Qed.

Lemma inv_end_block (rule : string) (n : Z) :
  hoare I (_end_block rule n) (fun _ self => I self).
Proof. apply inv_end_block_body. apply inv_end_all_blocks. Qed.

Lemma inv_parse_line (line : string) (n : Z) :
  hoare I (_parse_line line n) (fun _ self => I self).
Proof.
  unfold _parse_line.
  destruct (directive line) as [[[[|] rs] block]|]; [| |apply hoare_ret].
  - apply hoare_for_each. intros rule. destruct block.
    + apply inv_start_block.
    + apply I_lines_add.
  - destruct block; [|apply hoare_ret].
    apply hoare_for_each. intros rule. apply inv_end_block.
Qed.

Lemma inv_parse_lines (file : list string) (next lineno : Z) :
  hoare I (parse_lines file next lineno) (fun _ self => I self).
Proof.
  revert next lineno.
  induction file as [|x file IH]; intros next lineno; simpl.
  - apply hoare_ret.
  - eapply hoare_bind with (Q := fun _ self => I self).
    + destruct (Py.contains "#" x); [apply inv_parse_line | apply hoare_ret].
    + intros ?. apply IH.
Qed.

Lemma inv_is_file_disabled (last_line : Z) :
  hoare I (_is_file_disabled last_line) (fun _ self => I self).
Proof.
  unfold _is_file_disabled.
  eapply hoare_bind; [apply inv_contains|].
  intros present. destruct (negb present); [apply hoare_ret|].
  eapply hoare_bind; [apply I_getitem|].
  intros d self H. simpl.
  destruct (list_at (blocks d) (heap self)) as [|b [|b' l]]; exact H.
Qed.

Lemma inv_parse_file (source : Source) :
  hoare I (_parse_file source) (fun _ self => I self).
Proof.
  destruct source as [file|read_before_error|read_before_error]; simpl.
  - eapply hoare_bind; [apply inv_parse_lines|].
    intros lineno. eapply hoare_bind; [apply inv_end_block|].
    intros ?. eapply hoare_bind; [apply inv_is_file_disabled|].
    intros fd. eapply hoare_bind with (Q := fun _ self => I self).
    + intros self H. simpl. apply I_flags. exact H.
    + intros ?. eapply hoare_bind with (Q := fun _ self => I self).
      * intros self H. simpl. apply I_flags. exact H.
      * intros ?. apply hoare_ret.
  - eapply hoare_bind; [apply inv_parse_lines|].
    intros ?. apply hoare_ret.
  - eapply hoare_bind; [apply inv_parse_lines|].
    intros ?. apply hoare_ret.
Qed.

(** An invariant of the four writes that holds before parsing holds for
    the disabler of every source. *)
Lemma inv_init (source : Source) :
  I fresh -> I (DisablersFinder_init source).
Proof.
  intros H. rewrite DisablersFinder_init_unfold.
  exact (inv_parse_file source fresh H).
Qed.

End Invariant.

(** *** One set and one list for all keys *)

Lemma shares_getitem (rule : string) :
  hoare shares_containers (rules_getitem rule)
    (fun d self =>
       shares_containers self /\
       lines d = lines (default_factory self) /\
       blocks d = blocks (default_factory self)).
Proof.
  intros self H. unfold rules_getitem.
  destruct (assoc rule (rules self)) as [d|] eqn:E; simpl.
  - split; [exact H|].
    exact (assoc_Forall
             (fun d => lines d = lines (default_factory self) /\
                       blocks d = blocks (default_factory self))
             rule d _ H E).
  - split; [|split; reflexivity].
    unfold shares_containers. simpl. apply Forall_app. split; [exact H|].
    constructor; [split; reflexivity | constructor].
Qed.

Lemma shares_init (source : Source) :
  shares_containers (DisablersFinder_init source).
Proof.
  apply inv_init.
  - intros rule. eapply hoare_weaken; [apply shares_getitem|].
    intros d self [H _]. exact H.
  - intros rule v. eapply hoare_bind; [apply shares_getitem|].
    intros d self (H & Hl & Hb). unfold shares_containers. simpl.
    apply (assoc_set_Forall
             (fun d => lines d = lines (default_factory self) /\
                       blocks d = blocks (default_factory self)));
      [split; assumption | exact H].
  - intros rule n. eapply hoare_bind; [apply shares_getitem|].
    intros d self (H & _). exact H.
  - intros rule block. eapply hoare_bind; [apply shares_getitem|].
    intros d self (H & _). exact H.
  - intros self fd ad H. exact H.
  - constructor.
Qed.

Lemma check_key_shared (key : string) (n : Z) (self : DisablersFinder) :
  shares_containers self ->
  check_key key n self = (has_key key self && covered n self, self).
Proof.
  intros H. unfold check_key, bind, rules_contains, has_key.
  destruct (assoc key (rules self)) as [d|] eqn:E; [|reflexivity].
  unfold is_line_disabled, bind. rewrite (rules_getitem_present _ _ _ E).
  destruct (assoc_Forall
              (fun d => lines d = lines (default_factory self) /\
                        blocks d = blocks (default_factory self))
              key d _ H E) as [Hl Hb].
  unfold covered. rewrite Hl, Hb.
  destruct (bool_decide _); reflexivity.
Qed.

(** Suppression does not depend on which rule a directive named: for the
    disabler of every source, a finding is suppressed exactly when one of
    its three keys (["all"], its id, its name) is a key of [rules] and its
    line is in the one set, or inside a block of the one list, that all
    keys share. *)
Theorem suppression_ignores_the_rule_of_a_directive (source : Source)
  (msg : Msg) :
  let d := DisablersFinder_init source in
  eval (is_msg_disabled msg) d =
  any_disabler d
  && (has_key "all" d || has_key (msg_id msg) d || has_key (name msg) d)
  && covered (line msg) d.
Proof.
  intros d. pose proof (shares_init source) as H. fold d in H.
  unfold eval, is_msg_disabled.
  destruct (any_disabler d); [|reflexivity]. simpl negb. cbv iota.
  unfold bind. rewrite (check_key_shared _ _ _ H).
  destruct (has_key "all" d), (covered (line msg) d) eqn:Ec; simpl;
    try reflexivity;
    rewrite (check_key_shared _ _ _ H), ?Ec;
    destruct (has_key (msg_id msg) d); simpl; try reflexivity;
    rewrite (check_key_shared _ _ _ H), ?Ec;
    destruct (has_key (name msg) d); reflexivity.
Qed.

(** *** Which files have a disabler *)

Lemma split_nonempty (c : ascii) (s : string) : Py.split c s <> [].
Proof.
  destruct s as [|a s]; simpl; [discriminate|].
  destruct (Ascii.eqb a c); [discriminate|].
  destruct (Py.split c s); discriminate.
Qed.

Lemma directive_rules_nonempty (line : string) (kw : keyword)
  (rs : list string) (block : bool) :
  directive line = Some (kw, rs, block) -> rs <> [].
Proof.
  unfold directive.
  destruct (Py.split1 "#" line) as [|statement [|comment [|x l]]];
    try discriminate.
  destruct (search comment) as [m|]; [|discriminate].
  intros H. injection H as _ <- _.
  destruct (String.eqb (group_rules m) ""); [discriminate|].
  apply split_nonempty.
Qed.

Lemma end_block_absent (rule : string) (n : Z) (self : DisablersFinder) :
  assoc rule (rules self) = None -> _end_block rule n self = (tt, self).
Proof.
  intros H. unfold _end_block, _end_block_body, bind, rules_contains.
  rewrite H. reflexivity.
Qed.

(** Without keys, a line that is not a [disable] directive changes
    nothing: an [enable] finds no block to end. *)
Lemma not_disable_line_without_keys (line : string) (n : Z)
  (self : DisablersFinder) :
  is_disable_line line = false -> rules self = [] ->
  (if Py.contains "#" line then _parse_line line n else ret tt) self
  = (tt, self).
Proof.
  intros Hd Hr. destruct (Py.contains "#" line); [|reflexivity].
  unfold _parse_line. unfold is_disable_line in Hd.
  destruct (directive line) as [[[[|] rs] block]|]; try discriminate;
    [|reflexivity].
  destruct block; [|reflexivity].
  induction rs as [|r rs IH]; [reflexivity|].
  simpl. unfold bind. rewrite end_block_absent; [exact IH|].
  rewrite Hr. reflexivity.
Qed.

(** The number of keys never goes down. *)
Lemma keys_kept_init_step (k : nat) :
  (forall rule,
     hoare (fun self => (k <= length (rules self))%nat) (rules_getitem rule)
       (fun _ self => (k <= length (rules self))%nat)) /\
  (forall rule v,
     hoare (fun self => (k <= length (rules self))%nat) (set_lastblock rule v)
       (fun _ self => (k <= length (rules self))%nat)) /\
  (forall rule n,
     hoare (fun self => (k <= length (rules self))%nat) (lines_add rule n)
       (fun _ self => (k <= length (rules self))%nat)) /\
  (forall rule block,
     hoare (fun self => (k <= length (rules self))%nat)
       (blocks_append rule block)
       (fun _ self => (k <= length (rules self))%nat)).
Proof.
  assert (Hget : forall rule,
     hoare (fun self => (k <= length (rules self))%nat) (rules_getitem rule)
       (fun _ self => (k <= length (rules self))%nat)).
  { intros rule self H. unfold rules_getitem.
    destruct (assoc rule (rules self)); simpl; [exact H|].
    rewrite length_app. simpl. lia. }
  assert (Hlen : forall rule d l, length (assoc_set rule d l) = length l).
  { intros rule d l. induction l as [|[a b] l IH]; simpl; [reflexivity|].
    destruct (String.eqb a rule); simpl; [reflexivity|].
    rewrite IH. reflexivity. }
  split; [exact Hget|]. split; [|split].
  - intros rule v. eapply hoare_bind; [apply Hget|].
    intros d self H. simpl. rewrite Hlen. exact H.
  - intros rule n. eapply hoare_bind; [apply Hget|].
    intros d self H. exact H.
  - intros rule block. eapply hoare_bind; [apply Hget|].
    intros d self H. exact H.
Qed.

Lemma getitem_makes_a_key (rule : string) (self : DisablersFinder) :
  (1 <= length (rules (snd (rules_getitem rule self))))%nat.
Proof.
  unfold rules_getitem.
  destruct (assoc rule (rules self)) as [d|] eqn:E; simpl.
  - destruct (rules self); [discriminate | simpl; lia].
  - rewrite length_app. simpl. lia.
Qed.

Lemma disable_line_makes_a_key (line : string) (n : Z)
  (self : DisablersFinder) :
  is_disable_line line = true ->
  (1 <= length (rules (snd ((if Py.contains "#" line
                              then _parse_line line n else ret tt) self))))%nat.
Proof.
  intros Hd. unfold is_disable_line in Hd.
  destruct (directive line) as [[[[|] rs] block]|] eqn:E; try discriminate.
  rewrite (directive_some_hash _ _ E).
  unfold _parse_line. rewrite E.
  destruct rs as [|r rs]; [exfalso; exact (directive_rules_nonempty _ _ _ _ E eq_refl)|].
  destruct (keys_kept_init_step 1) as (Hget & Hset & Hadd & Happ).
  simpl. unfold bind at 1.
  assert (Hfirst : (1 <= length (rules (snd
            ((if block then _start_block r n else _add_inline_disabler r n)
               self))))%nat).
  { destruct block.
    - unfold _start_block, bind.
      pose proof (getitem_makes_a_key r self) as Hk.
      destruct (rules_getitem r self) as [d s]. simpl in Hk.
      destruct (lastblock d =? -1); [|exact Hk].
      exact (Hset r n s Hk).
    - unfold _add_inline_disabler, lines_add, bind.
      pose proof (getitem_makes_a_key r self) as Hk.
      destruct (rules_getitem r self) as [d s]. exact Hk. }
  destruct ((if block then _start_block r n else _add_inline_disabler r n)
              self) as [[] s1].
  simpl in Hfirst. revert s1 Hfirst.
  apply (hoare_for_each (fun self => (1 <= length (rules self))%nat)).
  intros rule. destruct block.
  - apply inv_start_block; assumption.
  - apply Hadd.
Qed.

Lemma keys_kept_parse_lines (k : nat) (file : list string) (next lineno : Z) :
  hoare (fun self => (k <= length (rules self))%nat)
    (parse_lines file next lineno)
    (fun _ self => (k <= length (rules self))%nat).
Proof.
  destruct (keys_kept_init_step k) as (Hget & Hset & Hadd & Happ).
  apply inv_parse_lines; assumption.
Qed.

Lemma disable_line_found (file : list string) (next lineno : Z)
  (self : DisablersFinder) :
  existsb is_disable_line file = true ->
  (1 <= length (rules (snd (parse_lines file next lineno self))))%nat.
Proof.
  revert next lineno self.
  induction file as [|x file IH]; intros next lineno self H;
    [discriminate|].
  rewrite parse_lines_cons. simpl in H.
  destruct (is_disable_line x) eqn:Ex.
  - apply keys_kept_parse_lines. apply disable_line_makes_a_key. exact Ex.
  - apply IH. exact H.
Qed.

Lemma no_disable_line_found (file : list string) (next lineno : Z)
  (self : DisablersFinder) :
  existsb is_disable_line file = false -> rules self = [] ->
  snd (parse_lines file next lineno self) = self.
Proof.
  revert next lineno.
  induction file as [|x file IH]; intros next lineno H Hr; [reflexivity|].
  rewrite parse_lines_cons. simpl in H. apply orb_false_iff in H.
  destruct H as [Hx Hf]. unfold exec.
  rewrite (not_disable_line_without_keys x next self Hx Hr). simpl.
  apply IH; assumption.
Qed.

(** A file has a disabler exactly when one of its lines carries a
    [disable] directive: [enable] directives alone make none. *)
Theorem any_disabler_iff_a_disable_directive (file : list string) :
  any_disabler (DisablersFinder_init (Readable file)) =
  existsb is_disable_line file.
Proof.
  rewrite DisablersFinder_init_Readable. unfold exec.
  unfold bind at 1.
  destruct (existsb is_disable_line file) eqn:E.
  - pose proof (disable_line_found file 1 (-1) fresh E) as H1.
    destruct (parse_lines file 1 (-1) fresh) as [lineno s1]. simpl in H1.
    destruct (keys_kept_init_step 1) as (Hget & Hset & Hadd & Happ).
    unfold bind at 1.
    pose proof (inv_end_block _ Hget Hset Happ "all" lineno s1 H1) as H2.
    destruct (_end_block "all" lineno s1) as [[] s2]. simpl in H2.
    unfold bind at 1.
    pose proof (inv_is_file_disabled _ Hget lineno s2 H2) as H3.
    destruct (_is_file_disabled lineno s2) as [fd s3]. simpl in H3.
    simpl. destruct (rules s3); [simpl in H3; lia | reflexivity].
  - pose proof (no_disable_line_found file 1 (-1) fresh E eq_refl) as H1.
    destruct (parse_lines file 1 (-1) fresh) as [lineno s1]. simpl in H1.
    subst s1. reflexivity.
Qed.

(** *** One block, opened and closed *)

Lemma parse_lines_lineno (file : list string) (next lineno : Z)
  (self : DisablersFinder) :
  fst (parse_lines file next lineno self) =
  match file with
  | [] => lineno
  | _ => next + Z.of_nat (length file) - 1
  end.
Proof.
  revert next lineno self.
  induction file as [|x file IH]; intros next lineno self; [reflexivity|].
  rewrite parse_lines_cons, IH.
  destruct file as [|y file].
  - simpl. lia.
  - rewrite !length_cons, !Nat2Z.inj_succ. lia.
Qed.

Lemma start_block_fresh (key : string) (n : Z) :
  _start_block key n fresh = (tt, one_key key n []).
Proof.
  unfold _start_block, set_lastblock, bind, rules_getitem, one_key.
  simpl. rewrite !eqb_refl_true. simpl. rewrite ?eqb_refl_true.
  reflexivity.
Qed.

Lemma end_all_blocks_one_key (key : string) (marker n : Z)
  (bs : list (Z * Z)) :
  String.eqb key "all" = true ->
  _end_all_blocks n (one_key key marker bs) = (tt, one_key key marker bs).
Proof.
  intros H. unfold _end_all_blocks. simpl. rewrite H. reflexivity.
Qed.

(** Ending the open block of the one key records it and clears the
    marker, for a rule and for ["all"] alike. *)
Lemma end_block_one_key (key : string) (marker n : Z) (bs : list (Z * Z)) :
  marker <> -1 ->
  _end_block key n (one_key key marker bs) =
  (tt, one_key key (-1) (bs ++ [(marker, n)])%list).
Proof.
  intros Hm. apply Z.eqb_neq in Hm.
  unfold _end_block, _end_block_body, set_lastblock, blocks_append, bind,
    rules_contains, rules_getitem, one_key.
  simpl. repeat (progress (rewrite ?eqb_refl_true, ?Hm; simpl)).
  destruct (String.eqb key "all") eqn:E; [|reflexivity].
  unfold _end_all_blocks. simpl. rewrite E. reflexivity.
Qed.

(** Ending a block of the one key when none is open changes nothing. *)
Lemma end_block_one_key_closed (key : string) (n : Z) (bs : list (Z * Z)) :
  _end_block key n (one_key key (-1) bs) = (tt, one_key key (-1) bs).
Proof.
  unfold _end_block, _end_block_body, bind, rules_contains, rules_getitem,
    one_key.
  simpl. repeat (progress (rewrite ?eqb_refl_true; simpl)).
  destruct (String.eqb key "all") eqn:E; [|reflexivity].
  unfold _end_all_blocks. simpl. rewrite E. reflexivity.
Qed.

(** The end of the file, for a state with one key and no open block. *)
Lemma end_of_file_one_key (key : string) (lineno first last : Z) :
  1 <= first ->
  exec (_end_block "all" lineno ;;;
        fd <- _is_file_disabled lineno ;;
        set_file_disabled fd ;;;
        fun self => set_any_disabler (negb (length (rules self) =? 0)%nat) self)
    (one_key key (-1) [(first, last)]) =
  key_block key first last.
Proof.
  intros Hfirst. unfold exec. unfold bind at 1.
  assert (E : _end_block "all" lineno (one_key key (-1) [(first, last)]) =
              (tt, one_key key (-1) [(first, last)])).
  { destruct (String.eqb key "all") eqn:Ek.
    - apply String.eqb_eq in Ek. subst key. apply end_block_one_key_closed.
    - apply end_block_absent. simpl. rewrite Ek. reflexivity. }
  rewrite E.
  unfold _is_file_disabled, bind, rules_contains, rules_getitem, one_key.
  simpl.
  destruct (String.eqb key "all") eqn:Ek; simpl; [|reflexivity].
  rewrite Ek. simpl. unfold list_at. simpl.
  assert (Hne : bool_decide ((first, last) = (0, lineno)) = false).
  { apply bool_decide_eq_false. intros H. injection H as H _. lia. }
  rewrite Hne. reflexivity.
Qed.

Lemma end_of_file_open_all (lineno first : Z) :
  1 <= first ->
  exec (_end_block "all" lineno ;;;
        fd <- _is_file_disabled lineno ;;
        set_file_disabled fd ;;;
        fun self => set_any_disabler (negb (length (rules self) =? 0)%nat) self)
    (one_key "all" first []) =
  key_block "all" first lineno.
Proof.
  intros Hfirst. unfold exec. unfold bind at 1.
  rewrite end_block_one_key by lia. simpl app.
  unfold _is_file_disabled, bind, rules_contains, rules_getitem, one_key.
  simpl. unfold list_at. simpl.
  assert (Hne : bool_decide ((first, lineno) = (0, lineno)) = false).
  { apply bool_decide_eq_false. intros H. injection H as H. lia. }
  rewrite Hne. reflexivity.
Qed.

(** The disabler of a file whose only directives are a block [disable]
    and a later block [enable], both for [key]. *)
Lemma closed_block_state (before between after : list string)
  (l1 l2 key : string) :
  Forall (fun x => directive x = None) before ->
  Forall (fun x => directive x = None) between ->
  Forall (fun x => directive x = None) after ->
  directive l1 = Some (disable, [key], true) ->
  directive l2 = Some (enable, [key], true) ->
  DisablersFinder_init
    (Readable (before ++ l1 :: between ++ l2 :: after)) =
  key_block key (Z.of_nat (length before) + 1)
    (Z.of_nat (length before) + 1 + Z.of_nat (length between) + 1).
Proof.
  intros Hb Hm Ha Hl1 Hl2.
  rewrite DisablersFinder_init_Readable. unfold exec.
  unfold bind at 1.
  destruct (parse_lines_skip before (l1 :: between ++ l2 :: after) 1 (-1)
              fresh Hb) as [n1 E1].
  rewrite E1. rewrite parse_lines_cons.
  rewrite (directive_some_hash _ _ Hl1).
  unfold _parse_line at 1. rewrite Hl1.
  set (n := 1 + Z.of_nat (length before)).
  assert (Hs : exec (for_each [key] (fun rule => _start_block rule n)) fresh
               = one_key key n []).
  { unfold exec. simpl. unfold bind. rewrite start_block_fresh. reflexivity. }
  rewrite Hs.
  destruct (parse_lines_skip between (l2 :: after) (n + 1) n
              (one_key key n []) Hm) as [n2 E2].
  rewrite E2. rewrite parse_lines_cons.
  rewrite (directive_some_hash _ _ Hl2).
  unfold _parse_line at 1. rewrite Hl2.
  set (m := n + 1 + Z.of_nat (length between)).
  assert (Hs2 : exec (for_each [key] (fun rule => _end_block rule m))
                  (one_key key n [])
                = one_key key (-1) [(n, m)]).
  { unfold exec. simpl. unfold bind.
    rewrite end_block_one_key by (unfold n; lia). reflexivity. }
  rewrite Hs2.
  destruct (parse_lines_all_skipped after (m + 1) m
              (one_key key (-1) [(n, m)]) Ha) as [n3 E3].
  rewrite E3.
  replace (Z.of_nat (length before) + 1) with n by (unfold n; lia).
  replace (n + Z.of_nat (length between) + 1) with m by (unfold m; lia).
  apply end_of_file_one_key. unfold n. lia.
Qed.

Lemma shares_key_block (key : string) (first last : Z) :
  shares_containers (key_block key first last).
Proof. constructor; [split; reflexivity | constructor]. Qed.

Lemma query_key_block (key : string) (first last : Z) (msg : Msg) :
  eval (is_msg_disabled msg) (key_block key first last) =
  (String.eqb key "all" || String.eqb key (msg_id msg)
   || String.eqb key (name msg))
  && ((first <=? line msg) && (line msg <=? last)).
Proof.
  assert (Hc : forall k n,
            check_key k n (key_block key first last) =
            (String.eqb key k && ((first <=? n) && (n <=? last)),
             key_block key first last)).
  { intros k n. rewrite (check_key_shared _ _ _ (shares_key_block _ _ _)).
    unfold has_key, covered, key_block, set_at, list_at. simpl.
    rewrite not_in_empty_cell. simpl. rewrite orb_false_r.
    destruct (String.eqb key k); reflexivity. }
  unfold eval, is_msg_disabled. simpl any_disabler. simpl negb. cbv iota.
  unfold bind. rewrite Hc.
  destruct (String.eqb key "all"),
    ((first <=? line msg) && (line msg <=? last)) eqn:Er;
    simpl; try reflexivity;
    rewrite Hc, ?Er;
    destruct (String.eqb key (msg_id msg)); simpl; try reflexivity;
    rewrite Hc, ?Er;
    destruct (String.eqb key (name msg)); reflexivity.
Qed.

(** A block [disable] on line [L1] and a later block [enable] on line
    [L2], both for [key] and the only directives of the file: a finding is
    suppressed exactly when [key] is ["all"], its id or its name, and its
    line lies in [L1 .. L2], both ends included. *)
Theorem block_suppresses_its_range (before between after : list string)
  (l1 l2 key : string) (msg : Msg) :
  Forall (fun x => directive x = None) before ->
  Forall (fun x => directive x = None) between ->
  Forall (fun x => directive x = None) after ->
  directive l1 = Some (disable, [key], true) ->
  directive l2 = Some (enable, [key], true) ->
  let L1 := Z.of_nat (length before) + 1 in
  let L2 := L1 + Z.of_nat (length between) + 1 in
  eval (is_msg_disabled msg)
    (DisablersFinder_init
       (Readable (before ++ l1 :: between ++ l2 :: after))) =
  (String.eqb key "all" || String.eqb key (msg_id msg)
   || String.eqb key (name msg))
  && ((L1 <=? line msg) && (line msg <=? L2)).
Proof.
  intros Hb Hm Ha Hl1 Hl2 L1 L2.
  rewrite (closed_block_state before between after l1 l2 key Hb Hm Ha Hl1 Hl2).
  apply query_key_block.
Qed.

(** Lines 2 to 4 are disabled for all rules: a finding on line 3 is
    suppressed, whatever its rule. *)
Lemma block_suppresses_its_range_witness :
  eval (is_msg_disabled (mkMsg "0508" "line-too-long" 3))
    (DisablersFinder_init
       (Readable ["*** Test Cases ***"; "# robocop: disable"; "First";
                  "# robocop: enable"; "Second"])) = true.
Proof.
  exact (block_suppresses_its_range ["*** Test Cases ***"] ["First"]
           ["Second"] "# robocop: disable" "# robocop: enable" "all"
           (mkMsg "0508" "line-too-long" 3)
           ltac:(repeat constructor) ltac:(repeat constructor)
           ltac:(repeat constructor) ltac:(reflexivity) ltac:(reflexivity)).
Defined.

(** The disabler of a file whose only directive is a block [disable] for
    all rules: the block is closed on the last line of the file. *)
Lemma open_all_state (before after : list string) (l1 : string) :
  Forall (fun x => directive x = None) before ->
  Forall (fun x => directive x = None) after ->
  directive l1 = Some (disable, ["all"], true) ->
  DisablersFinder_init (Readable (before ++ l1 :: after)) =
  key_block "all" (Z.of_nat (length before) + 1)
    (Z.of_nat (length (before ++ l1 :: after))).
Proof.
  intros Hb Ha Hl1.
  rewrite DisablersFinder_init_Readable. unfold exec.
  unfold bind at 1.
  pose proof (parse_lines_lineno (before ++ l1 :: after) 1 (-1) fresh) as Hn.
  destruct (parse_lines_skip before (l1 :: after) 1 (-1) fresh Hb)
    as [n1 E1].
  rewrite E1 in *. rewrite parse_lines_cons in *.
  rewrite (directive_some_hash _ _ Hl1) in *.
  unfold _parse_line at 1. unfold _parse_line at 1 in Hn. rewrite Hl1 in *.
  set (n := 1 + Z.of_nat (length before)) in *.
  assert (Hs : exec (for_each ["all"] (fun rule => _start_block rule n)) fresh
               = one_key "all" n []).
  { unfold exec. unfold for_each, bind. rewrite start_block_fresh.
    reflexivity. }
  rewrite Hs in *.
  destruct (parse_lines_all_skipped after (n + 1) n (one_key "all" n []) Ha)
    as [n3 E3].
  rewrite E3 in *. simpl in Hn.
  assert (Hlast : n3 = Z.of_nat (length (before ++ l1 :: after))).
  { rewrite Hn. destruct (before ++ l1 :: after)%list eqn:E.
    - destruct before; discriminate.
    - lia. }
  rewrite <- Hlast.
  replace (Z.of_nat (length before) + 1) with n by (unfold n; lia).
  apply end_of_file_open_all. unfold n. lia.
Qed.

(** A block [disable] for all rules on line [L1] that no [enable]
    follows, as the only directive: every finding from line [L1] to the
    last line of the file is suppressed, and no other. *)
Theorem open_block_for_all_runs_to_the_last_line (before after : list string)
  (l1 : string) (msg : Msg) :
  Forall (fun x => directive x = None) before ->
  Forall (fun x => directive x = None) after ->
  directive l1 = Some (disable, ["all"], true) ->
  eval (is_msg_disabled msg)
    (DisablersFinder_init (Readable (before ++ l1 :: after))) =
  (Z.of_nat (length before) + 1 <=? line msg)
  && (line msg <=? Z.of_nat (length (before ++ l1 :: after))).
Proof.
  intros Hb Ha Hl1.
  rewrite (open_all_state before after l1 Hb Ha Hl1).
  rewrite query_key_block. reflexivity.
Qed.

Lemma open_block_for_all_runs_to_the_last_line_witness :
  eval (is_msg_disabled (mkMsg "0508" "line-too-long" 4))
    (DisablersFinder_init (Readable disabled_file)) = true.
Proof.
  exact (open_block_for_all_runs_to_the_last_line []
           ["*** Test Cases ***"; "First"; "    Log  1"]
           "# robocop: disable" (mkMsg "0508" "line-too-long" 4)
           ltac:(repeat constructor) ltac:(repeat constructor)
           ltac:(reflexivity)).
Defined.

(** *** Blocks lie within the file *)

Lemma within_mono (n m : Z) (self : DisablersFinder) :
  n <= m -> within n self -> within m self.
Proof.
  intros Hnm (Hb & Hr & Hf). split; [|split; [|exact Hf]].
  - intros l. eapply Forall_impl; [apply Hb|].
    intros b (H1 & H2 & H3). repeat split; lia.
  - eapply Forall_impl; [exact Hr|].
    intros item [H|H]; [left; exact H | right; lia].
Qed.

Lemma within_getitem (n : Z) (rule : string) :
  hoare (within n) (rules_getitem rule)
    (fun d self =>
       (within n self /\ assoc rule (rules self) = Some d) /\
       (lastblock d = -1 \/ (1 <= lastblock d /\ lastblock d <= n))).
Proof.
  intros self (Hb & Hr & Hf). unfold rules_getitem.
  destruct (assoc rule (rules self)) as [d|] eqn:E; simpl.
  - split; [split; [repeat split; assumption | exact E]|].
    exact (assoc_Forall
             (fun d => lastblock d = -1 \/
                       (1 <= lastblock d /\ lastblock d <= n))
             rule d _ Hr E).
  - split; [|left; exact Hf].
    split; [|apply assoc_app_new; exact E].
    split; [exact Hb|]. split; [|exact Hf].
    apply Forall_app. split; [exact Hr|].
    constructor; [left; exact Hf | constructor].
Qed.

Lemma within_getitem_weak (n : Z) (rule : string) :
  hoare (within n) (rules_getitem rule) (fun _ self => within n self).
Proof.
  eapply hoare_weaken; [apply within_getitem|].
  intros d self [[H _] _]. exact H.
Qed.

Lemma within_set_lastblock (n : Z) (rule : string) (v : Z) :
  v = -1 \/ (1 <= v /\ v <= n) ->
  hoare (within n) (set_lastblock rule v) (fun _ self => within n self).
Proof.
  intros Hv. eapply hoare_bind; [apply within_getitem_weak|].
  intros d self (Hb & Hr & Hf). simpl.
  split; [exact Hb|]. split; [|exact Hf].
  apply (assoc_set_Forall
           (fun d => lastblock d = -1 \/
                     (1 <= lastblock d /\ lastblock d <= n)));
    [exact Hv | exact Hr].
Qed.

Lemma within_lines_add (n : Z) (rule : string) (k : Z) :
  hoare (within n) (lines_add rule k) (fun _ self => within n self).
Proof.
  eapply hoare_bind; [apply within_getitem_weak|].
  intros d self (Hb & Hr & Hf). simpl.
  split; [exact Hb|]. split; [exact Hr | exact Hf].
Qed.

Lemma within_blocks_append (n : Z) (rule : string) (block : Z * Z) :
  1 <= fst block /\ fst block <= snd block /\ snd block <= n ->
  hoare (within n) (blocks_append rule block) (fun _ self => within n self).
Proof.
  intros Hblock. eapply hoare_bind; [apply within_getitem_weak|].
  intros d self (Hb & Hr & Hf). simpl.
  split; [|split; [exact Hr | exact Hf]].
  intros l. unfold list_at, list_append. simpl.
  rewrite list_lookup_total_insert. case_decide.
  - apply Forall_app. split; [apply Hb|].
    constructor; [exact Hblock|constructor].
  - apply Hb.
Qed.

Lemma within_start_block (rule : string) (n : Z) :
  1 <= n ->
  hoare (within n) (_start_block rule n) (fun _ self => within n self).
Proof.
  intros Hn. eapply hoare_bind; [apply within_getitem_weak|].
  intros d. destruct (lastblock d =? -1).
  - apply within_set_lastblock. right. lia.
  - apply hoare_ret.
Qed.

Lemma within_end_block_body (end_all : Z -> M unit) (rule : string) (n : Z) :
  hoare (within n) (end_all n) (fun _ self => within n self) ->
  hoare (within n) (_end_block_body end_all rule n)
    (fun _ self => within n self).
Proof.
  intros Hall. unfold _end_block_body.
  eapply hoare_bind with (Q := fun _ self => within n self).
  { intros self H. exact H. }
  intros present. destruct (negb present); [apply hoare_ret|].
  eapply hoare_bind; [apply within_getitem|].
  intros d. eapply hoare_bind with (Q := fun _ self => within n self).
  - apply hoare_pure. intros Hd.
    destruct (negb (lastblock d =? -1)) eqn:E.
    + assert (Hstart : 1 <= lastblock d /\ lastblock d <= n).
      { destruct Hd as [Hd|Hd]; [|exact Hd].
        rewrite Hd in E. discriminate. }
      eapply hoare_bind with (Q := fun d' self => within n self /\ d' = d).
      * intros self [H Ha]. rewrite (rules_getitem_present _ _ _ Ha).
        simpl. split; [exact H | reflexivity].
      * intros d'. apply hoare_pure. intros ->.
        eapply hoare_bind;
          [apply within_set_lastblock; left; reflexivity|].
        intros ?. apply within_blocks_append. simpl. lia.
    + intros self [H _]. exact H.
  - intros ?. destruct (String.eqb rule "all"); [apply Hall | apply hoare_ret].
Qed.

Lemma within_end_block (rule : string) (n : Z) :
  hoare (within n) (_end_block rule n) (fun _ self => within n self).
Proof.
  apply within_end_block_body. intros self. unfold _end_all_blocks.
  apply hoare_for_each. intros r.
  destruct (String.eqb r "all"); [apply hoare_ret|].
  apply within_end_block_body. apply hoare_ret.
Qed.

Lemma within_parse_line (line : string) (n : Z) :
  1 <= n ->
  hoare (within n) (_parse_line line n) (fun _ self => within n self).
Proof.
  intros Hn. unfold _parse_line.
  destruct (directive line) as [[[[|] rs] block]|]; [| |apply hoare_ret].
  - apply hoare_for_each. intros rule. destruct block.
    + apply within_start_block. exact Hn.
    + apply within_lines_add.
  - destruct block; [|apply hoare_ret].
    apply hoare_for_each. intros rule. apply within_end_block.
Qed.

Lemma within_parse_lines (file : list string) (next lineno : Z) :
  1 <= next ->
  hoare (within (next - 1)) (parse_lines file next lineno)
    (fun _ self => within (next - 1 + Z.of_nat (length file)) self).
Proof.
  revert next lineno.
  induction file as [|x file IH]; intros next lineno Hn.
  - simpl. intros self H. simpl.
    rewrite Nat2Z.inj_0, Z.add_0_r. exact H.
  - simpl parse_lines.
    eapply hoare_bind with (Q := fun _ self => within next self).
    + intros self H.
      assert (H' : within next self)
        by (apply (within_mono (next - 1)); [lia | exact H]).
      clear H. revert self H'.
      destruct (Py.contains "#" x);
        [apply within_parse_line; exact Hn | apply hoare_ret].
    + intros ? self H.
      pose proof (IH (next + 1) next ltac:(lia) self) as H2.
      replace (next + 1 - 1) with next in H2 by lia.
      specialize (H2 H).
      rewrite length_cons, Nat2Z.inj_succ.
      replace (next - 1 + Z.succ (Z.of_nat (length file)))
        with (next + Z.of_nat (length file)) by lia.
      exact H2.
Qed.

Lemma within_fresh (n : Z) : within n fresh.
Proof.
  split; [|split; [constructor | reflexivity]].
  intros [|[|l]]; constructor.
Qed.

(** For every file, each block the disabler records starts on a line of
    the file, ends on a line of the file and does not end before it
    starts; an open-block marker that is left is the number of a line of
    the file. *)
Theorem blocks_lie_within_the_file (file : list string) :
  within (Z.of_nat (length file)) (DisablersFinder_init (Readable file)).
Proof.
  destruct file as [|x file]; [exact (within_fresh 0)|].
  rewrite DisablersFinder_init_Readable. unfold exec.
  unfold bind at 1.
  pose proof (within_parse_lines (x :: file) 1 (-1) ltac:(lia) fresh
                (within_fresh 0)) as H1.
  pose proof (parse_lines_lineno (x :: file) 1 (-1) fresh) as Hn.
  destruct (parse_lines (x :: file) 1 (-1) fresh) as [lineno s1].
  simpl fst in *. simpl snd in *.
  assert (Hl : lineno = Z.of_nat (length (x :: file))) by (rewrite Hn; lia).
  replace (1 - 1 + Z.of_nat (length (x :: file))) with lineno in H1
    by (rewrite Hl; lia).
  rewrite <- Hl.
  unfold bind at 1.
  pose proof (within_end_block "all" lineno s1 H1) as H2.
  destruct (_end_block "all" lineno s1) as [[] s2]. simpl in H2.
  unfold _is_file_disabled, bind, rules_contains.
  destruct (assoc "all" (rules s2)) as [d|] eqn:E; simpl.
  - rewrite (rules_getitem_present _ _ _ E).
    destruct (list_at (blocks d) (heap s2)) as [|b [|b' l]]; exact H2.
  - exact H2.
Qed.

(** *** No block is left open once ["all"] is a key *)

Lemma assoc_set_same (rule : string) (v d : DisablersInFile)
  (l : list (string * DisablersInFile)) :
  assoc rule l = Some d -> assoc rule (assoc_set rule v l) = Some v.
Proof.
  induction l as [|[k w] l IH]; simpl; [discriminate|].
  destruct (String.eqb k rule) eqn:E; simpl; rewrite E; [reflexivity|exact IH].
Qed.

Lemma assoc_set_other (k rule : string) (v : DisablersInFile)
  (l : list (string * DisablersInFile)) :
  k <> rule -> assoc k (assoc_set rule v l) = assoc k l.
Proof.
  intros Hk. induction l as [|[k' w] l IH]; simpl; [reflexivity|].
  destruct (String.eqb k' rule) eqn:E; simpl.
  - apply String.eqb_eq in E. subst k'.
    rewrite (eqb_false_of_ne rule k) by congruence. reflexivity.
  - destruct (String.eqb k' k); [reflexivity | exact IH].
Qed.

Lemma assoc_in_keys (k : string) (d : DisablersInFile)
  (l : list (string * DisablersInFile)) :
  assoc k l = Some d -> In k (map fst l).
Proof.
  induction l as [|[k' w] l IH]; simpl; [discriminate|].
  destruct (String.eqb k' k) eqn:E.
  - apply String.eqb_eq in E. intros _. left. exact E.
  - intros H. right. exact (IH H).
Qed.

(** What ending a block does to [rules], the cascade apart. *)
Lemma end_block_first_part (end_all : Z -> M unit) (rule : string) (n : Z)
  (self : DisablersFinder) :
  exists s1,
    _end_block_body end_all rule n self =
      (if String.eqb rule "all"
       then (if has_key rule self then end_all n else ret tt) s1
       else (tt, s1)) /\
    closed rule s1 /\
    (forall k, closed k self -> closed k s1) /\
    (forall k, has_key k s1 = has_key k self).
Proof.
  unfold _end_block_body, bind, rules_contains, has_key.
  destruct (assoc rule (rules self)) as [d|] eqn:E; simpl.
  - rewrite (rules_getitem_present _ _ _ E).
    destruct (lastblock d =? -1) eqn:Em; simpl.
    + exists self. split; [destruct (String.eqb rule "all"); reflexivity|].
      split; [|split; [tauto | reflexivity]].
      intros d' Hd'. rewrite E in Hd'. injection Hd' as <-.
      apply Z.eqb_eq. exact Em.
    + rewrite (rules_getitem_present _ _ _ E).
      unfold set_lastblock, blocks_append, bind.
      rewrite (rules_getitem_present _ _ _ E). simpl.
      set (v := mkDisablersInFile (-1) (lines d) (blocks d)).
      set (s0 := mkDisablersFinder (file_disabled self) (any_disabler self)
                   (default_factory self) (assoc_set rule v (rules self))
                   (heap self)).
      assert (E0 : assoc rule (assoc_set rule v (rules self)) = Some v)
        by (apply (assoc_set_same rule v d); exact E).
      rewrite (rules_getitem_present rule s0 v E0). simpl.
      eexists. split; [destruct (String.eqb rule "all"); reflexivity|].
      simpl. split; [|split].
      * intros d' Hd'. unfold closed in *. simpl in Hd'.
        rewrite E0 in Hd'. injection Hd' as <-. reflexivity.
      * intros k Hk d' Hd'. simpl in Hd'.
        destruct (String.eqb_spec k rule) as [->|Hne].
        -- rewrite E0 in Hd'. injection Hd' as <-. reflexivity.
        -- rewrite (assoc_set_other k rule v _ Hne) in Hd'.
           exact (Hk d' Hd').
      * intros k. simpl.
        destruct (String.eqb_spec k rule) as [->|Hne].
        -- rewrite E0, E. reflexivity.
        -- rewrite (assoc_set_other k rule v _ Hne). reflexivity.
  - exists self. split; [destruct (String.eqb rule "all"); reflexivity|].
    split; [|split; [tauto | reflexivity]].
    intros d' Hd'. rewrite E in Hd'. discriminate.
Qed.

Lemma end_all_loop (keys : list string) (n : Z) :
  forall self,
    let s' := exec (for_each keys
                      (fun rule =>
                         if String.eqb rule "all" then ret tt
                         else _end_block_body (fun _ => ret tt) rule n)) self in
    (forall k, In k keys -> k <> "all" -> closed k s') /\
    (forall k, closed k self -> closed k s') /\
    (forall k, has_key k s' = has_key k self).
Proof.
  induction keys as [|r keys IH]; intros self; simpl.
  - split; [intros k []|]. split; [tauto | reflexivity].
  - unfold exec, bind.
    destruct (String.eqb r "all") eqn:Er.
    + simpl. destruct (IH self) as (H1 & H2 & H3). unfold exec in *.
      split; [|split; assumption].
      intros k [<-|Hin] Hne; [|apply H1; assumption].
      apply String.eqb_eq in Er. contradiction.
    + destruct (end_block_first_part (fun _ => ret tt) r n self)
        as (s1 & E & Hc & Hf & Hk).
      rewrite Er in E. rewrite E.
      destruct (IH s1) as (H1 & H2 & H3). unfold exec in *.
      split; [|split].
      * intros k [<-|Hin] Hne; [apply H2; exact Hc | apply H1; assumption].
      * intros k Hclosed. apply H2, Hf, Hclosed.
      * intros k. rewrite H3. apply Hk.
Qed.

Lemma end_block_all_closes (n : Z) (self : DisablersFinder) :
  has_key "all" self = true ->
  forall k, closed k (exec (_end_block "all" n) self).
Proof.
  intros Hall k. unfold exec, _end_block.
  destruct (end_block_first_part _end_all_blocks "all" n self)
    as (s1 & E & Hc & Hf & Hk).
  rewrite E. simpl. rewrite Hall.
  unfold _end_all_blocks.
  destruct (end_all_loop (map fst (rules s1)) n s1) as (H1 & H2 & H3).
  unfold exec in *.
  destruct (String.eqb_spec k "all") as [->|Hne]; [apply H2; exact Hc|].
  intros d Hd.
  assert (Hin : In k (map fst (rules s1))).
  { specialize (H3 k). unfold has_key in H3. rewrite Hd in H3.
    destruct (assoc k (rules s1)) as [d1|] eqn:E1; [|discriminate].
    exact (assoc_in_keys k d1 _ E1). }
  exact (H1 k Hin Hne d Hd).
Qed.

Lemma end_block_keeps_keys (rule : string) (n : Z) (self : DisablersFinder)
  (k : string) :
  has_key k (exec (_end_block rule n) self) = has_key k self.
Proof.
  unfold exec, _end_block.
  destruct (end_block_first_part _end_all_blocks rule n self)
    as (s1 & E & _ & _ & Hk).
  rewrite E.
  destruct (String.eqb rule "all"); [|simpl; apply Hk].
  destruct (has_key rule self); [|simpl; apply Hk].
  unfold _end_all_blocks.
  destruct (end_all_loop (map fst (rules s1)) n s1) as (_ & _ & H3).
  unfold exec in H3. rewrite H3. apply Hk.
Qed.

(** When ["all"] is a key of the disabler of a file (some directive
    disabled all rules), construction leaves no block open: the end of the
    file clears the open-block marker of every key. *)
Theorem no_block_left_open_when_all_is_a_key (file : list string)
  (k : string) :
  let d := DisablersFinder_init (Readable file) in
  has_key "all" d = true -> closed k d.
Proof.
  intros d.
  assert (Hr : forall lineno s,
            rules (snd ((fd <- _is_file_disabled lineno ;;
                         set_file_disabled fd ;;;
                         fun self =>
                           set_any_disabler
                             (negb (length (rules self) =? 0)%nat) self) s))
            = rules s).
  { intros lineno s. unfold _is_file_disabled, bind, rules_contains.
    destruct (assoc "all" (rules s)) as [d0|] eqn:E; simpl; [|reflexivity].
    rewrite (rules_getitem_present _ _ _ E).
    destruct (list_at (blocks d0) (heap s)) as [|b [|b' l]]; reflexivity. }
  assert (Hd : exists lineno s1,
            rules d = rules (exec (_end_block "all" lineno) s1)).
  { unfold d. rewrite DisablersFinder_init_Readable. unfold exec.
    unfold bind at 1.
    destruct (parse_lines file 1 (-1) fresh) as [lineno s1].
    exists lineno, s1. unfold bind at 1.
    destruct (_end_block "all" lineno s1) as [[] s2]. apply Hr. }
  destruct Hd as (lineno & s1 & Hd).
  unfold has_key, closed. rewrite Hd. intros Hall.
  apply (end_block_all_closes lineno s1).
  pose proof (end_block_keeps_keys "all" lineno s1 "all") as Hkeys.
  unfold has_key in *. rewrite <- Hkeys. exact Hall.
Qed.

Lemma no_block_left_open_when_all_is_a_key_witness :
  closed "ruleA"
    (DisablersFinder_init
       (Readable ["# robocop: disable=ruleA"; "First";
                  "    Log  1  # robocop: disable=all"; "Second"])).
Proof.
  exact (no_block_left_open_when_all_is_a_key
           ["# robocop: disable=ruleA"; "First";
            "    Log  1  # robocop: disable=all"; "Second"]
           "ruleA" ltac:(reflexivity)).
Defined.

End DisablersFacts.

(* ===================================================================== *)
(** ** Properties of the reports *)
(* ===================================================================== *)

Module ReportsFacts.
Import Reports.

(** C5, on the code.  After six findings of three rules the report lists
    one line per rule, by descending count, but the width the messages are
    padded to is the length of the message that is greatest in the order
    of strings, 21 here, not that of the longest message, 28: the longest
    message is not padded and its count stands in another column. *)
Theorem rules_by_id_width_is_not_the_longest_name :
  let r := foldl (fun r m => RulesByIdReport.add_message m r)
             RulesByIdReport.init six_findings in
  RulesByIdReport.message_counter r =
    [("W0508 (line-too-long)", 2%nat);
     ("E0801 (duplicated-test-case)", 3%nat);
     ("I0201 (missing-doc)", 1%nat)] /\
  RulesByIdReport.get_report r =
    nl +:+ "Issues by ids:" +:+ nl +:+
    "E0801 (duplicated-test-case) : 3" +:+ nl +:+
    "W0508 (line-too-long) : 2" +:+ nl +:+
    "I0201 (missing-doc)   : 1".
Proof. vm_compute. split; reflexivity. Qed.

(** *** Counting *)

Lemma count_of_increment {K} `{EqDecision K} (key k : K)
  (counter : list (K * nat)) :
  count_of key (increment k counter) =
  if decide (k = key) then S (count_of key counter) else count_of key counter.
Proof.
  induction counter as [|[k0 n] counter IH]; simpl.
  - destruct (decide (k = key)); reflexivity.
  - destruct (decide (k0 = k)) as [->|Hne]; simpl.
    + destruct (decide (k = key)); reflexivity.
    + destruct (decide (k0 = key)) as [->|Hne'].
      * destruct (decide (k = key)); [congruence | reflexivity].
      * exact IH.
Qed.

Lemma total_increment {K} `{EqDecision K} (k : K) (counter : list (K * nat)) :
  total (increment k counter) = S (total counter).
Proof.
  unfold total. induction counter as [|[k0 n] counter IH]; simpl.
  - reflexivity.
  - destruct (decide (k0 = k)); simpl; [reflexivity|].
    rewrite IH. lia.
Qed.

Lemma keys_increment {K} `{EqDecision K} (k : K) (counter : list (K * nat)) :
  (In k (map fst counter) /\
   map fst (increment k counter) = map fst counter) \/
  (~ In k (map fst counter) /\
   map fst (increment k counter) = (map fst counter ++ [k])%list).
Proof.
  induction counter as [|[k0 n] counter IH]; simpl.
  - right. split; [tauto | reflexivity].
  - destruct (decide (k0 = k)) as [->|Hne]; simpl.
    + left. split; [left; reflexivity | reflexivity].
    + destruct IH as [[Hin Heq]|[Hnin Heq]]; rewrite Heq.
      * left. split; [right; exact Hin | reflexivity].
      * right. split; [|reflexivity].
        intros [Hk|Hin]; [exact (Hne Hk) | exact (Hnin Hin)].
Qed.

Lemma keys_increment_NoDup {K} `{EqDecision K} (k : K)
  (counter : list (K * nat)) :
  NoDup (map fst counter) -> NoDup (map fst (increment k counter)).
Proof.
  intros H. destruct (keys_increment k counter) as [[_ Heq]|[Hnin Heq]];
    rewrite Heq; [exact H|].
  apply NoDup_app. split; [exact H|]. split.
  - intros x Hx Hxk. apply list_elem_of_singleton in Hxk. subst x.
    apply Hnin. apply list_elem_of_In. exact Hx.
  - apply NoDup_singleton.
Qed.

Lemma by_id_from (messages : list Message) (r : RulesByIdReport.t)
  (key : string) :
  let r' := foldl (fun r m => RulesByIdReport.add_message m r) r messages in
  count_of key (RulesByIdReport.message_counter r') =
    (count_of key (RulesByIdReport.message_counter r)
     + length (filter (fun m => get_fullname m = key) messages))%nat /\
  total (RulesByIdReport.message_counter r') =
    (total (RulesByIdReport.message_counter r) + length messages)%nat /\
  (NoDup (map fst (RulesByIdReport.message_counter r)) ->
   NoDup (map fst (RulesByIdReport.message_counter r'))).
Proof.
  revert r. induction messages as [|m messages IH]; intros r; simpl.
  - repeat split; [lia | lia | tauto].
  - destruct (IH (RulesByIdReport.add_message m r)) as (H1 & H2 & H3).
    simpl in *. rewrite H1, H2.
    unfold RulesByIdReport.add_message. simpl.
    rewrite count_of_increment, total_increment, filter_cons.
    repeat split.
    + destruct (decide (get_fullname m = key)); simpl; lia.
    + lia.
    + intros Hn. apply H3. unfold RulesByIdReport.add_message. simpl.
      apply keys_increment_NoDup. exact Hn.
Qed.

(** After any list of accepted findings, the count the by-rule report
    holds for a full identifier is the number of findings with that
    identifier, the counts add up to the number of findings, and no
    identifier is listed twice. *)
Theorem rules_by_id_counts_findings (messages : list Message) (key : string) :
  let counter := RulesByIdReport.message_counter (by_id_after messages) in
  count_of key counter =
    length (filter (fun m => get_fullname m = key) messages) /\
  total counter = length messages /\
  NoDup (map fst counter).
Proof.
  destruct (by_id_from messages RulesByIdReport.init key) as (H1 & H2 & H3).
  simpl in *. repeat split.
  - exact H1.
  - exact H2.
  - apply H3. constructor.
Qed.

Lemma by_severity_total_from (messages : list Message)
  (r : RulesBySeverityReport.t) :
  total (RulesBySeverityReport.severity_counter
           (foldl (fun r m => RulesBySeverityReport.add_message m r) r
              messages)) =
  (total (RulesBySeverityReport.severity_counter r) + length messages)%nat.
Proof.
  revert r. induction messages as [|m messages IH]; intros r; simpl; [lia|].
  rewrite IH. unfold RulesBySeverityReport.add_message. simpl.
  rewrite total_increment. lia.
Qed.

(** The by-severity report counts every accepted finding once, and it
    renders [Found 0 issues] exactly when no finding was accepted. *)
Theorem rules_by_severity_counts_findings (messages : list Message) :
  total (RulesBySeverityReport.severity_counter (by_severity_after messages))
    = length messages /\
  (RulesBySeverityReport.get_report (by_severity_after messages)
     = "Found 0 issues" <-> messages = []).
Proof.
  pose proof (by_severity_total_from messages RulesBySeverityReport.init) as H.
  simpl in H. fold (by_severity_after messages) in H.
  split; [exact H|].
  unfold RulesBySeverityReport.get_report.
  fold (total (RulesBySeverityReport.severity_counter
                 (by_severity_after messages))).
  rewrite H.
  destruct messages as [|m messages]; simpl.
  - split; reflexivity.
  - split; [|discriminate]. unfold nl. simpl. discriminate.
Qed.

(** *** The order of the rows *)

Lemma insert_desc_perm (x : string * nat) (l : list (string * nat)) :
  Permutation (RulesByIdReport.insert_desc x l) (x :: l).
Proof.
  induction l as [|y l IH]; simpl; [reflexivity|].
  destruct (snd y <=? snd x)%nat; [reflexivity|].
  rewrite IH. apply perm_swap.
Qed.

Lemma insert_desc_sorted (x : string * nat) (l : list (string * nat)) :
  Sorted.StronglySorted (fun a b => (snd b <= snd a)%nat) l ->
  Sorted.StronglySorted (fun a b => (snd b <= snd a)%nat)
    (RulesByIdReport.insert_desc x l).
Proof.
  induction 1 as [|y l Hs IH Hy]; simpl.
  - constructor; constructor.
  - destruct (snd y <=? snd x)%nat eqn:E.
    + apply Nat.leb_le in E. constructor.
      * constructor; assumption.
      * constructor; [exact E|].
        eapply Forall_impl; [exact Hy|]. intros b Hb. simpl in *. lia.
    + apply Nat.leb_gt in E. constructor; [exact IH|].
      rewrite (insert_desc_perm x l). constructor; [simpl; lia | exact Hy].
Qed.

Lemma insert_desc_filter (c : nat) (x : string * nat)
  (l : list (string * nat)) :
  filter (fun item => snd item = c) (RulesByIdReport.insert_desc x l) =
  filter (fun item => snd item = c) (x :: l).
Proof.
  induction l as [|y l IH]; simpl; [reflexivity|].
  destruct (snd y <=? snd x)%nat eqn:E; [reflexivity|].
  apply Nat.leb_gt in E.
  rewrite (filter_cons _ y), IH, !filter_cons.
  destruct (decide (snd y = c)), (decide (snd x = c)); try reflexivity.
  lia.
Qed.

(** The rows of the by-rule report are the items of the counter, each
    once, by non-increasing count; items with the same count stay in the
    order in which their rules were first counted. *)
Theorem rows_are_sorted_by_descending_count (counter : list (string * nat)) :
  Permutation (RulesByIdReport.sorted_desc counter) counter /\
  Sorted.StronglySorted (fun a b => (snd b <= snd a)%nat)
    (RulesByIdReport.sorted_desc counter) /\
  forall c,
    filter (fun item => snd item = c) (RulesByIdReport.sorted_desc counter) =
    filter (fun item => snd item = c) counter.
Proof.
  unfold RulesByIdReport.sorted_desc.
  induction counter as [|x counter (Hp & Hs & Hf)]; simpl.
  - repeat split; constructor.
  - split; [|split].
    + rewrite insert_desc_perm. constructor. exact Hp.
    + apply insert_desc_sorted. exact Hs.
    + intros c. rewrite insert_desc_filter, !filter_cons, Hf. reflexivity.
Qed.

End ReportsFacts.

(* ===================================================================== *)
(** ** Properties of the linter *)
(* ===================================================================== *)

Module RunFacts.
Import Run.

(** *** The report filter *)

(** [report] asks the disabler for [is_rule_disabled], which
    [DisablersFinder] does not define: an enabled finding ends the run. *)
Lemma report_enabled_raises (rule_msg : RuleMsg.t) (self : Robocop)
  (d : Disablers.DisablersFinder) :
  RuleMsg.enabled rule_msg = true ->
  disabler self = Some d ->
  report rule_msg self = Raise (AttributeError "DisablersFinder" "is_rule_disabled").
Proof.
  intros He Hd. unfold report, report_via, bind, disabler_call, bind, get.
  rewrite He. simpl. rewrite Hd. reflexivity.
Qed.

(** C4, on the code.  [a.robot] is scanned as a general file, then
    [b.robot], which imports it, turns it into a resource file; the re-scan
    makes the parsing-error checker emit a finding on line 2 of [a.robot].
    [run_checks_on_files_with_type_changed] registers no disabler, so the
    filter still holds the disabler of [b.robot], the last file of the
    first pass.  Read as written, [report] ends the run with an
    [AttributeError]; with the query under the name that [DisablersFinder]
    defines, the finding is reported although the directives of
    [a.robot] disable it. *)
Theorem rescan_finding_is_filtered_by_the_last_file :
  let setup :=
    register_checker ParsingErrorChecker ;;> load_reports in
  let self := init (all_enabled ["rules_by_id"] []) in
  (setup ;;> run_checks project) self =
    Raise (AttributeError "DisablersFinder" "is_rule_disabled") /\
  Disablers.eval (Disablers.is_msg_disabled (as_msg parsing_error))
    (Disablers.DisablersFinder_init (read project a_robot)) = true /\
  out <$> final ((setup ;;>
                  run_checks_with (report_via "is_msg_disabled") project) self)
    = Some [Logged parsing_error] /\
  disabler <$> final ((setup ;;>
                  run_checks_with (report_via "is_msg_disabled") project) self)
    = Some (Some (Disablers.DisablersFinder_init (read project b_robot))).
Proof. vm_compute. repeat split. Qed.

(** *** Registering checkers *)

Lemma register_rule_unfold (this : ref) (item : string * Rule.t)
  (self : Robocop) :
  register_rule this item self =
  match rules self !! fst item with
  | Some (_, checker_prev) =>
      Raise (DuplicatedRuleError "name" (fst item) this checker_prev)
  | None =>
      match rules self !! Rule.rule_id (snd item) with
      | Some (_, checker_prev) =>
          Raise (DuplicatedRuleError "id" (Rule.rule_id (snd item)) this
                   checker_prev)
      | None =>
          Ok (tt,
              with_rules
                (<[Rule.rule_id (snd item) := (snd item, this)]>
                   (<[fst item := (snd item, this)]> (rules self))) self)
      end
  end.
Proof.
  unfold register_rule, bind, get.
  destruct (rules self !! fst item) as [[r c]|]; [reflexivity|].
  destruct (rules self !! Rule.rule_id (snd item)) as [[r c]|]; reflexivity.
Qed.

(** The loop of [register_checker] raises as soon as a key of one of the
    remaining rules is in the registry; the checker it names is the one
    the registry holds for the key: a checker registered before, or the
    one being registered when an earlier rule of its own took the key. *)
Lemma register_rules_raise (base : gmap string (Rule.t * ref)) (this : ref)
  (items : list (string * Rule.t)) :
  forall cur : Robocop,
    (forall k r c, rules cur !! k = Some (r, c) ->
                   base !! k = Some (r, c) \/ c = this) ->
    Exists (fun item => is_Some (rules cur !! fst item) \/
                        is_Some (rules cur !! Rule.rule_id (snd item))) items ->
    exists rule_type key checker_prev,
      for_each items (register_rule this) cur =
        Raise (DuplicatedRuleError rule_type key this checker_prev) /\
      ((exists r, base !! key = Some (r, checker_prev)) \/ checker_prev = this).
Proof.
  induction items as [|item items IH]; intros cur Hinv Hex.
  - inversion Hex.
  - simpl. unfold bind at 1. rewrite register_rule_unfold.
    destruct (rules cur !! fst item) as [[r c]|] eqn:E1.
    { exists "name", (fst item), c. split; [reflexivity|].
      destruct (Hinv _ _ _ E1) as [H|H]; [left; eauto | right; exact H]. }
    destruct (rules cur !! Rule.rule_id (snd item)) as [[r c]|] eqn:E2.
    { exists "id", (Rule.rule_id (snd item)), c. split; [reflexivity|].
      destruct (Hinv _ _ _ E2) as [H|H]; [left; eauto | right; exact H]. }
    apply IH.
    + intros k r c. simpl. rewrite !lookup_insert.
      repeat case_decide; intros Hk.
      * injection Hk as _ <-. right; reflexivity.
      * injection Hk as _ <-. right; reflexivity.
      * apply Hinv. exact Hk.
    + apply Exists_cons in Hex. destruct Hex as [[H|H]|Hex].
      * rewrite E1 in H. destruct H as [? H]. discriminate.
      * rewrite E2 in H. destruct H as [? H]. discriminate.
      * apply Exists_exists in Hex. destruct Hex as [it [Hin Hit]].
        apply Exists_exists. exists it. split; [exact Hin|]. simpl.
        rewrite !lookup_insert. destruct Hit as [H|H]; [left|right];
          repeat case_decide; eauto.
Qed.

(** When the loop ends without raising, every rule is in the registry
    under its name and under its id, with the checker being registered,
    and the entries the registry had are kept. *)
Lemma register_rules_ok (this : ref) (items : list (string * Rule.t)) :
  forall cur cur' : Robocop,
    for_each items (register_rule this) cur = Ok (tt, cur') ->
    (forall k v, rules cur !! k = Some v -> rules cur' !! k = Some v) /\
    (forall item, In item items ->
       rules cur' !! fst item = Some (snd item, this) /\
       rules cur' !! Rule.rule_id (snd item) = Some (snd item, this)) /\
    checkers cur' = checkers cur /\ objs cur' = objs cur.
Proof.
  induction items as [|item items IH]; intros cur cur' H.
  - simpl in H. unfold ret in H. injection H as <-.
    split; [intros k v Hk; exact Hk|].
    split; [intros item []|].
    split; reflexivity.
  - simpl in H. unfold bind at 1 in H. rewrite register_rule_unfold in H.
    destruct (rules cur !! fst item) as [[r c]|] eqn:E1; [discriminate|].
    destruct (rules cur !! Rule.rule_id (snd item)) as [[r c]|] eqn:E2;
      [discriminate|].
    apply IH in H. destruct H as (Hext & Hall & Hc & Ho). simpl in *.
    split; [|split; [|split; [exact Hc | exact Ho]]].
    + intros k v Hk. apply Hext. rewrite !lookup_insert.
      repeat case_decide; subst; congruence.
    + intros it [<-|Hin]; [|apply Hall; exact Hin].
      split.
      * apply Hext. rewrite !lookup_insert. repeat case_decide; congruence.
      * apply Hext. rewrite lookup_insert_eq. reflexivity.
Qed.

(** The rules of a checker as [register_checker] stores them: each with
    its [enabled] flag set from the configuration. *)
Lemma registered_rules_map (config : Config.t) (checker : Checker.t) :
  Checker.rules_map (registered config checker) =
  map (fun item : string * Rule.t =>
         (fst item,
          Rule.set_enabled (Config.is_rule_enabled config (snd item))
            (snd item)))
    (Checker.rules_map checker).
Proof.
  unfold registered, any_rule_enabled.
  destruct (negb _); reflexivity.
Qed.

Lemma register_checker_unfold (checker : Checker.t) (self : Robocop) :
  register_checker checker self =
  match for_each (Checker.rules_map (registered (config self) checker))
          (register_rule (length (objs self)))
          (with_objs (objs self ++ [registered (config self) checker])%list self)
  with
  | Ok (_, self') =>
      Ok (tt, with_checkers (checkers self' ++ [length (objs self)])%list self')
  | Raise e => Raise e
  end.
Proof.
  unfold register_checker, registered, any_rule_enabled, bind, get, modify.
  simpl.
  destruct (for_each _ _ _) as [[[] s']|e]; reflexivity.
Qed.

(** A rule whose name or id is taken makes [register_checker] raise. *)
Lemma register_checker_taken (self : Robocop) (checker : Checker.t) :
  Exists (fun item => is_Some (rules self !! fst item) \/
                      is_Some (rules self !! Rule.rule_id (snd item)))
    (Checker.rules_map checker) ->
  exists rule_type key checker_prev,
    register_checker checker self =
      Raise (DuplicatedRuleError rule_type key (length (objs self))
               checker_prev) /\
    ((exists r, rules self !! key = Some (r, checker_prev)) \/
     checker_prev = length (objs self)).
Proof.
  intros Hex. rewrite register_checker_unfold.
  destruct (register_rules_raise (rules self) (length (objs self))
              (Checker.rules_map (registered (config self) checker))
              (with_objs (objs self ++ [registered (config self) checker])%list
                 self))
    as (rule_type & key & prev & Hraise & Hprev).
  - intros k r c Hk. left. exact Hk.
  - rewrite registered_rules_map. apply Exists_exists in Hex.
    destruct Hex as [item [Hin Hitem]]. apply Exists_exists.
    exists (fst item,
            Rule.set_enabled (Config.is_rule_enabled (config self) (snd item))
              (snd item)).
    split; [|exact Hitem].
    apply list_elem_of_In.
    apply (in_map (fun item : string * Rule.t =>
                     (fst item,
                      Rule.set_enabled
                        (Config.is_rule_enabled (config self) (snd item))
                        (snd item)))).
    apply list_elem_of_In. exact Hin.
  - exists rule_type, key, prev. rewrite Hraise. split; [reflexivity|exact Hprev].
Qed.

(** A registration that ends without raising stores the checker and puts
    each of its rules in the registry under its name and under its id. *)
Lemma register_checker_done (self self' : Robocop) (checker : Checker.t) :
  register_checker checker self = Ok (tt, self') ->
  checkers self' = (checkers self ++ [length (objs self)])%list /\
  objs self' !! length (objs self) = Some (registered (config self) checker) /\
  (forall k v, rules self !! k = Some v -> rules self' !! k = Some v) /\
  forall item, In item (Checker.rules_map (registered (config self) checker)) ->
    rules self' !! fst item = Some (snd item, length (objs self)) /\
    rules self' !! Rule.rule_id (snd item) = Some (snd item, length (objs self)).
Proof.
  rewrite register_checker_unfold.
  destruct (for_each _ _ _) as [[[] s']|e] eqn:E; [|discriminate].
  intros H. injection H as <-.
  apply register_rules_ok in E. destruct E as (Hext & Hall & Hc & Ho).
  simpl in *.
  split; [rewrite Hc; reflexivity|].
  split; [rewrite Ho; apply list_lookup_middle; reflexivity|].
  split; [exact Hext | exact Hall].
Qed.

Lemma register_rules_frame (this : ref) (items : list (string * Rule.t)) :
  forall cur cur' : Robocop,
    for_each items (register_rule this) cur = Ok (tt, cur') ->
    config cur' = config cur /\
    forall key rule c,
      rules cur' !! key = Some (rule, c) ->
      rules cur !! key = Some (rule, c) \/
      (c = this /\
       exists name, In (name, rule) items /\
                    (key = name \/ key = Rule.rule_id rule)).
Proof.
  induction items as [|item items IH]; intros cur cur' H.
  - simpl in H. unfold ret in H. injection H as <-.
    split; [reflexivity|]. intros key rule c Hk. left. exact Hk.
  - simpl in H. unfold bind at 1 in H. rewrite register_rule_unfold in H.
    destruct (rules cur !! fst item) as [[r c]|] eqn:E1; [discriminate|].
    destruct (rules cur !! Rule.rule_id (snd item)) as [[r c]|] eqn:E2;
      [discriminate|].
    apply IH in H. destruct H as (Hc & Hk). simpl in *.
    split; [exact Hc|].
    intros key rule c Hl.
    destruct (Hk key rule c Hl) as [Hold|(-> & name & Hin & Hor)].
    + rewrite !lookup_insert in Hold. destruct item as [name0 rule0].
      simpl in *. repeat case_decide.
      * injection Hold as <- <-. right. split; [reflexivity|].
        exists name0. split; [left; reflexivity | right; congruence].
      * injection Hold as <- <-. right. split; [reflexivity|].
        exists name0. split; [left; reflexivity | left; congruence].
      * left. exact Hold.
    + right. split; [reflexivity|]. exists name.
      split; [right; exact Hin | exact Hor].
Qed.

(** A loop over the rules that raises does so at one rule, after the
    rules before it were registered. *)
Lemma register_rules_raise_inv (this : ref) (items : list (string * Rule.t)) :
  forall (cur : Robocop) (e : exn),
    for_each items (register_rule this) cur = Raise e ->
    exists before item after cur1,
      items = (before ++ item :: after)%list /\
      for_each before (register_rule this) cur = Ok (tt, cur1) /\
      register_rule this item cur1 = Raise e.
Proof.
  induction items as [|item items IH]; intros cur e H; [discriminate|].
  simpl in H. unfold bind at 1 in H.
  destruct (register_rule this item cur) as [[[] c1]|e1] eqn:E.
  - destruct (IH c1 e H) as (before & it & after & cur1 & -> & Hb & Hr).
    exists (item :: before), it, after, cur1.
    split; [reflexivity|]. split; [|exact Hr].
    simpl. unfold bind at 1. rewrite E. exact Hb.
  - injection H as ->. exists [], item, items, cur.
    split; [reflexivity|]. split; [reflexivity | exact E].
Qed.

(** The rules a loop registered were not in the registry before it. *)
Lemma register_rules_were_free (this : ref) (items : list (string * Rule.t)) :
  forall cur cur' : Robocop,
    for_each items (register_rule this) cur = Ok (tt, cur') ->
    Forall (fun item => rules cur !! fst item = None /\
                        rules cur !! Rule.rule_id (snd item) = None) items.
Proof.
  induction items as [|item items IH]; intros cur cur' H; [constructor|].
  simpl in H. unfold bind at 1 in H. rewrite register_rule_unfold in H.
  destruct (rules cur !! fst item) as [[r c]|] eqn:E1; [discriminate|].
  destruct (rules cur !! Rule.rule_id (snd item)) as [[r c]|] eqn:E2;
    [discriminate|].
  constructor; [split; assumption|].
  apply IH in H. simpl in H.
  eapply Forall_impl; [exact H|]. intros it [H1 H2].
  rewrite !lookup_insert in H1, H2.
  repeat case_decide; try discriminate. split; assumption.
Qed.

(** What the loop over the rules raises: the error reports the name, or
    else the id, of the first rule in turn whose name or id is taken, and
    the checker the registry holds for that key, which is the owner the
    key had before the loop or, for a key that was free then, the checker
    being registered, one of whose earlier rules took it. *)
Lemma register_rules_payload (this : ref) (items : list (string * Rule.t))
  (cur : Robocop) (e : exn) :
  for_each items (register_rule this) cur = Raise e ->
  exists before item after rule_type key checker_prev,
    items = (before ++ item :: after)%list /\
    e = DuplicatedRuleError rule_type key this checker_prev /\
    Forall (fun earlier =>
              rules cur !! fst earlier = None /\
              rules cur !! Rule.rule_id (snd earlier) = None) before /\
    ((rule_type = "name" /\ key = fst item) \/
     (rule_type = "id" /\ key = Rule.rule_id (snd item) /\
      rules cur !! fst item = None)) /\
    ((exists r, rules cur !! key = Some (r, checker_prev)) \/
     (rules cur !! key = None /\ checker_prev = this /\
      exists earlier,
        In earlier before /\
        (key = fst earlier \/ key = Rule.rule_id (snd earlier)))).
Proof.
  intros H. apply register_rules_raise_inv in H.
  destruct H as (before & item & after & cur1 & -> & Hb & Hr).
  pose proof (register_rules_ok _ _ _ _ Hb) as (Hext & _ & _ & _).
  pose proof (register_rules_frame _ _ _ _ Hb) as (_ & Hk).
  pose proof (register_rules_were_free _ _ _ _ Hb) as Hfree.
  assert (Hown : forall key r prev,
            rules cur1 !! key = Some (r, prev) ->
            (exists r0, rules cur !! key = Some (r0, prev)) \/
            (rules cur !! key = None /\ prev = this /\
             exists earlier,
               In earlier before /\
               (key = fst earlier \/ key = Rule.rule_id (snd earlier)))).
  { intros key r prev Hl.
    destruct (rules cur !! key) as [[r0 p0]|] eqn:Ec.
    - left. apply Hext in Ec. rewrite Ec in Hl. injection Hl as <- <-.
      exists r0. reflexivity.
    - right. split; [reflexivity|].
      destruct (Hk key r prev Hl) as [Hold|(-> & name & Hin & Hor)];
        [rewrite Ec in Hold; discriminate|].
      split; [reflexivity|]. exists (name, r). split; [exact Hin|exact Hor]. }
  rewrite register_rule_unfold in Hr.
  destruct (rules cur1 !! fst item) as [[r prev]|] eqn:E1.
  - injection Hr as <-.
    exists before, item, after, "name", (fst item), prev.
    split; [reflexivity|]. split; [reflexivity|]. split; [exact Hfree|].
    split; [left; split; reflexivity|]. exact (Hown _ _ _ E1).
  - destruct (rules cur1 !! Rule.rule_id (snd item)) as [[r prev]|] eqn:E2;
      [|discriminate].
    injection Hr as <-.
    exists before, item, after, "id", (Rule.rule_id (snd item)), prev.
    split; [reflexivity|]. split; [reflexivity|]. split; [exact Hfree|].
    split; [|exact (Hown _ _ _ E2)].
    right. split; [reflexivity|]. split; [reflexivity|].
    destruct (rules cur !! fst item) as [v|] eqn:Ec; [|reflexivity].
    apply Hext in Ec. rewrite Ec in E1. discriminate.
Qed.

(** The same for [register_checker], read on the rules the checker
    declares. *)
Lemma register_checker_payload (self : Robocop) (checker : Checker.t)
  (e : exn) :
  register_checker checker self = Raise e ->
  exists before item after rule_type key checker_prev,
    Checker.rules_map checker = (before ++ item :: after)%list /\
    e = DuplicatedRuleError rule_type key (length (objs self)) checker_prev /\
    Forall (fun earlier =>
              rules self !! fst earlier = None /\
              rules self !! Rule.rule_id (snd earlier) = None) before /\
    ((rule_type = "name" /\ key = fst item) \/
     (rule_type = "id" /\ key = Rule.rule_id (snd item) /\
      rules self !! fst item = None)) /\
    ((exists r, rules self !! key = Some (r, checker_prev)) \/
     (rules self !! key = None /\ checker_prev = length (objs self) /\
      exists earlier,
        In earlier before /\
        (key = fst earlier \/ key = Rule.rule_id (snd earlier)))).
Proof.
  rewrite register_checker_unfold.
  destruct (for_each _ _ _) as [[[] s']|e'] eqn:E; [discriminate|].
  intros H. injection H as ->.
  apply register_rules_payload in E.
  destruct E as (before' & item' & after' & rule_type & key & prev &
                 Hsplit & -> & Hfree & Hkey & Hprev).
  simpl in Hfree, Hkey, Hprev.
  rewrite registered_rules_map in Hsplit.
  apply map_eq_app in Hsplit.
  destruct Hsplit as (before & rest & Hmap & <- & Hrest).
  destruct rest as [|item after]; [discriminate|].
  simpl in Hrest. injection Hrest as <- _.
  simpl in Hkey.
  exists before, item, after, rule_type, key, prev.
  split; [exact Hmap|]. split; [reflexivity|]. split; [|split].
  - apply Forall_map in Hfree. exact Hfree.
  - exact Hkey.
  - destruct Hprev as [Hreg|(Hnone & -> & earlier & Hin & Hor)];
      [left; exact Hreg|].
    right. split; [exact Hnone|]. split; [reflexivity|].
    apply in_map_iff in Hin. destruct Hin as (it & <- & Hin).
    exists it. split; [exact Hin | exact Hor].
Qed.

(** C7.  [register_checker] raises [DuplicatedRuleError] whenever a rule
    of the checker has a name or an id that is in the registry.  The error
    carries the checker being registered and reports the name, or else the
    id, of the first of its rules in turn whose name or id is taken,
    together with the checker that registered that key: the one the
    registry held for the key before the call or, for a key that was free
    then, the checker itself, one of whose earlier rules took it.  When it
    does not raise, the checker is appended to the checkers and each of
    its rules is in the registry under both its name and its id.  So a
    checker that declares a rule under a name that a registered checker
    declares is refused, and when the error reports that name it names
    that checker. *)
Theorem register_checker_refuses_duplicates (self : Robocop)
  (checker : Checker.t) :
  (Exists (fun item => is_Some (rules self !! fst item) \/
                       is_Some (rules self !! Rule.rule_id (snd item)))
     (Checker.rules_map checker) ->
   exists before item after rule_type key checker_prev,
     Checker.rules_map checker = (before ++ item :: after)%list /\
     register_checker checker self =
       Raise (DuplicatedRuleError rule_type key (length (objs self))
                checker_prev) /\
     Forall (fun earlier =>
               rules self !! fst earlier = None /\
               rules self !! Rule.rule_id (snd earlier) = None) before /\
     ((rule_type = "name" /\ key = fst item) \/
      (rule_type = "id" /\ key = Rule.rule_id (snd item) /\
       rules self !! fst item = None)) /\
     ((exists r, rules self !! key = Some (r, checker_prev)) \/
      (rules self !! key = None /\ checker_prev = length (objs self) /\
       exists earlier,
         In earlier before /\
         (key = fst earlier \/ key = Rule.rule_id (snd earlier))))) /\
  (forall self',
     register_checker checker self = Ok (tt, self') ->
     checkers self' = (checkers self ++ [length (objs self)])%list /\
     objs self' !! length (objs self) =
       Some (registered (config self) checker) /\
     forall item,
       In item (Checker.rules_map (registered (config self) checker)) ->
       rules self' !! fst item = Some (snd item, length (objs self)) /\
       rules self' !! Rule.rule_id (snd item) =
         Some (snd item, length (objs self))) /\
  (forall self' other rule_name rule rule',
     register_checker checker self = Ok (tt, self') ->
     In (rule_name, rule) (Checker.rules_map checker) ->
     In (rule_name, rule') (Checker.rules_map other) ->
     exists before item after rule_type key checker_prev,
       Checker.rules_map other = (before ++ item :: after)%list /\
       register_checker other self' =
         Raise (DuplicatedRuleError rule_type key (length (objs self'))
                  checker_prev) /\
       Forall (fun earlier =>
                 rules self' !! fst earlier = None /\
                 rules self' !! Rule.rule_id (snd earlier) = None) before /\
       ((rule_type = "name" /\ key = fst item) \/
        (rule_type = "id" /\ key = Rule.rule_id (snd item) /\
         rules self' !! fst item = None)) /\
       ((exists r, rules self' !! key = Some (r, checker_prev)) \/
        (rules self' !! key = None /\ checker_prev = length (objs self') /\
         exists earlier,
           In earlier before /\
           (key = fst earlier \/ key = Rule.rule_id (snd earlier)))) /\
       (key = rule_name -> checker_prev = length (objs self))).
Proof.
  split; [|split].
  - intros Hex.
    destruct (register_checker_taken self checker Hex)
      as (rt & k & prev & Hraise & _).
    destruct (register_checker_payload self checker _ Hraise)
      as (before & item & after & rule_type & key & checker_prev &
          Hsplit & He & Hfree & Hkey & Hprev).
    exists before, item, after, rule_type, key, checker_prev.
    split; [exact Hsplit|]. split; [rewrite Hraise, He; reflexivity|].
    split; [exact Hfree|]. split; [exact Hkey | exact Hprev].
  - intros self' H. apply register_checker_done in H.
    destruct H as (Hc & Ho & _ & Hall). auto.
  - intros self' other rule_name rule rule' H Hin Hin'.
    apply register_checker_done in H. destruct H as (_ & _ & _ & Hall).
    destruct (Hall (rule_name,
                    Rule.set_enabled
                      (Config.is_rule_enabled (config self) rule) rule))
      as [Hname _].
    { rewrite registered_rules_map.
      apply (in_map (fun item : string * Rule.t =>
                       (fst item,
                        Rule.set_enabled
                          (Config.is_rule_enabled (config self) (snd item))
                          (snd item))) _ _ Hin). }
    cbn [fst snd] in Hname.
    destruct (register_checker_taken self' other)
      as (rt & k & prev & Hraise & _).
    { apply Exists_exists. exists (rule_name, rule').
      split; [apply list_elem_of_In; exact Hin'|].
      left. simpl. eexists. exact Hname. }
    destruct (register_checker_payload self' other _ Hraise)
      as (before & item & after & rule_type & key & checker_prev &
          Hsplit & He & Hfree & Hkey & Hprev).
    exists before, item, after, rule_type, key, checker_prev.
    split; [exact Hsplit|].
    split; [rewrite Hraise, He; reflexivity|].
    split; [exact Hfree|]. split; [exact Hkey|]. split; [exact Hprev|].
    intros Hk. rewrite Hk in Hprev.
    destruct Hprev as [[r Hreg]|(Hnone & _)].
    + pose proof (eq_trans (eq_sym Hname) Hreg) as Heq.
      injection Heq as _ <-. reflexivity.
    + pose proof (eq_trans (eq_sym Hname) Hnone) as Heq. discriminate.
Qed.

(** [LengthChecker] registers in an empty linter, [line-too-long] is then
    in the registry under its name and its id for that checker, and
    [OtherLengthChecker], whose second rule has that name, is refused by
    an error that reports the name and names [LengthChecker]. *)
Lemma register_checker_refuses_duplicates_witness :
  let self := init (all_enabled [] []) in
  exists self',
    register_checker LengthChecker self = Ok (tt, self') /\
    (exists rule, rules self' !! "line-too-long" = Some (rule, 0%nat) /\
                  rules self' !! "0508" = Some (rule, 0%nat)) /\
    register_checker OtherLengthChecker self' =
      Raise (DuplicatedRuleError "name" "line-too-long" 1%nat 0%nat).
Proof.
  cbv zeta.
  destruct (register_checker LengthChecker (init (all_enabled [] [])))
    as [[[] self']|e] eqn:E; [|vm_compute in E; discriminate].
  exists self'. split; [reflexivity|].
  destruct (register_checker_refuses_duplicates (init (all_enabled [] []))
              LengthChecker) as (_ & Hdone & _).
  destruct (Hdone self' E) as (_ & Ho & Hall).
  assert (Hline :
    rules self' !! "line-too-long" =
      Some (Rule.set_enabled true
              (Rule.mk "0508" "W" true
                 [("line_length", "max_line_length",
                   fun value => VStr value)]), 0%nat) /\
    rules self' !! "0508" =
      Some (Rule.set_enabled true
              (Rule.mk "0508" "W" true
                 [("line_length", "max_line_length",
                   fun value => VStr value)]), 0%nat)).
  { exact (Hall ("line-too-long",
                 Rule.set_enabled true
                   (Rule.mk "0508" "W" true
                      [("line_length", "max_line_length",
                        fun value => VStr value)]))
             (or_introl eq_refl)). }
  split; [eexists; exact Hline|].
  assert (Hlen : length (objs self') = 1%nat).
  { vm_compute in E. injection E as <-. reflexivity. }
  assert (Hfree : rules self' !! "too-many-arguments" = None /\
                  rules self' !! "0507" = None).
  { vm_compute in E. injection E as <-. split; reflexivity. }
  destruct (register_checker_refuses_duplicates self' OtherLengthChecker)
    as (Htaken & _ & _).
  destruct Htaken
    as (before & item & after & rt & k & p & Hsplit & Hraise & Hb & Hkey &
        Hprev).
  { apply Exists_cons_tl. apply Exists_cons_hd. left.
    eexists. exact (proj1 Hline). }
  rewrite Hraise, Hlen.
  destruct Hfree as [Hf1 Hf2]. destruct Hline as [Hl1 Hl2].
  destruct before as [|b1 [|b2 [|b3 before]]]; simpl in Hsplit;
    try discriminate.
  - injection Hsplit as <- <-. exfalso.
    destruct Hkey as [[_ ->]|(_ & -> & _)]; simpl in Hprev;
      destruct Hprev as [[r Hr]|(_ & _ & earlier & [] & _)];
      [rewrite Hf1 in Hr | rewrite Hf2 in Hr]; discriminate.
  - injection Hsplit as <- <- <-.
    destruct Hkey as [[-> ->]|(_ & _ & Hnone)]; simpl in *.
    + destruct Hprev as [[r Hr]|(Hnone & _)].
      * pose proof (eq_trans (eq_sym Hl1) Hr) as Heq.
        injection Heq as _ <-. reflexivity.
      * pose proof (eq_trans (eq_sym Hl1) Hnone) as Heq. discriminate.
    + pose proof (eq_trans (eq_sym Hl1) Hnone) as Heq. discriminate.
Defined.

(** *** Configuration directives *)

(** A directive with a colon count of [n] splits into [n + 1] fields. *)
Lemma split_length (c : ascii) (s : string) :
  length (Py.split c s) = S (Py.count c s).
Proof.
  induction s as [|a s IH]; simpl; [reflexivity|].
  destruct (Ascii.eqb a c); simpl; [rewrite IH; reflexivity|].
  destruct (Py.split c s) as [|f fs]; simpl in *; [discriminate | exact IH].
Qed.

(** Forwarding a directive to the reports of a given name: the first such
    report ends the loop, since it has no [configure]. *)
Lemma forward_to_reports (rule_or_report param value : string)
  (values : list string) (rs : list Reports.Report) (self : Robocop) :
  for_each rs
    (fun report =>
       if String.eqb (Reports.report_name report) rule_or_report
       then report_configure report param value values
       else ret tt) self =
  match List.find
          (fun report => String.eqb (Reports.report_name report) rule_or_report)
          rs with
  | Some report => Raise (AttributeError (Reports.class_name report) "configure")
  | None => Ok (tt, self)
  end.
Proof.
  induction rs as [|report rs IH]; simpl; [reflexivity|].
  unfold bind at 1.
  destruct (String.eqb (Reports.report_name report) rule_or_report);
    [reflexivity | exact IH].
Qed.

Lemma no_report_named (rule_or_report : string) (rs : list Reports.Report) :
  existsb (fun report => String.eqb rule_or_report (Reports.report_name report))
    rs = false <->
  Forall (fun report => Reports.report_name report <> rule_or_report) rs.
Proof.
  induction rs as [|report rs IH]; simpl.
  - split; [constructor | reflexivity].
  - rewrite orb_false_iff, IH, Forall_cons, String.eqb_neq.
    split; intros [H1 H2]; split; congruence.
Qed.

(** The three cases in which a directive raises [ConfigGeneralError], and
    no other: fewer than two colons; a target that is neither a key of the
    registry nor the name of a registered report; a target that is a key of
    the registry with a parameter that is neither [severity] nor one the
    rule declares. *)
Lemma configure_directive_ConfigGeneralError (config : string)
  (self : Robocop) :
  (exists msg, configure_directive config self = Raise (ConfigGeneralError msg))
  <->
  ((Py.count ":" config < 2)%nat \/
   exists rule_or_report param value values,
     Py.split ":" config = rule_or_report :: param :: value :: values /\
     ((rules self !! rule_or_report = None /\
       Forall (fun report => Reports.report_name report <> rule_or_report)
         (reports self)) \/
      exists msg checker,
        rules self !! rule_or_report = Some (msg, checker) /\
        param <> "severity" /\
        Rule.get_configurable param msg = None)).
Proof.
  unfold configure_directive.
  destruct (Py.count ":" config <? 2)%nat eqn:Ecount.
  { apply Nat.ltb_lt in Ecount. split; [intros _; left; exact Ecount|].
    intros _. eexists. reflexivity. }
  apply Nat.ltb_ge in Ecount.
  pose proof (split_length ":" config) as Hlen.
  destruct (Py.split ":" config) as [|t [|param [|value values]]] eqn:Es;
    simpl in Hlen; try lia.
  unfold bind, get.
  split.
  - intros [msg H]. right. exists t, param, value, values.
    split; [reflexivity|].
    destruct (rules self !! t) as [[m checker]|] eqn:Et.
    + right. exists m, checker. split; [reflexivity|].
      destruct (String.eqb param "severity") eqn:Ep; [discriminate|].
      split; [apply String.eqb_neq; exact Ep|].
      destruct (Rule.get_configurable param m); [discriminate | reflexivity].
    + left. split; [reflexivity|].
      destruct (existsb _ (reports self)) eqn:Ex.
      * rewrite forward_to_reports in H.
        destruct (List.find _ (reports self)); discriminate.
      * apply no_report_named. exact Ex.
  - intros [Hlt|(t' & p' & v' & vs' & Heq & Hcase)]; [lia|].
    injection Heq as <- <- <- <-.
    destruct Hcase as [[Ht Hrep]|(m & checker & Ht & Hp & Hconf)].
    + rewrite Ht. apply no_report_named in Hrep. rewrite Hrep.
      eexists. reflexivity.
    + rewrite Ht. apply String.eqb_neq in Hp. rewrite Hp, Hconf.
      eexists. reflexivity.
Qed.

(** A directive with two colons whose target is no key of the registry
    but the name of a registered report raises [AttributeError]. *)
Lemma configure_directive_report_target (config : string) (self : Robocop)
  (rule_or_report param value : string) (values : list string) :
  Py.split ":" config = rule_or_report :: param :: value :: values ->
  rules self !! rule_or_report = None ->
  Exists (fun report => Reports.report_name report = rule_or_report)
    (reports self) ->
  exists class_name,
    configure_directive config self =
      Raise (AttributeError class_name "configure").
Proof.
  intros Hs Ht Hex. unfold configure_directive.
  pose proof (split_length ":" config) as Hlen. rewrite Hs in Hlen.
  simpl in Hlen.
  destruct (Py.count ":" config <? 2)%nat eqn:Ecount;
    [apply Nat.ltb_lt in Ecount; lia|].
  rewrite Hs. unfold bind, get. rewrite Ht.
  destruct (existsb _ (reports self)) eqn:Ex.
  - rewrite forward_to_reports.
    destruct (List.find _ (reports self)) as [report|] eqn:Ef.
    + eexists. reflexivity.
    + exfalso. apply Exists_exists in Hex. destruct Hex as [r [Hin Hr]].
      apply list_elem_of_In in Hin.
      pose proof (find_none _ _ Ef r Hin) as Hn. simpl in Hn.
      rewrite Hr, String.eqb_refl in Hn. discriminate.
  - exfalso. apply no_report_named in Ex.
    apply Exists_exists in Hex. destruct Hex as [r [Hin Hr]].
    rewrite Forall_forall in Ex. exact (Ex r Hin Hr).
Qed.

(** C6, on the code.  With the report [rules_by_id] selected, the
    directive [rules_by_id:width:40] has two colons and names a registered
    report, so none of the three conditions of a [ConfigGeneralError]
    holds; the directive is forwarded to [report.configure], which the
    report classes do not define, and [configure_checkers_or_reports] ends
    with an [AttributeError]. *)
Theorem configure_report_target_raises_AttributeError :
  let self := init (all_enabled ["rules_by_id"] ["rules_by_id:width:40"]) in
  (load_reports ;;> configure_checkers_or_reports) self =
    Raise (AttributeError "RulesByIdReport" "configure").
Proof. vm_compute. reflexivity. Qed.

(** *** Discovery *)

Lemma Node_induction (P : Discovery.Node -> Prop) :
  (forall path, P (Discovery.Missing path)) ->
  (forall path, P (Discovery.File path)) ->
  (forall path entries, Forall P entries -> P (Discovery.Dir path entries)) ->
  (forall path, P (Discovery.Other path)) ->
  forall node, P node.
Proof.
  intros HM HF HD HO. fix IH 1. intros [path|path|path entries|path].
  - apply HM.
  - apply HF.
  - apply HD. induction entries as [|e entries IHe]; constructor;
      [apply IH | exact IHe].
  - apply HO.
Qed.

Lemma get_absolute_path_Dir_cons (filetypes : list string)
  (absolute : Path.t -> Path.t) (recursive : bool) (path : Path.t)
  (file : Discovery.Node) (entries : list Discovery.Node) :
  Discovery.get_absolute_path filetypes absolute recursive
    (Discovery.Dir path (file :: entries)) =
  if Discovery.is_dir file && negb recursive
  then Discovery.get_absolute_path filetypes absolute recursive
         (Discovery.Dir path entries)
  else Discovery.yield_then
         (Discovery.get_absolute_path filetypes absolute recursive file)
         (Discovery.get_absolute_path filetypes absolute recursive
            (Discovery.Dir path entries)).
Proof. reflexivity. Qed.

Lemma get_absolute_path_Dir_recursive (filetypes : list string)
  (absolute : Path.t -> Path.t) (path : Path.t)
  (entries : list Discovery.Node) :
  Discovery.get_absolute_path filetypes absolute true
    (Discovery.Dir path entries) =
  Discovery.get_files filetypes absolute true entries.
Proof.
  induction entries as [|file entries IH]; [reflexivity|].
  rewrite get_absolute_path_Dir_cons, andb_false_r, IH. reflexivity.
Qed.

Lemma walked_then (filetypes : list string) (absolute : Path.t -> Path.t)
  (files files' missing missing' : list Path.t) (y y' : Discovery.Yielded) :
  Discovery.walked filetypes absolute files missing y ->
  Discovery.walked filetypes absolute files' missing' y' ->
  Discovery.walked filetypes absolute (files ++ files')%list (missing ++ missing')%list
    (Discovery.yield_then y y').
Proof.
  destruct y as [paths|path]; simpl.
  - intros [-> ->]. destruct y' as [paths'|path']; simpl.
    + intros [-> ->]. split; [reflexivity|].
      rewrite List.filter_app, map_app. reflexivity.
    + intros H. exact H.
  - intros H _. destruct missing as [|m missing]; [discriminate|exact H].
Qed.

Lemma walked_files (filetypes : list string) (absolute : Path.t -> Path.t)
  (nodes : list Discovery.Node) :
  Forall (fun node =>
            Discovery.walked filetypes absolute (Discovery.files_of node)
              (Discovery.missing_of node)
              (Discovery.get_absolute_path filetypes absolute true node))
    nodes ->
  Discovery.walked filetypes absolute (flat_map Discovery.files_of nodes)
    (flat_map Discovery.missing_of nodes)
    (Discovery.get_files filetypes absolute true nodes).
Proof.
  induction 1 as [|node nodes Hn _ IH]; simpl.
  - split; reflexivity.
  - apply walked_then; assumption.
Qed.

Lemma walked_node (filetypes : list string) (absolute : Path.t -> Path.t)
  (node : Discovery.Node) :
  Discovery.walked filetypes absolute (Discovery.files_of node)
    (Discovery.missing_of node)
    (Discovery.get_absolute_path filetypes absolute true node).
Proof.
  induction node as [path|path|path entries IH|path] using Node_induction.
  - reflexivity.
  - cbn [Discovery.get_absolute_path Discovery.files_of Discovery.missing_of].
    unfold Discovery.walked. cbn [List.filter].
    destruct (Discovery.should_parse filetypes path); split; reflexivity.
  - rewrite get_absolute_path_Dir_recursive.
    cbn [Discovery.files_of Discovery.missing_of].
    apply walked_files. exact IH.
  - split; reflexivity.
Qed.

(** A recursive search of existing trees yields, in the order of the
    listings, the absolute path of every regular file whose suffix, in
    lower case, is one of the configured file types, the files named as
    arguments included; when some listed path does not exist it raises
    FileError for the first such path instead. *)
Theorem recursive_discovery (filetypes : list string)
  (absolute : Path.t -> Path.t) (files_or_dirs : list Discovery.Node) :
  match Discovery.get_files filetypes absolute true files_or_dirs with
  | Discovery.Found paths =>
      flat_map Discovery.missing_of files_or_dirs = [] /\
      paths = map absolute
                (List.filter (Discovery.should_parse filetypes)
                   (flat_map Discovery.files_of files_or_dirs))
  | Discovery.FileError path =>
      head (flat_map Discovery.missing_of files_or_dirs) = Some path
  end.
Proof.
  apply (walked_files filetypes absolute files_or_dirs).
  apply Forall_forall. intros node _. apply walked_node.
Qed.

(** Without the recursive option a directory yields the parsable regular
    files it lists itself and nothing of its subdirectories, which are not
    even inspected; a listed path that does not exist still raises
    FileError. *)
Theorem flat_discovery (filetypes : list string)
  (absolute : Path.t -> Path.t) (path : Path.t)
  (entries : list Discovery.Node) :
  Discovery.get_absolute_path filetypes absolute false
    (Discovery.Dir path entries) =
  match flat_map Discovery.missing_at entries with
  | missing :: _ => Discovery.FileError missing
  | [] =>
      Discovery.Found
        (map absolute
           (List.filter (Discovery.should_parse filetypes)
              (flat_map Discovery.file_at entries)))
  end.
Proof.
  induction entries as [|file entries IH]; [reflexivity|].
  rewrite get_absolute_path_Dir_cons, IH.
  destruct file as [p|p|p sub|p]; simpl; try reflexivity.
  - destruct (Discovery.should_parse filetypes p);
      destruct (flat_map Discovery.missing_at entries); reflexivity.
  - destruct (flat_map Discovery.missing_at entries); reflexivity.
Qed.

Lemma yield_then_Found (y y' : Discovery.Yielded) (paths : list Path.t) :
  Discovery.yield_then y y' = Discovery.Found paths ->
  exists ps qs, y = Discovery.Found ps /\ y' = Discovery.Found qs /\
                paths = (ps ++ qs)%list.
Proof.
  destruct y as [ps|p]; [|discriminate].
  destruct y' as [qs|p]; [|discriminate].
  simpl. intros H. injection H as <-. exists ps, qs. repeat split.
Qed.

(** Every path a search yields, recursive or not, is the absolute path of
    a regular file of the trees searched that [should_parse] accepts. *)
Theorem discovered_files_pass_should_parse (filetypes : list string)
  (absolute : Path.t -> Path.t) (recursive : bool)
  (files_or_dirs : list Discovery.Node) (paths : list Path.t) :
  Discovery.get_files filetypes absolute recursive files_or_dirs
    = Discovery.Found paths ->
  forall p, In p paths ->
    exists file,
      In file (flat_map Discovery.files_of files_or_dirs) /\
      Discovery.should_parse filetypes file = true /\
      p = absolute file.
Proof.
  assert (Hnode : forall node paths,
            Discovery.get_absolute_path filetypes absolute recursive node
              = Discovery.Found paths ->
            forall p, In p paths ->
              exists file, In file (Discovery.files_of node) /\
                Discovery.should_parse filetypes file = true /\
                p = absolute file).
  { induction node as [path|path|path entries IH|path] using Node_induction;
      intros ps H p Hp.
    - discriminate.
    - simpl in H.
      destruct (Discovery.should_parse filetypes path) eqn:E;
        injection H as <-; [|destruct Hp].
      destruct Hp as [<-|[]]. exists path. simpl. auto.
    - revert ps H p Hp.
      induction IH as [|file entries Hfile _ IHentries]; intros ps H p Hp.
      + injection H as <-. destruct Hp.
      + rewrite get_absolute_path_Dir_cons in H.
        destruct (Discovery.is_dir file && negb recursive).
        * destruct (IHentries ps H p Hp) as (f & Hf & Hs & ->).
          exists f. simpl in *. split; [|split; [exact Hs|reflexivity]].
          apply in_or_app. right. exact Hf.
        * apply yield_then_Found in H. destruct H as (xs & ys & Hx & Hy & ->).
          apply in_app_or in Hp. destruct Hp as [Hp|Hp].
          -- destruct (Hfile xs Hx p Hp) as (f & Hf & Hs & ->).
             exists f. simpl. split; [|split; [exact Hs|reflexivity]].
             apply in_or_app. left. exact Hf.
          -- destruct (IHentries ys Hy p Hp) as (f & Hf & Hs & ->).
             exists f. simpl in *. split; [|split; [exact Hs|reflexivity]].
             apply in_or_app. right. exact Hf.
    - injection H as <-. destruct Hp. }
  revert paths. induction files_or_dirs as [|node nodes IH]; intros paths H p Hp.
  - injection H as <-. destruct Hp.
  - simpl in H. apply yield_then_Found in H.
    destruct H as (xs & ys & Hx & Hy & ->).
    apply in_app_or in Hp. destruct Hp as [Hp|Hp].
    + destruct (Hnode node xs Hx p Hp) as (f & Hf & Hs & ->).
      exists f. simpl. split; [|split; [exact Hs|reflexivity]].
      apply in_or_app. left. exact Hf.
    + destruct (IH ys Hy p Hp) as (f & Hf & Hs & ->).
      exists f. simpl. split; [|split; [exact Hs|reflexivity]].
      apply in_or_app. right. exact Hf.
Qed.

Lemma discovered_files_pass_should_parse_witness :
  let filetypes := [".robot"; ".resource"] in
  Discovery.get_files filetypes (fun p => p) false [Discovery.tree]
    = Discovery.Found
        [Discovery.path_of "proj/a.robot" "a.robot" ".robot";
         Discovery.path_of "proj/b.resource" "b.resource" ".resource"] /\
  exists file,
    In file (flat_map Discovery.files_of [Discovery.tree]) /\
    Discovery.should_parse filetypes file = true /\
    Discovery.path_of "proj/b.resource" "b.resource" ".resource" = file.
Proof.
  split; [reflexivity|].
  exact (discovered_files_pass_should_parse [".robot"; ".resource"]
           (fun p => p) false [Discovery.tree]
           [Discovery.path_of "proj/a.robot" "a.robot" ".robot";
            Discovery.path_of "proj/b.resource" "b.resource" ".resource"]
           eq_refl
           (Discovery.path_of "proj/b.resource" "b.resource" ".resource")
           (or_intror (or_introl eq_refl))).
Defined.

(** *** Loading the checkers *)

Lemma register_checker_step (self self' : Robocop) (checker : Checker.t) :
  register_checker checker self = Ok (tt, self') ->
  objs self' = (objs self ++ [registered (config self) checker])%list /\
  checkers self' = (checkers self ++ [length (objs self)])%list /\
  config self' = config self /\
  (registry_ok self -> registry_ok self').
Proof.
  rewrite register_checker_unfold.
  destruct (for_each _ _ _) as [[[] s']|e] eqn:E; [|discriminate].
  intros H. injection H as <-.
  pose proof (register_rules_ok _ _ _ _ E) as (Hext & Hall & Hc & Ho).
  pose proof (register_rules_frame _ _ _ _ E) as (Hcfg & Hk).
  simpl in *.
  split; [exact Ho|]. split; [rewrite Hc; reflexivity|].
  split; [exact Hcfg|].
  intros [Hown Hkey]. split.
  - intros c checker0 name rule Hl Hin. simpl in Hl |- *. rewrite Ho in Hl.
    apply lookup_app_Some in Hl. destruct Hl as [Hl|[Hle Hl]].
    + destruct (Hown c checker0 name rule Hl Hin) as [H1 H2].
      split; apply Hext; assumption.
    + apply list_lookup_singleton_Some in Hl. destruct Hl as [Hz <-].
      assert (c = length (objs self)) as -> by lia.
      exact (Hall (name, rule) Hin).
  - intros key rule c Hl. simpl in Hl |- *.
    destruct (Hk key rule c Hl) as [Hold|(-> & name & Hin & Hor)].
    + destruct (Hkey key rule c Hold) as (checker0 & name & Ho' & Hin & Hor).
      exists checker0, name. split; [|split; assumption].
      rewrite Ho. apply lookup_app_l_Some. exact Ho'.
    + exists (registered (config self) checker), name.
      split; [|split; assumption].
      rewrite Ho. apply list_lookup_middle. reflexivity.
Qed.

Lemma register_checkers_from (cs : list Checker.t) :
  forall self self' : Robocop,
    for_each cs register_checker self = Ok (tt, self') ->
    objs self' = (objs self ++ map (registered (config self)) cs)%list /\
    checkers self' =
      (checkers self ++ seq (length (objs self)) (length cs))%list /\
    (registry_ok self -> registry_ok self').
Proof.
  induction cs as [|checker cs IH]; intros self self' H.
  - simpl in H. unfold ret in H. injection H as <-. simpl.
    rewrite !app_nil_r. split; [reflexivity|]. split; [reflexivity|].
    intros Hs. exact Hs.
  - simpl in H. unfold bind at 1 in H.
    destruct (register_checker checker self) as [[[] s1]|e] eqn:E1;
      [|discriminate].
    apply register_checker_step in E1. destruct E1 as (Ho & Hc & Hcfg & Hok).
    apply IH in H. destruct H as (Ho' & Hc' & Hok').
    rewrite Hcfg, Ho in Ho'. rewrite Hc, Ho in Hc'.
    rewrite length_app in Hc'. simpl in Hc'. rewrite Nat.add_1_r in Hc'.
    split; [|split].
    + rewrite Ho', <- app_assoc. reflexivity.
    + rewrite Hc', <- app_assoc. reflexivity.
    + intros Hs. apply Hok'. apply Hok. exact Hs.
Qed.

Lemma registry_ok_init (config : Config.t) : registry_ok (init config).
Proof.
  split.
  - intros c checker name rule Hl. simpl in Hl.
    rewrite lookup_nil in Hl. discriminate.
  - intros key rule c Hl. simpl in Hl. rewrite lookup_empty in Hl.
    discriminate.
Qed.

(** When every checker of a list has been registered without an error,
    the linter holds the checker objects in that order, each rule of each
    checker is registered under its name and under its id for that
    checker, and the registry holds no other key: no rule name or id is
    shared by two checkers. *)
Theorem loaded_checkers_own_their_rules (config : Config.t)
  (cs : list Checker.t) (self : Robocop) :
  for_each cs register_checker (init config) = Ok (tt, self) ->
  objs self = map (registered config) cs /\
  checkers self = seq 0 (length cs) /\
  registry_ok self /\
  forall c c' checker checker' name rule rule',
    objs self !! c = Some checker ->
    objs self !! c' = Some checker' ->
    In (name, rule) (Checker.rules_map checker) ->
    In (name, rule') (Checker.rules_map checker') ->
    c = c'.
Proof.
  intros H. apply register_checkers_from in H.
  destruct H as (Ho & Hc & Hok). simpl in *.
  specialize (Hok (registry_ok_init config)).
  split; [exact Ho|]. split; [exact Hc|]. split; [exact Hok|].
  intros c c' checker checker' name rule rule' Hl Hl' Hin Hin'.
  destruct Hok as [Hown _].
  destruct (Hown c checker name rule Hl Hin) as [H1 _].
  destruct (Hown c' checker' name rule' Hl' Hin') as [H2 _].
  congruence.
Qed.

Lemma loaded_checkers_own_their_rules_witness :
  exists self,
    for_each [LengthChecker; ParsingErrorChecker] register_checker
      (init (all_enabled [] [])) = Ok (tt, self) /\
    checkers self = [0%nat; 1%nat] /\
    registry_ok self.
Proof.
  destruct (for_each [LengthChecker; ParsingErrorChecker] register_checker
              (init (all_enabled [] []))) as [[[] self]|e] eqn:E;
    [|vm_compute in E; discriminate].
  exists self. split; [reflexivity|].
  destruct (loaded_checkers_own_their_rules (all_enabled [] [])
              [LengthChecker; ParsingErrorChecker] self E)
    as (_ & Hc & Hok & _).
  split; [exact Hc | exact Hok].
Defined.

(** *** Scanning *)

Lemma rescan_loop_no_parsing_checker (report : RuleMsg.t -> R unit)
  (files : list RobotFile.t) (parsed_files : list Path.t) (self : Robocop)
  (todo : list ref) :
  Forall (fun c => is_parsing_error_checker self c = false) todo ->
  rescan_loop report todo files parsed_files self = Ok (tt, self).
Proof.
  induction 1 as [|c todo Hc _ IH]; [reflexivity|].
  cbn [rescan_loop]. unfold bind at 1, get.
  unfold is_parsing_error_checker in Hc. rewrite Hc. exact IH.
Qed.

Lemma rescan_unchanged_files (report : RuleMsg.t -> R unit) (checker : ref)
  (files : list RobotFile.t) (parsed_files : list Path.t) (self : Robocop) :
  Forall (fun file => scanned_with_type_of file files = type_of file files)
    parsed_files ->
  for_each parsed_files (rescan_file report checker files) self
    = Ok (tt, self).
Proof.
  induction 1 as [|file parsed_files Hf _ IH]; [reflexivity|].
  cbn [for_each]. unfold bind at 1, rescan_file.
  destruct (decide (scanned_with_type_of file files = type_of file files));
    [|contradiction].
  exact IH.
Qed.

(** The second pass does nothing, whatever the checkers would report,
    unless some registered checker is a parsing-error checker and some
    parsed file was scanned with a type other than the one it ended
    with. *)
Theorem rescan_needs_a_parsing_checker_and_a_changed_type
  (report : RuleMsg.t -> R unit) (files : list RobotFile.t)
  (parsed_files : list Path.t) (self : Robocop) :
  Forall (fun c => is_parsing_error_checker self c = false) (checkers self) \/
  Forall (fun file => scanned_with_type_of file files = type_of file files)
    parsed_files ->
  run_checks_on_files_with_type_changed report files parsed_files self
    = Ok (tt, self).
Proof.
  unfold run_checks_on_files_with_type_changed, bind, get.
  intros [H|H].
  - apply rescan_loop_no_parsing_checker. exact H.
  - induction (checkers self) as [|c todo IH]; [reflexivity|].
    cbn [rescan_loop]. unfold bind at 1, get.
    destruct (match objs self !! c with
              | Some c0 => Checker.is_ParsingErrorChecker c0
              | None => false
              end).
    + apply rescan_unchanged_files. exact H.
    + exact IH.
Qed.

Lemma rescan_needs_a_parsing_checker_and_a_changed_type_witness :
  let self :=
    with_checkers [0%nat]
      (with_objs [LengthChecker] (init (all_enabled [] []))) in
  run_checks_on_files_with_type_changed report
    [RobotFile.mk a_robot (Some RESOURCE) (Some GENERAL)] [a_robot] self
    = Ok (tt, self).
Proof.
  apply rescan_needs_a_parsing_checker_and_a_changed_type.
  left. constructor; [reflexivity | constructor].
Defined.

(** One turn of the loop of [run_checks]: the exception of the
    constructor ends the loop; otherwise the file is classified, recorded
    as parsed and scanned, and the loop goes on. *)
Lemma run_checks_loop_cons (w : World) (report : RuleMsg.t -> R unit)
  (file : Path.t) (todo : list Path.t) (files : list RobotFile.t)
  (parsed_files : list Path.t) (self : Robocop) :
  run_checks_loop w report (file :: todo) files parsed_files self =
  match read w file with
  | Disablers.Undecodable _ => Raise UnicodeDecodeError
  | source =>
      let files' := set_scanned file (recognize_file_type w file files) in
      (for_each (checkers self)
         (run_checker report file (type_of file files', file)) ;;>
       run_checks_loop w report todo files' (parsed_files ++ [file])%list)
        (with_disabler (Some (Disablers.DisablersFinder_init source)) self)
  end.
Proof.
  cbn [run_checks_loop]. unfold bind at 1, register_disablers.
  rewrite DisablersFacts.DisablersFinder_new_unfold.
  destruct (read w file) as [f|l|l]; [| |reflexivity];
    unfold modify; unfold bind at 1, get; simpl;
    rewrite DisablersFacts.init_file_disabled; reflexivity.
Qed.

(** The first pass skips no file: whatever the directives of the files
    and whatever the checkers report, when the loop ends without an error
    every path it was given has been parsed, in order. *)
Theorem run_checks_skips_no_file (w : World) (report : RuleMsg.t -> R unit)
  (todo : list Path.t) :
  forall (files : list RobotFile.t) (parsed_files : list Path.t)
         (self self' : Robocop) (r : list RobotFile.t * list Path.t),
    run_checks_loop w report todo files parsed_files self = Ok (r, self') ->
    snd r = (parsed_files ++ todo)%list.
Proof.
  induction todo as [|file todo IH]; intros files parsed_files self self' r H.
  - simpl in H. unfold ret in H. injection H as <- _.
    simpl. rewrite app_nil_r. reflexivity.
  - rewrite run_checks_loop_cons in H.
    assert (Hgo :
      (for_each (checkers self)
         (run_checker report file
            (type_of file
               (set_scanned file (recognize_file_type w file files)), file))
       ;;> run_checks_loop w report todo
             (set_scanned file (recognize_file_type w file files))
             (parsed_files ++ [file])%list)
        (with_disabler
           (Some (Disablers.DisablersFinder_init (read w file))) self)
      = Ok (r, self')).
    { destruct (read w file) as [f|l|l]; [exact H | exact H | discriminate]. }
    unfold bind at 1 in Hgo.
    destruct (for_each _ _ _) as [[[] s1]|e]; [|discriminate].
    apply IH in Hgo. rewrite Hgo, <- app_assoc. reflexivity.
Qed.

Lemma run_checks_skips_no_file_witness :
  exists r self',
    run_checks_loop project report [a_robot; b_robot]
      (map RobotFile.init [a_robot; b_robot]) []
      (init (all_enabled [] [])) = Ok (r, self') /\
    snd r = [a_robot; b_robot].
Proof.
  destruct (run_checks_loop project report [a_robot; b_robot]
              (map RobotFile.init [a_robot; b_robot]) []
              (init (all_enabled [] []))) as [[r self']|e] eqn:E;
    [|vm_compute in E; discriminate].
  exists r, self'. split; [reflexivity|].
  exact (run_checks_skips_no_file project report [a_robot; b_robot]
           (map RobotFile.init [a_robot; b_robot]) []
           (init (all_enabled [] [])) self' r E).
Defined.

(** *** What configuration leaves alone *)

Lemma same_registry_refl (self : Robocop) : same_registry self self.
Proof. repeat split. Qed.

Lemma same_registry_trans (a b c : Robocop) :
  same_registry a b -> same_registry b c -> same_registry a c.
Proof.
  intros (H1 & H2 & H3 & H4) (K1 & K2 & K3 & K4).
  split; [intros key; rewrite K1; apply H1|].
  split; [|split]; congruence.
Qed.

Lemma configure_directive_frame (directive : string) (self self' : Robocop) :
  configure_directive directive self = Ok (tt, self') ->
  same_registry self self'.
Proof.
  unfold configure_directive.
  destruct (Py.count ":" directive <? 2)%nat; [discriminate|].
  destruct (Py.split ":" directive) as [|t [|param [|value values]]];
    try discriminate.
  unfold bind, get.
  destruct (rules self !! t) as [[m checker]|] eqn:Et.
  - destruct (String.eqb param "severity").
    + intros H. injection H as <-.
      split; [|repeat split]. intros key. simpl.
      rewrite lookup_insert. case_decide; [subst key; rewrite Et|];
        reflexivity.
    + destruct (Rule.get_configurable param m) as [configurable|];
        [|discriminate].
      intros H. injection H as <-.
      split; [|split; [|split]]; try reflexivity.
      simpl. apply length_alter.
  - destruct (existsb _ (reports self)); [|discriminate].
    rewrite forward_to_reports.
    destruct (List.find _ (reports self)); [discriminate|].
    intros H. injection H as <-. apply same_registry_refl.
Qed.

(** Configuration never adds or removes a key of the registry and never
    moves a key to another checker: when [configure_checkers_or_reports]
    ends without an error, every key is registered for the checker it was
    registered for before, and the list of checkers and the number of
    checker objects are what they were. *)
Theorem configure_keeps_the_registry_keys (self self' : Robocop) :
  configure_checkers_or_reports self = Ok (tt, self') ->
  same_registry self self'.
Proof.
  unfold configure_checkers_or_reports, bind, get.
  generalize (Config.configure (config self)). intros directives.
  revert self. induction directives as [|directive directives IH];
    intros self H.
  - injection H as <-. apply same_registry_refl.
  - cbn [for_each] in H. unfold bind at 1 in H.
    destruct (configure_directive directive self) as [[[] s1]|e] eqn:E;
      [|discriminate].
    apply configure_directive_frame in E. apply IH in H.
    exact (same_registry_trans _ _ _ E H).
Qed.

Lemma configure_keeps_the_registry_keys_witness :
  exists self',
    configure_checkers_or_reports configured_linter = Ok (tt, self') /\
    same_registry configured_linter self'.
Proof.
  destruct (configure_checkers_or_reports configured_linter)
    as [[[] self']|e] eqn:E; [|vm_compute in E; discriminate].
  exists self'. split; [reflexivity|].
  exact (configure_keeps_the_registry_keys configured_linter self' E).
Defined.

(** *** A file that cannot be read *)




End RunFacts.
